(** * MLI analysis backend: a shallow embedding of [backend/mli_analysis.py],
      of the state store [backend/storage.py], of the spreadsheet export
      [backend/excel_export.py] and of the request handlers of
      [backend/main.py] that analyse, preview, move and delete images.

    The analysis module segments a lung-histology image into a tissue mask,
    lays an evenly spaced grid of horizontal and vertical measurement lines
    on it, counts tissue/airspace transitions along every line and derives
    the mean linear intercept (MLI) per line row and per image.

    Python values are modelled as the interpreter has them: [int] as [Z],
    [float] as the kernel's binary64 [float], [None]-able values as
    [option], exceptions as the [Raise] branch of [Result].  Calls into
    OpenCV, scikit-image, SciPy and NumPy's [mean] are the fields of the
    [Backend] class.  The analysis is embedded twice: on values, and in
    [InPlace] on the objects of the process, where the overlays are drawn
    on in place; the second embedding is shown to return what the first
    returns. *)

From Stdlib Require Import ZArith Lia Floats Ascii Reals Lra Psatz.
From stdpp Require Import base option list strings gmap pretty sorting.

Local Open Scope Z_scope.

(** ** Python numbers *)

Module Py.

(** An [int] as a (possibly non-canonical) binary float with exponent 0. *)
Definition int_as_SF (z : Z) : spec_float :=
  match z with
  | Z0 => S754_zero false
  | Zpos p => S754_finite false p 0
  | Zneg p => S754_finite true p 0
  end.

(** [float(n)] as the arithmetic operators apply it to an [int] operand:
    the nearest binary64 value, ties to even.  CPython raises
    [OverflowError] where this model yields an infinity (|n| >= 2^1024). *)
Definition float_of_int (z : Z) : float :=
  SF2Prim (binary_normalize prec emax z 0 false).

(** [a / b] on two [int]s: the correctly rounded quotient
    ([long_true_divide]).  CPython raises [ZeroDivisionError] for [b = 0]
    and [OverflowError] where this model yields an infinity. *)
Definition int_truediv (a b : Z) : float :=
  SF2Prim (SFdiv prec emax (int_as_SF a) (int_as_SF b)).

(** Round-half-to-even of the dyadic [m * 2^e], [m > 0]. *)
Definition round_half_even_dyadic (m : positive) (e : Z) : Z :=
  match e with
  | Zneg k =>
      let d := 2 ^ Zpos k in
      let q := Zpos m / d in
      let r := Zpos m mod d in
      match 2 * r ?= d with
      | Lt => q
      | Gt => q + 1
      | Eq => if Z.even q then q else q + 1
      end
  | _ => Zpos m * 2 ^ e
  end.

(** [round(x)] with one argument: the nearest [int], ties to even
    ([float___round___impl]).  CPython raises [ValueError] on a NaN and
    [OverflowError] on an infinity, where this model yields 0. *)
Definition round (x : float) : Z :=
  match Prim2SF x with
  | S754_finite s m e =>
      let n := round_half_even_dyadic m e in
      if s then - n else n
  | _ => 0
  end.

(** [range(n)] as a list. *)
Definition range (n : Z) : list Z := Z.of_nat <$> seq 0 (Z.to_nat n).

End Py.

(** ** Binary64 values as real numbers

    The vocabulary in which the rounding done by [Py.int_truediv],
    [Py.float_of_int], the binary64 product and [Py.round] is measured. *)

(** [2^e] for any integer exponent. *)
Definition pow2 (e : Z) : R := powerRZ 2 e.

(** Where the real [x] lies between the integers [m] and [m + 1]. *)
Definition located (x : R) (m : Z) (l : location) : Prop :=
  match l with
  | loc_Exact => x = IZR m
  | loc_Inexact Lt => (IZR m < x < IZR m + / 2)%R
  | loc_Inexact Eq => x = (IZR m + / 2)%R
  | loc_Inexact Gt => (IZR m + / 2 < x < IZR m + 1)%R
  end.

(** The record [mrs] describes the real [x]: its integer part and the
    position of its fractional part with respect to one half. *)
Definition describes (x : R) (mrs : shr_record) : Prop :=
  0 <= shr_m mrs ∧ located x (shr_m mrs) (loc_of_shr_record mrs).

(** A binary64 number in the normal range: 53 significant bits. *)
Definition normal53 (m : positive) (e : Z) : Prop :=
  2 ^ 52 <= Zpos m < 2 ^ 53 ∧ -1074 <= e <= 971.

(** The real value of a mantissa and an exponent. *)
Definition F2R (m : positive) (e : Z) : R := (IZR (Zpos m) * pow2 e)%R.

(** ** NumPy array primitives used by the intercept counter *)

Module Np.

(** Wrap-around of a value stored in an [int8] array. *)
Definition wrap_int8 (z : Z) : Z := (z + 128) mod 256 - 128.

(** [active.astype(np.int8)] on a boolean array. *)
Definition astype_int8 (active : list bool) : list Z :=
  (fun b : bool => if b then 1 else 0) <$> active.

(** [np.diff(a)] on a one-dimensional [int8] array:
    [out[i] = a[i+1] - a[i]], computed in [int8]. *)
Fixpoint diff (a : list Z) : list Z :=
  match a with
  | x :: (y :: _) as rest => wrap_int8 (y - x) :: diff rest
  | _ => []
  end.

(** [np.where(cond)[0]]: the indices at which [cond] holds, increasing. *)
Fixpoint where_from (i : nat) (cond : list bool) : list nat :=
  match cond with
  | [] => []
  | c :: rest => (if c then [i] else []) ++ where_from (S i) rest
  end.

Definition where_ (cond : list bool) : list nat := where_from 0 cond.

(** A possibly negative index against an axis of length [n];
    [None] is NumPy's [IndexError]. *)
Definition index (n : nat) (i : Z) : option nat :=
  if (0 <=? i) && (i <? Z.of_nat n) then Some (Z.to_nat i)
  else if (- Z.of_nat n <=? i) && (i <? 0) then Some (Z.to_nat (i + Z.of_nat n))
  else None.

End Np.

(** ** Data model ([mli_analysis.py], lines 14-46) *)

Record AnalysisConfigData := {
  scale_um_per_pixel : float;
  line_length_um_horizontal : float;
  line_length_um_vertical : float;
  n_lines_horizontal : Z;
  n_lines_vertical : Z;
  sigma_denoise : float;
  min_area : Z;
  magnification : string;
}.

Record LineMetrics := {
  line_number : Z;
  horizontal_intercepts : Z;
  vertical_intercepts : Z;
  horizontal_length_um : float;
  vertical_length_um : float;
  total_line_length_um : float;
  mean_linear_intercept_um : option float;
}.

Record MLIImageMetrics := {
  lines : list LineMetrics;
  average_mli_um : option float;
  processed_image_base64 : string;
  threshold_image_base64 : string;
}.

(** The per-line dictionaries [{'intercepts': ..., 'length_um': ...}]
    collected in [horizontal_data] and [vertical_data]. *)
Record LineData := {
  intercepts : Z;
  length_um : float;
}.

(** Exceptions that leave the analysis or the request handler. *)
Inductive PyError :=
| ImageProcessingError (message : string)
| IndexError
| HTTPException (status_code : Z) (detail : string).

Inductive Result (A : Type) :=
| Ok (value : A)
| Raise (error : PyError).
Arguments Ok {A} value.
Arguments Raise {A} error.

#[global] Instance Result_ret : MRet Result := fun A a => Ok a.
#[global] Instance Result_bind : MBind Result := fun A B k r =>
  match r with
  | Ok a => k a
  | Raise e => Raise e
  end.

(** A [for] loop whose body may raise. *)
Fixpoint for_each {A S} (body : S -> A -> Result S) (items : list A) (s : S)
  : Result S :=
  match items with
  | [] => Ok s
  | x :: rest => s' ← body s x; for_each body rest s'
  end.

(** A list comprehension whose element expression may raise. *)
Fixpoint comprehension {A B} (f : A -> Result B) (items : list A)
  : Result (list B) :=
  match items with
  | [] => Ok []
  | x :: rest => y ← f x; ys ← comprehension f rest; Ok (y :: ys)
  end.

(** ** Grid placement ([_auto_positions], lines 68-72) *)

Definition _auto_positions (length count : Z) : list Z :=
  if count <=? 0 then []
  else
    let step := Py.int_truediv length (count + 1) in
    (fun index => Py.round (step * Py.float_of_int (index + 1))%float)
      <$> Py.range count.

(** Position [i] (0-indexed) as the specification writes it:
    [round(L / (N + 1) * (i + 1))], in binary64 with ties to even. *)
Definition grid_position (L N : Z) (i : nat) : Z :=
  Py.round (Py.int_truediv L (N + 1) * Py.float_of_int (Z.of_nat i + 1))%float.

(** All positions lie strictly between 0 and [L]. *)
Definition strictly_inside (L : Z) (positions : list Z) : Prop :=
  Forall (fun p => 0 < p < L) positions.

Definition strictly_increasing (positions : list Z) : Prop :=
  ∀ (i j : nat) (p q : Z),
    (i < j)%nat -> positions !! i = Some p -> positions !! j = Some q -> p < q.

Definition non_decreasing (positions : list Z) : Prop :=
  ∀ (i j : nat) (p q : Z),
    (i < j)%nat -> positions !! i = Some p -> positions !! j = Some q -> p <= q.

(** Position [i] is within one half of the exact [L * (i + 1) / (N + 1)]
    (the inequality is multiplied by [2 * (N + 1)]). *)
Definition evenly_spaced (L N : Z) (positions : list Z) : Prop :=
  ∀ (i : nat) (p : Z),
    positions !! i = Some p ->
    Z.abs (2 * L * (Z.of_nat i + 1) - 2 * p * (N + 1)) <= N + 1.

(** ** Intercept counter ([_count_intercepts], lines 75-81) *)

Definition _count_intercepts (samples : list Z) : Z * list nat :=
  if (length samples =? 0)%nat then (0, [])
  else
    let active := (fun s => 0 <? s) <$> samples in
    let transitions := Np.diff (Np.astype_int8 active) in
    let indices :=
      (fun i => i + 1)%nat <$> Np.where_ ((fun t => negb (t =? 0)) <$> transitions) in
    (Z.of_nat (length indices), indices).

(** The intercept definition in the specification's words: index [i > 0]
    is an intercept when the tissue membership of sample [i] differs from
    that of sample [i - 1]. *)
Definition is_tissue (sample : Z) : bool := 0 <? sample.

Definition is_intercept (samples : list Z) (i : nat) : bool :=
  (0 <? i)%nat &&
  match samples !! i, samples !! (i - 1)%nat with
  | Some s, Some s' => negb (Bool.eqb (is_tissue s) (is_tissue s'))
  | _, _ => false
  end.

Definition intercepts_spec (samples : list Z) : list nat :=
  filter (fun i => is_intercept samples i = true) (seq 0 (length samples)).

(** The transitions of a boolean signal seen from its first sample on:
    [k] is the index of the head of [rest], [prev] the sample before it. *)
Fixpoint transitions_from (k : nat) (prev : bool) (rest : list bool) : list nat :=
  match rest with
  | [] => []
  | b :: rest' =>
      (if Bool.eqb prev b then [] else [k]) ++ transitions_from (S k) b rest'
  end.

(** ** Line metrics aggregator ([run_mli_analysis], lines 146-174) *)

(** One pass of the loop body at lines 149-171: the row appended for [idx]. *)
Definition line_row (horizontal_data vertical_data : list LineData) (idx : nat)
  : LineMetrics :=
  let horizontal :=
    if (idx <? length horizontal_data)%nat then horizontal_data !! idx else None in
  let vertical :=
    if (idx <? length vertical_data)%nat then vertical_data !! idx else None in
  let horizontal_intercepts := from_option intercepts 0 horizontal in
  let vertical_intercepts := from_option intercepts 0 vertical in
  let horizontal_length_um := from_option length_um 0%float horizontal in
  let vertical_length_um := from_option length_um 0%float vertical in
  let total_line_length_um := (horizontal_length_um + vertical_length_um)%float in
  let total_intercepts := horizontal_intercepts + vertical_intercepts in
  let line_mli :=
    if total_intercepts =? 0 then None
    else Some (total_line_length_um / Py.float_of_int total_intercepts)%float in
  {| line_number := Z.of_nat idx + 1;
     horizontal_intercepts := horizontal_intercepts;
     vertical_intercepts := vertical_intercepts;
     horizontal_length_um := horizontal_length_um;
     vertical_length_um := vertical_length_um;
     total_line_length_um := total_line_length_um;
     mean_linear_intercept_um := line_mli |}.

(** The loop of lines 146-171: rows are appended for
    [idx = 0 .. max(len(horizontal_data), len(vertical_data)) - 1]. *)
Definition build_lines (horizontal_data vertical_data : list LineData)
  : list LineMetrics :=
  let line_count := (length horizontal_data `max` length vertical_data)%nat in
  fold_left
    (fun lines idx => lines ++ [line_row horizontal_data vertical_data idx])
    (seq 0 line_count) [].

(** Line 173: the defined per-row MLI values, in row order. *)
Definition valid_mli (lines : list LineMetrics) : list float :=
  omap mean_linear_intercept_um lines.

(** Line 174: [float(np.mean(valid_mli)) if valid_mli else None], with
    NumPy's [mean] passed in. *)
Definition average_mli (np_mean : list float -> float) (lines : list LineMetrics)
  : option float :=
  let valid_mli := valid_mli lines in
  match valid_mli with
  | [] => None
  | _ :: _ => Some (np_mean valid_mli)
  end.

(** The divisor of line 159. *)
Definition total_intercepts (row : LineMetrics) : Z :=
  horizontal_intercepts row + vertical_intercepts row.

(** The stand-in for an absent line: zero intercepts, zero length. *)
Definition stand_in : LineData := {| intercepts := 0; length_um := 0 |}.

(** Row [idx] in the specification's words: a horizontal line paired with
    a vertical line. *)
Definition paired_row (idx : nat) (horizontal vertical : LineData) : LineMetrics :=
  let total_length := (length_um horizontal + length_um vertical)%float in
  let total := intercepts horizontal + intercepts vertical in
  {| line_number := Z.of_nat idx + 1;
     horizontal_intercepts := intercepts horizontal;
     vertical_intercepts := intercepts vertical;
     horizontal_length_um := length_um horizontal;
     vertical_length_um := length_um vertical;
     total_line_length_um := total_length;
     mean_linear_intercept_um :=
       if total =? 0 then None
       else Some (total_length / Py.float_of_int total)%float |}.

(** Two configurations that differ at most in [scale_um_per_pixel] and
    [magnification]. *)
Definition agree_up_to_scale (c1 c2 : AnalysisConfigData) : Prop :=
  line_length_um_horizontal c1 = line_length_um_horizontal c2 ∧
  line_length_um_vertical c1 = line_length_um_vertical c2 ∧
  n_lines_horizontal c1 = n_lines_horizontal c2 ∧
  n_lines_vertical c1 = n_lines_vertical c2 ∧
  sigma_denoise c1 = sigma_denoise c2 ∧
  min_area c1 = min_area c2.

(** [dataclasses.replace(config, min_area=area)]. *)
Definition with_min_area (config : AnalysisConfigData) (area : Z) : AnalysisConfigData :=
  {| scale_um_per_pixel := scale_um_per_pixel config;
     line_length_um_horizontal := line_length_um_horizontal config;
     line_length_um_vertical := line_length_um_vertical config;
     n_lines_horizontal := n_lines_horizontal config;
     n_lines_vertical := n_lines_vertical config;
     sigma_denoise := sigma_denoise config;
     min_area := area;
     magnification := magnification config |}.

(** Number of tissue (non-zero) pixels of a mask. *)
Definition tissue_count (mask : list (list Z)) : nat :=
  length (filter (fun v => v ≠ 0) (concat mask)).

(** Same shape, and every tissue pixel of [small] is one of [large]. *)
Definition mask_included (small large : list (list Z)) : Prop :=
  Forall2 (Forall2 (fun v v' => v ≠ 0 -> v' ≠ 0)) small large.

(** ** The imaging libraries *)

(** A grayscale or mask array: rows of [uint8] pixels. *)
Abbreviation Gray := (list (list Z)) (only parsing).

Abbreviation Point := (Z * Z)%type (only parsing).
Abbreviation Color := (Z * Z * Z)%type (only parsing).

(** What the analysis calls in OpenCV ([cv2]), scikit-image, SciPy
    ([ndi.label], reached through [remove_small_objects]), NumPy ([mean]),
    [base64] and [pathlib].  [World] is the file system the process reads. *)
Class Backend := {
  World : Type;
  (** A colour image: a height x width x 3 [uint8] array. *)
  Image : Type;
  (** [cv2.imread(path, cv2.IMREAD_COLOR)]; [None] when the file is missing
      or cannot be decoded. *)
  cv2_imread : World -> string -> option Image;
  (** [cv2.cvtColor(image, cv2.COLOR_BGR2GRAY)]. *)
  cv2_cvtColor_BGR2GRAY : Image -> Gray;
  (** [cv2.GaussianBlur(gray, (0, 0), sigma)]. *)
  cv2_GaussianBlur : Gray -> float -> Gray;
  (** [skimage.filters.threshold_otsu]. *)
  threshold_otsu : Gray -> Z;
  (** [scipy.ndimage.label] with the 1-connectivity footprint: the label of
      every pixel, 0 for background. *)
  ndi_label : list (list bool) -> list (list nat);
  (** [skimage.draw.line(r0, c0, r1, c1)]: row and column coordinates. *)
  draw_line : Z -> Z -> Z -> Z -> list Z * list Z;
  (** [cv2.cvtColor(gray, cv2.COLOR_GRAY2BGR)]. *)
  cv2_cvtColor_GRAY2BGR : Gray -> Image;
  (** [cv2.line(img, pt1, pt2, color, thickness, cv2.LINE_AA)]. *)
  cv2_line : Image -> Point -> Point -> Color -> Z -> Image;
  (** [cv2.circle(img, center, radius, color, thickness, lineType=cv2.LINE_AA)]. *)
  cv2_circle : Image -> Point -> Z -> Color -> Z -> Image;
  (** [cv2.drawMarker(img, position, color, markerType=cv2.MARKER_TILTED_CROSS,
      markerSize, thickness, line_type=cv2.LINE_AA)]. *)
  cv2_drawMarker : Image -> Point -> Color -> Z -> Z -> Image;
  (** [cv2.imencode('.png', image)]; [None] when [success] is false. *)
  cv2_imencode_png : Image -> option (list Z);
  (** [base64.b64encode(buffer).decode('ascii')]. *)
  b64encode : list Z -> string;
  (** [numpy.mean] of a non-empty list of floats. *)
  np_mean : list float -> float;
  (** [Path.exists]. *)
  path_exists : World -> string -> bool;
}.

Section Analysis.
Context `{backend : Backend}.

(** *** Segmentation ([_load_image_and_mask], lines 49-65) *)

(** [np.bincount(ccs.ravel())[label]]. *)
Definition bincount (ccs : list (list nat)) (label : nat) : nat :=
  length (filter (fun l => l = label) (concat ccs)).

(** Modelled from the spec: [skimage.morphology.remove_small_objects] is
    library code; section 4.1 says it removes the connected components of
    true-valued pixels smaller than min-area.  As in scikit-image, a pixel
    is cleared when the size of its labelled component is below
    [min_size], and [min_size = 0] returns the input. *)
Definition remove_small_objects (ar : list (list bool)) (min_size : Z)
  : list (list bool) :=
  if min_size =? 0 then ar
  else
    let ccs := ndi_label ar in
    imap (fun r row =>
            imap (fun c (v : bool) =>
                    let label := default 0%nat (ccs !! r ≫= (.!! c)) in
                    if Z.of_nat (bincount ccs label) <? min_size then false else v)
                 row)
         ar.

(** [gray < threshold], elementwise. *)
Definition below_threshold (gray : Gray) (threshold : Z) : list (list bool) :=
  (fun row : list Z => (fun g => g <? threshold) <$> row) <$> gray.

(** [tissue_mask.astype(np.uint8)]. *)
Definition astype_uint8 (mask : list (list bool)) : Gray :=
  (fun row : list bool => (fun b : bool => if b then 1 else 0) <$> row) <$> mask.

(** Lines 54-65: the mask of a decoded image. *)
Definition tissue_mask_of (image : Image) (config : AnalysisConfigData)
  : list (list bool) :=
  let gray := cv2_cvtColor_BGR2GRAY image in
  let gray :=
    if (0 <? sigma_denoise config)%float
    then cv2_GaussianBlur gray (sigma_denoise config) else gray in
  let threshold := threshold_otsu gray in
  let tissue_mask := below_threshold gray threshold in
  if 0 <? min_area config
  then remove_small_objects tissue_mask (min_area config)
  else tissue_mask.

(** What [tissue_mask_of] keeps of the thresholded pixel [v] at row [r],
    column [c], for a given [min_area]. *)
Definition kept (ar : list (list bool)) (area : Z) (r c : nat) (v : bool) : bool :=
  if 0 <? area then
    let ccs := ndi_label ar in
    let label := default 0%nat (ccs !! r ≫= (.!! c)) in
    if Z.of_nat (bincount ccs label) <? area then false else v
  else v.

Definition _load_image_and_mask (path : string) (config : AnalysisConfigData)
    (w : World) : Result (Image * Gray) * World :=
  match cv2_imread w path with
  | None => (Raise (ImageProcessingError ("Unable to read image at " +:+ path)), w)
  | Some image => (Ok (image, astype_uint8 (tissue_mask_of image config)), w)
  end.

(** *** Rendering helpers (lines 84-102) *)

Definition _encode_image_to_base64 (image : Image) : Result string :=
  match cv2_imencode_png image with
  | None => Raise (ImageProcessingError "Unable to encode processed image to PNG")
  | Some buffer => Ok (b64encode buffer)
  end.

Definition _draw_intercept_marker (canvas : Image) (point : Point) : Image :=
  let canvas := cv2_circle canvas point 8 (40, 40, 40) 3 in
  let canvas := cv2_drawMarker canvas point (0, 255, 255) 30 3 in
  cv2_circle canvas point 4 (255, 0, 255) (-1).

(** *** Orchestrator ([run_mli_analysis], lines 105-184) *)

(** [mask.shape] of a two-dimensional array. *)
Definition shape (mask : Gray) : Z * Z :=
  (Z.of_nat (length mask), Z.of_nat (from_option length 0%nat (head mask))).

(** [a[i]] on a one-dimensional array. *)
Definition getitem (a : list Z) (i : Z) : Result Z :=
  match Np.index (length a) i ≫= (a !!.) with
  | Some v => Ok v
  | None => Raise IndexError
  end.

(** [mask[rr, cc]]: the samples at the paired coordinates. *)
Definition sample_mask (mask : Gray) (rr cc : list Z) : Result (list Z) :=
  if negb (length rr =? length cc)%nat then Raise IndexError
  else
    comprehension
      (fun '(r, c) =>
         match Np.index (length mask) r ≫= (mask !!.) with
         | Some row => getitem row c
         | None => Raise IndexError
         end)
      (zip rr cc).

(** The overlays and the per-line data carried through the two loops. *)
Abbreviation LoopState := (Image * Image * list LineData)%type (only parsing).

(** Lines 121-129 and 136-144, shared by both loops once the line's pixel
    coordinates and end points are known. *)
Definition measure_line (mask : Gray) (rr cc : list Z) (pt1 pt2 : Point)
    (color : Color) (length_um : float) (st : LoopState) : Result LoopState :=
  let '(original_overlay, threshold_overlay, data) := st in
  samples ← sample_mask mask rr cc;
  let '(intercepts, intercept_indices) := _count_intercepts samples in
  points ← comprehension
             (fun i : nat =>
                x ← getitem cc (Z.of_nat i);
                y ← getitem rr (Z.of_nat i);
                Ok (x, y))
             intercept_indices;
  let original_overlay := cv2_line original_overlay pt1 pt2 color 3 in
  let threshold_overlay := cv2_line threshold_overlay pt1 pt2 color 3 in
  let '(original_overlay, threshold_overlay) :=
    fold_left
      (fun '(o, t) point =>
         (_draw_intercept_marker o point, _draw_intercept_marker t point))
      points (original_overlay, threshold_overlay) in
  Ok (original_overlay, threshold_overlay,
      data ++ [{| intercepts := intercepts; length_um := length_um |}]).

(** Body of [for y in horizontal_positions] (lines 117-129). *)
Definition horizontal_body (mask : Gray) (width : Z) (config : AnalysisConfigData)
    (st : LoopState) (y : Z) : Result LoopState :=
  let start_x := 0 in
  let end_x := width - 1 in
  let '(rr, cc) := draw_line y start_x y end_x in
  measure_line mask rr cc (start_x, y) (end_x, y) (0, 176, 255)
    (line_length_um_horizontal config) st.

(** Body of [for x in vertical_positions] (lines 132-144). *)
Definition vertical_body (mask : Gray) (height : Z) (config : AnalysisConfigData)
    (st : LoopState) (x : Z) : Result LoopState :=
  let start_y := 0 in
  let end_y := height - 1 in
  let '(rr, cc) := draw_line start_y x end_y x in
  measure_line mask rr cc (x, start_y) (x, end_y) (76, 255, 0)
    (line_length_um_vertical config) st.

(** Lines 107-144: grid placement, then both measuring and drawing loops.
    Returns the two overlays with [horizontal_data] and [vertical_data]. *)
Definition measure_grid (image : Image) (mask : Gray) (config : AnalysisConfigData)
  : Result (Image * Image * list LineData * list LineData) :=
  let '(height, width) := shape mask in
  let horizontal_positions := _auto_positions height (n_lines_horizontal config) in
  let vertical_positions := _auto_positions width (n_lines_vertical config) in
  let original_overlay := image in
  let mask_visual := (fun row : list Z => (fun v => (v * 255) mod 256) <$> row) <$> mask in
  let threshold_overlay := cv2_cvtColor_GRAY2BGR mask_visual in
  '(original_overlay, threshold_overlay, horizontal_data) ←
    for_each (horizontal_body mask width config) horizontal_positions
             (original_overlay, threshold_overlay, []);
  '(original_overlay, threshold_overlay, vertical_data) ←
    for_each (vertical_body mask height config) vertical_positions
             (original_overlay, threshold_overlay, []);
  Ok (original_overlay, threshold_overlay, horizontal_data, vertical_data).

(** Lines 146-184: the line rows, their average, the encoded overlays. *)
Definition assemble (original_overlay threshold_overlay : Image)
    (horizontal_data vertical_data : list LineData) : Result MLIImageMetrics :=
  let lines := build_lines horizontal_data vertical_data in
  let average_mli := average_mli np_mean lines in
  processed_image_base64 ← _encode_image_to_base64 original_overlay;
  threshold_image_base64 ← _encode_image_to_base64 threshold_overlay;
  Ok {| lines := lines;
        average_mli_um := average_mli;
        processed_image_base64 := processed_image_base64;
        threshold_image_base64 := threshold_image_base64 |}.

(** Lines 107-184, once the image is loaded and segmented. *)
Definition analyse_mask (image : Image) (mask : Gray) (config : AnalysisConfigData)
  : Result MLIImageMetrics :=
  '(original_overlay, threshold_overlay, horizontal_data, vertical_data) ←
    measure_grid image mask config;
  assemble original_overlay threshold_overlay horizontal_data vertical_data.

Definition run_mli_analysis (path : string) (config : AnalysisConfigData)
    (w : World) : Result MLIImageMetrics * World :=
  match _load_image_and_mask path config w with
  | (Ok (image, mask), w) => (analyse_mask image mask config, w)
  | (Raise e, w) => (Raise e, w)
  end.

End Analysis.

(** ** The analysis on the objects of the process

    [run_mli_analysis] receives [config] by reference and draws on its
    overlays in place ([cv2.line], [cv2.circle] and [cv2.drawMarker]
    change the array they are given).  Here the configuration and the
    arrays bound to [image], [mask], [original_overlay], [mask_visual] and
    [threshold_overlay] are objects of the process, named by references,
    and every object a run creates stays behind when it returns.  A library
    call that returns an array returns a new one; arrays that are read and
    never changed in place ([gray], [tissue_mask], [rr], [cc], the samples)
    are values. *)

Module InPlace.
Section InPlace.
Context `{backend : Backend}.

Inductive Object :=
| Config (config : AnalysisConfigData)
| Colour (pixels : Image)
| Grey (pixels : Gray).

(** The file system and the objects created so far, oldest first; a
    reference is the position of its object. *)
Record Process := {
  files : World;
  objects : list Object;
}.

Abbreviation Ref := nat (only parsing).

(** A computation ends in a value or an exception and leaves the process
    behind.  [None] stands for reading an object of another kind than the
    reference was bound to, which no Python reference does. *)
Definition Proc (A : Type) : Type := Process -> option (Result A * Process).

#[global] Instance Proc_ret : MRet Proc := fun A a p => Some (Ok a, p).
#[global] Instance Proc_bind : MBind Proc := fun A B k m p =>
  match m p with
  | Some (Ok a, p) => k a p
  | Some (Raise e, p) => Some (Raise e, p)
  | None => None
  end.

Definition raise {A} (e : PyError) : Proc A := fun p => Some (Raise e, p).

(** A pure expression that may raise. *)
Definition lift {A} (r : Result A) : Proc A := fun p => Some (r, p).

(** Binding a newly created object. *)
Definition new (o : Object) : Proc Ref := fun p =>
  Some (Ok (length (objects p)),
        {| files := files p; objects := objects p ++ [o] |}).

Definition config_at (r : Ref) : Proc AnalysisConfigData := fun p =>
  match objects p !! r with
  | Some (Config c) => Some (Ok c, p)
  | _ => None
  end.

Definition colour_at (r : Ref) : Proc Image := fun p =>
  match objects p !! r with
  | Some (Colour pixels) => Some (Ok pixels, p)
  | _ => None
  end.

Definition grey_at (r : Ref) : Proc Gray := fun p =>
  match objects p !! r with
  | Some (Grey pixels) => Some (Ok pixels, p)
  | _ => None
  end.

(** A drawing call: the array at [r] is replaced by what the call makes
    of it. *)
Definition in_place (r : Ref) (draw : Image -> Image) : Proc unit := fun p =>
  match objects p !! r with
  | Some (Colour pixels) =>
      Some (Ok (), {| files := files p;
                      objects := <[r := Colour (draw pixels)]> (objects p) |})
  | _ => None
  end.

(** [cv2.imread(str(path), cv2.IMREAD_COLOR)]: a new array, or [None]. *)
Definition imread (path : string) : Proc (option Ref) := fun p =>
  match cv2_imread (files p) path with
  | None => Some (Ok None, p)
  | Some pixels => (image ← new (Colour pixels); mret (Some image)) p
  end.

(** A [for] loop over [items] that carries [s]. *)
Fixpoint for_each {A S} (body : S -> A -> Proc S) (items : list A) (s : S)
  : Proc S :=
  match items with
  | [] => mret s
  | x :: rest => s' ← body s x; for_each body rest s'
  end.

(** Lines 49-65. *)
Definition _load_image_and_mask (path : string) (config : Ref)
  : Proc (Ref * Ref) :=
  image ← imread path;
  match image with
  | None => raise (ImageProcessingError ("Unable to read image at " +:+ path))
  | Some image =>
      pixels ← colour_at image;
      c ← config_at config;
      mask ← new (Grey (astype_uint8 (tissue_mask_of pixels c)));
      mret (image, mask)
  end.

(** Lines 84-88. *)
Definition _encode_image_to_base64 (image : Ref) : Proc string :=
  pixels ← colour_at image;
  match cv2_imencode_png pixels with
  | None => raise (ImageProcessingError "Unable to encode processed image to PNG")
  | Some buffer => mret (b64encode buffer)
  end.

(** Lines 91-102. *)
Definition _draw_intercept_marker (canvas : Ref) (point : Point) : Proc unit :=
  in_place canvas (fun pixels => cv2_circle pixels point 8 (40, 40, 40) 3);;
  in_place canvas (fun pixels => cv2_drawMarker pixels point (0, 255, 255) 30 3);;
  in_place canvas (fun pixels => cv2_circle pixels point 4 (255, 0, 255) (-1)).

(** Lines 121-129 and 136-144, shared by both loops once the line's pixel
    coordinates and end points are known; [length_of] is the attribute of
    the configuration that the loop reads. *)
Definition measure_line (mask original_overlay threshold_overlay config : Ref)
    (rr cc : list Z) (pt1 pt2 : Point) (color : Color)
    (length_of : AnalysisConfigData -> float) (data : list LineData)
  : Proc (list LineData) :=
  pixels ← grey_at mask;
  samples ← lift (sample_mask pixels rr cc);
  let '(intercepts, intercept_indices) := _count_intercepts samples in
  c ← config_at config;
  let length_um := length_of c in
  points ← lift (comprehension
                   (fun i : nat =>
                      x ← getitem cc (Z.of_nat i);
                      y ← getitem rr (Z.of_nat i);
                      Ok (x, y))
                   intercept_indices);
  in_place original_overlay (fun pixels => cv2_line pixels pt1 pt2 color 3);;
  in_place threshold_overlay (fun pixels => cv2_line pixels pt1 pt2 color 3);;
  for_each (fun _ point =>
              _draw_intercept_marker original_overlay point;;
              _draw_intercept_marker threshold_overlay point)
           points ();;
  mret (data ++ [{| intercepts := intercepts; length_um := length_um |}]).

(** Body of [for y in horizontal_positions] (lines 117-129). *)
Definition horizontal_body (mask original_overlay threshold_overlay config : Ref)
    (width : Z) (data : list LineData) (y : Z) : Proc (list LineData) :=
  let start_x := 0 in
  let end_x := width - 1 in
  let '(rr, cc) := draw_line y start_x y end_x in
  measure_line mask original_overlay threshold_overlay config rr cc
    (start_x, y) (end_x, y) (0, 176, 255) line_length_um_horizontal data.

(** Body of [for x in vertical_positions] (lines 132-144). *)
Definition vertical_body (mask original_overlay threshold_overlay config : Ref)
    (height : Z) (data : list LineData) (x : Z) : Proc (list LineData) :=
  let start_y := 0 in
  let end_y := height - 1 in
  let '(rr, cc) := draw_line start_y x end_y x in
  measure_line mask original_overlay threshold_overlay config rr cc
    (x, start_y) (x, end_y) (76, 255, 0) line_length_um_vertical data.

(** Lines 105-184. *)
Definition run_mli_analysis (path : string) (config : Ref)
  : Proc MLIImageMetrics :=
  '(image, mask) ← _load_image_and_mask path config;
  pixels ← grey_at mask;
  let '(height, width) := shape pixels in
  c ← config_at config;
  let horizontal_positions := _auto_positions height (n_lines_horizontal c) in
  c ← config_at config;
  let vertical_positions := _auto_positions width (n_lines_vertical c) in
  pixels ← colour_at image;
  original_overlay ← new (Colour pixels);
  pixels ← grey_at mask;
  mask_visual ←
    new (Grey ((fun row : list Z => (fun v => (v * 255) mod 256) <$> row) <$> pixels));
  pixels ← grey_at mask_visual;
  threshold_overlay ← new (Colour (cv2_cvtColor_GRAY2BGR pixels));
  horizontal_data ←
    for_each (horizontal_body mask original_overlay threshold_overlay config width)
             horizontal_positions [];
  vertical_data ←
    for_each (vertical_body mask original_overlay threshold_overlay config height)
             vertical_positions [];
  let lines := build_lines horizontal_data vertical_data in
  let average_mli := average_mli np_mean lines in
  processed_image_base64 ← _encode_image_to_base64 original_overlay;
  threshold_image_base64 ← _encode_image_to_base64 threshold_overlay;
  mret {| lines := lines;
          average_mli_um := average_mli;
          processed_image_base64 := processed_image_base64;
          threshold_image_base64 := threshold_image_base64 |}.

(** The process while the loops of [run_mli_analysis] run: after the
    objects that were there [before], the image, the mask, the original
    overlay, [mask_visual] and the threshold overlay, in the order of their
    creation. *)
Definition running (w : World) (before : list Object) (image : Image)
    (mask : Gray) (mask_visual : Gray) (original_overlay threshold_overlay : Image)
  : Process :=
  {| files := w;
     objects := before ++ [Colour image; Grey mask; Colour original_overlay;
                           Grey mask_visual; Colour threshold_overlay] |}.

(** A loop on the overlays in place against the same loop on values: the
    same data with the overlays changed in place, or the same exception
    with the overlays as far as they were drawn. *)
Definition simulates (w : World) (before : list Object) (image : Image)
    (mask mask_visual : Gray)
    (pure : Result (Image * Image * list LineData))
    (run : option (Result (list LineData) * Process)) : Prop :=
  match pure with
  | Ok (o, t, data) =>
      run = Some (Ok data, running w before image mask mask_visual o t)
  | Raise e =>
      ∃ o t, run = Some (Raise e, running w before image mask mask_visual o t)
  end.

End InPlace.
End InPlace.

(** ** The [/analyze] request handler ([main.py], lines 121-173) *)

(** [storage.ImageRecord]. *)
Record ImageRecord := {
  image_id : string;
  animal_id : string;
  original_filename : string;
  stored_path : string;
  size : Z;
  uploaded_at : string;
}.

(** [storage.LineResult]. *)
Record LineResult := {
  lr_line_number : Z;
  lr_horizontal_intercepts : Z;
  lr_vertical_intercepts : Z;
  lr_horizontal_length_um : float;
  lr_vertical_length_um : float;
  lr_total_line_length_um : float;
  lr_mean_linear_intercept_um : option float;
}.

(** [storage.AnalysisImageResult]. *)
Record AnalysisImageResult := {
  air_image_id : string;
  air_image_number : Z;
  air_name : string;
  air_average_mli_um : option float;
  air_processed_image_base64 : string;
  air_threshold_image_base64 : string;
  air_lines : list LineResult;
}.

(** What one request leaves behind: the response (or the exception that
    ended it), the images on which [run_mli_analysis] was called, in call
    order, and the file system. *)
Record AnalyzeOutcome `{backend : Backend} := {
  response : Result (list AnalysisImageResult);
  attempted : list string;
  world_after : World;
}.

Section Handler.
Context `{backend : Backend}.
(** [BASE_DIR], the directory of [main.py]. *)
Variable BASE_DIR : string.

(** [Path.is_absolute] on a POSIX path. *)
Definition is_absolute (path : string) : bool :=
  match path with
  | String "/"%char _ => true
  | _ => false
  end.

(** Lines 132-134. *)
Definition resolve_path (stored_path : string) : string :=
  if is_absolute stored_path then stored_path
  else BASE_DIR +:+ "/" +:+ stored_path.

(** Lines 152-160. *)
Definition to_line_result (line : LineMetrics) : LineResult :=
  {| lr_line_number := line_number line;
     lr_horizontal_intercepts := horizontal_intercepts line;
     lr_vertical_intercepts := vertical_intercepts line;
     lr_horizontal_length_um := horizontal_length_um line;
     lr_vertical_length_um := vertical_length_um line;
     lr_total_line_length_um := total_line_length_um line;
     lr_mean_linear_intercept_um := mean_linear_intercept_um line |}.

(** Lines 143-164. *)
Definition to_image_result (index : nat) (image : ImageRecord)
    (metrics : MLIImageMetrics) : AnalysisImageResult :=
  {| air_image_id := image_id image;
     air_image_number := Z.of_nat index + 1;
     air_name := original_filename image;
     air_average_mli_um := average_mli_um metrics;
     air_processed_image_base64 := processed_image_base64 metrics;
     air_threshold_image_base64 := threshold_image_base64 metrics;
     air_lines := to_line_result <$> lines metrics |}.

(** The loop [for index, image in enumerate(images)] (lines 131-164):
    a [raise] in the body ends the loop and the request. *)
Fixpoint analyze_loop (config_data : AnalysisConfigData) (index : nat)
    (images : list ImageRecord) (image_results : list AnalysisImageResult)
    (calls : list string) (w : World) : AnalyzeOutcome :=
  match images with
  | [] => {| response := Ok image_results; attempted := calls; world_after := w |}
  | image :: rest =>
      let image_path := resolve_path (stored_path image) in
      if negb (path_exists w image_path) then
        {| response :=
             Raise (HTTPException 404 ("Image not found on disk: " +:+ image_path));
           attempted := calls; world_after := w |}
      else
        let calls := calls ++ [image_id image] in
        match run_mli_analysis image_path config_data w with
        | (Ok metrics, w) =>
            analyze_loop config_data (S index) rest
              (image_results ++ [to_image_result index image metrics]) calls w
        | (Raise (ImageProcessingError message), w) =>
            {| response := Raise (HTTPException 500 message);
               attempted := calls; world_after := w |}
        | (Raise error, w) =>
            {| response := Raise error; attempted := calls; world_after := w |}
        end
  end.

(** [analyze], given [images = state_manager.get_images_for_animal(...)]
    and [config_data]; the handler's result is the [images] list of the
    [AnalysisResult] it records and returns. *)
Definition analyze (images : list ImageRecord) (config_data : AnalysisConfigData)
    (w : World) : AnalyzeOutcome :=
  match images with
  | [] =>
      {| response := Raise (HTTPException 404 "No images found for this animal");
         attempted := []; world_after := w |}
  | _ :: _ => analyze_loop config_data 0 images [] [] w
  end.

(** The image is on disk and its analysis returns. *)
Definition image_succeeds (config : AnalysisConfigData) (w : World)
    (image : ImageRecord) : Prop :=
  path_exists w (resolve_path (stored_path image)) = true ∧
  ∃ metrics,
    (run_mli_analysis (resolve_path (stored_path image)) config w).1 = Ok metrics.

End Handler.

(** ** A small executable backend

    Enough of the imaging libraries to run the pipeline on hand-written
    images: files are an association list from paths to decoded BGR
    pixels ([None] for a file that is no image), drawing paints single
    pixels, and the codec is passed in. *)

Module Reference.

Abbreviation Pixels := (list (list (Z * Z * Z))) (only parsing).
Abbreviation Files := (list (string * option (list (list (Z * Z * Z))))) (only parsing).

Definition imread (files : Files) (path : string) : option Pixels :=
  list_find (fun entry => fst entry = path) files ≫= (fun found => snd (snd found)).

(** OpenCV's fixed-point luma weights for BGR input. *)
Definition bgr2gray (image : Pixels) : Gray :=
  (fun row : list (Z * Z * Z) =>
     (fun '(b, g, r) => (b * 1868 + g * 9617 + r * 4899 + 8192) / 16384) <$> row)
    <$> image.

(** Stand-in for the Gaussian blur: the image itself. *)
Definition blur (gray : Gray) (sigma : float) : Gray := gray.

(** Stand-in for Otsu's threshold: half-way between the darkest and the
    brightest pixel, rounded up. *)
Definition threshold (gray : Gray) : Z :=
  let pixels := concat gray in
  (foldr Z.min 255 pixels + foldr Z.max 0 pixels + 1) / 2.

(** Stand-in for the component labelling: all true pixels form one
    component. *)
Definition label (ar : list (list bool)) : list (list nat) :=
  (fun row : list bool => (fun b : bool => if b then 1%nat else 0%nat) <$> row) <$> ar.

(** Axis-aligned lines as scikit-image returns them; other lines are
    reduced to their end points. *)
Definition line (r0 c0 r1 c1 : Z) : list Z * list Z :=
  if r0 =? r1 then
    let cc := (fun i => c0 + i) <$> Py.range (c1 - c0 + 1) in
    ((fun _ => r0) <$> cc, cc)
  else if c0 =? c1 then
    let rr := (fun i => r0 + i) <$> Py.range (r1 - r0 + 1) in
    (rr, (fun _ => c0) <$> rr)
  else ([r0; r1], [c0; c1]).

Definition gray2bgr (gray : Gray) : Pixels :=
  (fun row : list Z => (fun g => (g, g, g)) <$> row) <$> gray.

Definition paint (image : Pixels) (point : Z * Z) (color : Z * Z * Z) : Pixels :=
  let '(x, y) := point in
  if (x <? 0) || (y <? 0) then image
  else alter (fun row => <[Z.to_nat x := color]> row) (Z.to_nat y) image.

(** Paints the two end points. *)
Definition draw_segment (image : Pixels) (pt1 pt2 : Z * Z) (color : Z * Z * Z)
    (thickness : Z) : Pixels :=
  paint (paint image pt1 color) pt2 color.

Definition draw_circle (image : Pixels) (center : Z * Z) (radius : Z)
    (color : Z * Z * Z) (thickness : Z) : Pixels :=
  paint image center color.

Definition draw_marker (image : Pixels) (position : Z * Z) (color : Z * Z * Z)
    (markerSize thickness : Z) : Pixels :=
  paint image position color.

(** A codec that writes the raw channel bytes. *)
Definition raw_codec (image : Pixels) : option (list Z) :=
  Some (concat ((fun row : list (Z * Z * Z) =>
                   concat ((fun '(b, g, r) => [b; g; r]) <$> row)) <$> image)).

(** An OpenCV build without a PNG encoder. *)
Definition no_codec (image : Pixels) : option (list Z) := None.

Definition alphabet : string :=
  "ABCDEFGHIJKLMNOPQRSTUVWXYZabcdefghijklmnopqrstuvwxyz0123456789+/".

Definition sextet (n : Z) : string :=
  match String.get (Z.to_nat (n mod 64)) alphabet with
  | Some c => String c EmptyString
  | None => EmptyString
  end.

Fixpoint b64 (bytes : list Z) : string :=
  match bytes with
  | [] => EmptyString
  | [a] => sextet (a / 4) +:+ sextet (a * 16) +:+ "=="
  | [a; b] =>
      sextet (a / 4) +:+ sextet (a * 16 + b / 16) +:+ sextet (b * 4) +:+ "="
  | a :: b :: c :: rest =>
      sextet (a / 4) +:+ sextet (a * 16 + b / 16) +:+ sextet (b * 4 + c / 64)
        +:+ sextet c +:+ b64 rest
  end.

(** Left-to-right sum divided by the count. *)
Definition mean (values : list float) : float :=
  (fold_left PrimFloat.add values 0 / Py.float_of_int (Z.of_nat (length values)))%float.

Definition exists_ (files : Files) (path : string) : bool :=
  bool_decide (path ∈ files.*1).

Definition backend (codec : Pixels -> option (list Z)) : Backend := {|
  World := Files;
  Image := Pixels;
  cv2_imread := imread;
  cv2_cvtColor_BGR2GRAY := bgr2gray;
  cv2_GaussianBlur := blur;
  threshold_otsu := threshold;
  ndi_label := label;
  draw_line := line;
  cv2_cvtColor_GRAY2BGR := gray2bgr;
  cv2_line := draw_segment;
  cv2_circle := draw_circle;
  cv2_drawMarker := draw_marker;
  cv2_imencode_png := codec;
  b64encode := b64;
  np_mean := mean;
  path_exists := exists_;
|}.

(** A 4 x 6 image: a dark block (columns 2-3) on a light background. *)
Definition light : Z * Z * Z := (230, 230, 230).
Definition dark : Z * Z * Z := (40, 30, 60).
Definition block_row : list (Z * Z * Z) := [light; light; dark; dark; light; light].
Definition block_image : Pixels := [block_row; block_row; block_row; block_row].

Definition files : Files :=
  [("/data/block.png", Some block_image); ("/data/notes.txt", None)].

Definition config : AnalysisConfigData := {|
  scale_um_per_pixel := 0.5;
  line_length_um_horizontal := 100;
  line_length_um_vertical := 50;
  n_lines_horizontal := 3;
  n_lines_vertical := 1;
  sigma_denoise := 0;
  min_area := 0;
  magnification := "20x";
|}.

Definition record (id path : string) : ImageRecord := {|
  image_id := id;
  animal_id := "animal-1";
  original_filename := id;
  stored_path := path;
  size := 72;
  uploaded_at := "2024-01-01T00:00:00";
|}.

(** A batch whose first file is no image. *)
Definition batch : list ImageRecord :=
  [record "a" "/data/notes.txt"; record "b" "/data/block.png"].

(** A batch whose second file is no image. *)
Definition late_failure : list ImageRecord :=
  [record "a" "/data/block.png"; record "b" "/data/notes.txt";
   record "c" "/data/block.png"].

End Reference.

(** ** Seams between runs of samples *)

(** Whether an intercept falls on the seam between two runs of samples. *)
Definition seam (a b : list Z) : list nat :=
  match last a, head b with
  | Some x, Some y =>
      if Bool.eqb (is_tissue x) (is_tissue y) then [] else [length a]
  | _, _ => []
  end.

(** ** A crowded grid *)

Module Fixture.

(** Seven horizontal lines on a four-row image: the last one is placed on
    row 4, one past the last row. *)
Definition crowded : AnalysisConfigData := {|
  scale_um_per_pixel := 0.5;
  line_length_um_horizontal := 100;
  line_length_um_vertical := 50;
  n_lines_horizontal := 7;
  n_lines_vertical := 1;
  sigma_denoise := 0;
  min_area := 0;
  magnification := "20x";
|}.

End Fixture.

(** ** The state store ([backend/storage.py])

    [StateManager] keeps three dictionaries, [animals], [images] and
    [results], in memory and writes them to [state.json] after every
    change.  A Python [dict] is modelled with its insertion order, a JSON
    document with the values [json.load] produces; the clock
    ([datetime.utcnow().isoformat()]) and the identifier source
    ([uuid.uuid4().hex]) are arguments of the methods that read them.  The
    lock is not modelled: methods run one at a time. *)

(** A [dict] with [str] keys, in insertion order. *)
Module Dict.
Section Dict.
Context {V : Type}.

(** [d.get(key)]. *)
Fixpoint get (d : list (string * V)) (key : string) : option V :=
  match d with
  | [] => None
  | (k, v) :: rest => if decide (k = key) then Some v else get rest key
  end.

(** [d[key] = value]: a key already present keeps its place, a new key
    goes last. *)
Fixpoint setitem (d : list (string * V)) (key : string) (value : V)
  : list (string * V) :=
  match d with
  | [] => [(key, value)]
  | (k, v) :: rest =>
      if decide (k = key) then (k, value) :: rest
      else (k, v) :: setitem rest key value
  end.

(** The dictionary left by [d.pop(key, None)]. *)
Fixpoint remove (d : list (string * V)) (key : string) : list (string * V) :=
  match d with
  | [] => []
  | (k, v) :: rest =>
      if decide (k = key) then rest else (k, v) :: remove rest key
  end.

(** [d.values()]. *)
Definition values (d : list (string * V)) : list V := d.*2.

(** [d.keys()]. *)
Definition keys (d : list (string * V)) : list string := d.*1.

End Dict.
End Dict.

(** What [json.load] returns. *)
#[warnings="-register-all"] Inductive Json :=
| JNull
| JBool (b : bool)
| JInt (n : Z)
| JFloat (x : float)
| JStr (s : string)
| JList (items : list Json)
| JDict (entries : list (string * Json)).

(** The built-in exceptions the readers of stored results can raise. *)
Inductive BuiltinError :=
| TypeError
| ValueError
| KeyError
| AttributeError
| OverflowError.

Inductive Eval (A : Type) :=
| Value (a : A)
| Throw (error : BuiltinError).
Arguments Value {A} a.
Arguments Throw {A} error.

#[global] Instance Eval_ret : MRet Eval := fun A a => Value a.
#[global] Instance Eval_bind : MBind Eval := fun A B k r =>
  match r with
  | Value a => k a
  | Throw e => Throw e
  end.

(** A list comprehension over [enumerate(items, start)] whose element
    expression may raise. *)
Fixpoint collect {A B} (f : Z -> A -> Eval B) (start : Z) (items : list A)
  : Eval (list B) :=
  match items with
  | [] => Value []
  | x :: rest => y ← f start x; ys ← collect f (start + 1) rest; Value (y :: ys)
  end.

(** [float(s)] and [int(s)] on a string, left to the interpreter. *)
Class Literals := {
  float_of_str : string -> option float;
  int_of_str : string -> option Z;
}.

Module Builtins.
Section Builtins.
Context `{literals : Literals}.

(** Truth value of an object ([bool(x)]). *)
Definition truthy (x : Json) : bool :=
  match x with
  | JNull => false
  | JBool b => b
  | JInt n => negb (n =? 0)
  | JFloat x => negb (x =? 0)%float
  | JStr s => negb (bool_decide (s = EmptyString))
  | JList items => negb (bool_decide (items = []))
  | JDict entries => negb (bool_decide (entries = []))
  end.

(** [x or y]. *)
Definition or_ (x y : Json) : Json := if truthy x then x else y.

(** [float(x)]. *)
Definition float (x : Json) : Eval PrimFloat.float :=
  match x with
  | JFloat x => Value x
  | JInt n =>
      let x := Py.float_of_int n in
      if is_infinity x then Throw OverflowError else Value x
  | JBool b => Value (if b then 1%float else 0%float)
  | JStr s =>
      match float_of_str s with
      | Some x => Value x
      | None => Throw ValueError
      end
  | JNull | JList _ | JDict _ => Throw TypeError
  end.

(** [int(x)]; a float is truncated towards zero. *)
Definition int (x : Json) : Eval Z :=
  match x with
  | JInt n => Value n
  | JBool b => Value (if b then 1 else 0)
  | JFloat x =>
      match Prim2SF x with
      | S754_zero _ => Value 0
      | S754_finite s m e =>
          let n := if 0 <=? e then Zpos m * 2 ^ e else Zpos m / 2 ^ (- e) in
          Value (if s then - n else n)
      | S754_infinity _ => Throw OverflowError
      | S754_nan => Throw ValueError
      end
  | JStr s =>
      match int_of_str s with
      | Some n => Value n
      | None => Throw ValueError
      end
  | JNull | JList _ | JDict _ => Throw TypeError
  end.

(** [x.get(key, default)]: only a [dict] has the method. *)
Definition get (x : Json) (key : string) (default_ : Json) : Eval Json :=
  match x with
  | JDict entries => Value (default default_ (Dict.get entries key))
  | _ => Throw AttributeError
  end.

(** [x[key]] with a string key. *)
Definition getitem (x : Json) (key : string) : Eval Json :=
  match x with
  | JDict entries =>
      match Dict.get entries key with
      | Some v => Value v
      | None => Throw KeyError
      end
  | _ => Throw TypeError
  end.

(** The items a [for] loop over [x] visits: the elements of a list, the
    keys of a dict, the characters of a string.  A string is visited byte
    by byte here and code point by code point in Python; the readers only
    call [.get] on the items, which fails on either. *)
Definition iter (x : Json) : Eval (list Json) :=
  match x with
  | JList items => Value items
  | JDict entries => Value (JStr <$> Dict.keys entries)
  | JStr s =>
      Value ((fun c => JStr (String c EmptyString)) <$> String.list_ascii_of_string s)
  | JNull | JBool _ | JInt _ | JFloat _ => Throw TypeError
  end.

End Builtins.
End Builtins.

(** [storage.AnimalRecord]. *)
Record AnimalRecord := {
  an_animal_id : string;
  an_created_at : string;
}.

(** [storage.AnalysisResult], as the [/analyze] handler builds it. *)
Record AnalysisResult := {
  res_animal_id : string;
  res_generated_at : string;
  res_images : list AnalysisImageResult;
}.

(** An [AnalysisImageResult] as the readers rebuild it from the stored
    document.  [image_number], [average_mli_um] and the lines are
    converted on the way; the other fields are passed on as found, so they
    hold whatever JSON value the document holds. *)
Record StoredImageResult := {
  sir_image_id : Json;
  sir_image_number : Z;
  sir_name : Json;
  sir_average_mli_um : option float;
  sir_processed_image_base64 : Json;
  sir_threshold_image_base64 : Json;
  sir_lines : list LineResult;
}.

(** An [AnalysisResult] as the readers rebuild it. *)
Record StoredResult := {
  sr_animal_id : Json;
  sr_generated_at : Json;
  sr_images : list StoredImageResult;
}.

(** [float | None] as JSON. *)
Definition optional_float (x : option float) : Json :=
  match x with
  | Some x => JFloat x
  | None => JNull
  end.

(** [dataclasses.asdict] on a [LineResult]. *)
Definition asdict_line (line : LineResult) : Json :=
  JDict [("line_number", JInt (lr_line_number line));
         ("horizontal_intercepts", JInt (lr_horizontal_intercepts line));
         ("vertical_intercepts", JInt (lr_vertical_intercepts line));
         ("horizontal_length_um", JFloat (lr_horizontal_length_um line));
         ("vertical_length_um", JFloat (lr_vertical_length_um line));
         ("total_line_length_um", JFloat (lr_total_line_length_um line));
         ("mean_linear_intercept_um",
          optional_float (lr_mean_linear_intercept_um line))].

(** [dataclasses.asdict] on an [AnalysisImageResult]. *)
Definition asdict_image (image : AnalysisImageResult) : Json :=
  JDict [("image_id", JStr (air_image_id image));
         ("image_number", JInt (air_image_number image));
         ("name", JStr (air_name image));
         ("average_mli_um", optional_float (air_average_mli_um image));
         ("processed_image_base64", JStr (air_processed_image_base64 image));
         ("threshold_image_base64", JStr (air_threshold_image_base64 image));
         ("lines", JList (asdict_line <$> air_lines image))].

(** The three dictionaries of [state.json].  The entries of [images] and
    [animals] are the dictionaries [asdict] makes of an [ImageRecord] and
    an [AnimalRecord]; the entries of [results] are kept as JSON, since
    their readers allow for missing keys. *)
Record State := {
  st_animals : list (string * AnimalRecord);
  st_images : list (string * ImageRecord);
  st_results : list (string * Json);
}.

(** The manager object and the file it writes: [state_file] is the
    document in [state.json], [None] while the file does not exist. *)
Record StateManager := {
  _state : State;
  state_file : option State;
}.

(** [list.sort(key=...)] on string keys: a stable sort.  Strings compare
    byte by byte, which is Python's code-point order on UTF-8 text. *)
Fixpoint insert_by {A} (key : A -> string) (x : A) (sorted : list A) : list A :=
  match sorted with
  | [] => [x]
  | y :: rest =>
      if String.leb (key x) (key y) then x :: y :: rest
      else y :: insert_by key x rest
  end.

Definition sort_by {A} (key : A -> string) (items : list A) : list A :=
  foldr (insert_by key) [] items.

Module Storage.
Section Storage.
Context `{literals : Literals}.

Definition empty : State :=
  {| st_animals := []; st_images := []; st_results := [] |}.

(** Lines 64-68. *)
Definition _load (state_file : option State) : State :=
  match state_file with
  | None => empty
  | Some document => document
  end.

(** Lines 58-62. *)
Definition __init__ (state_file : option State) : StateManager :=
  {| _state := _load state_file; state_file := state_file |}.

(** Lines 70-72. *)
Definition _save (self : StateManager) : StateManager :=
  {| _state := _state self; state_file := Some (_state self) |}.

Definition set_animals (self : StateManager)
    (animals : list (string * AnimalRecord)) : StateManager :=
  {| _state := {| st_animals := animals;
                  st_images := st_images (_state self);
                  st_results := st_results (_state self) |};
     state_file := state_file self |}.

Definition set_images (self : StateManager)
    (images : list (string * ImageRecord)) : StateManager :=
  {| _state := {| st_animals := st_animals (_state self);
                  st_images := images;
                  st_results := st_results (_state self) |};
     state_file := state_file self |}.

Definition set_results (self : StateManager)
    (results : list (string * Json)) : StateManager :=
  {| _state := {| st_animals := st_animals (_state self);
                  st_images := st_images (_state self);
                  st_results := results |};
     state_file := state_file self |}.

(** Lines 74-81. *)
Definition ensure_animal (animal_id now : string) (self : StateManager)
  : AnimalRecord * StateManager :=
  let animals := st_animals (_state self) in
  match Dict.get animals animal_id with
  | None =>
      let record := {| an_animal_id := animal_id; an_created_at := now |} in
      (record, _save (set_animals self (Dict.setitem animals animal_id record)))
  | Some record => (record, self)
  end.

(** Lines 83-97; [fresh_id] is [uuid.uuid4().hex]. *)
Definition add_image (animal_id filename stored_path : string) (size : Z)
    (fresh_id now : string) (self : StateManager) : ImageRecord * StateManager :=
  let images := st_images (_state self) in
  let record :=
    {| image_id := fresh_id;
       animal_id := animal_id;
       original_filename := filename;
       stored_path := stored_path;
       size := size;
       uploaded_at := now |} in
  (record, _save (set_images self (Dict.setitem images fresh_id record))).

(** Lines 99-106. *)
Definition remove_image (image_id : string) (self : StateManager)
  : option ImageRecord * StateManager :=
  let images := st_images (_state self) in
  match Dict.get images image_id with
  | None => (None, self)
  | Some record_dict =>
      (Some record_dict, _save (set_images self (Dict.remove images image_id)))
  end.

(** Lines 108-118. *)
Definition move_image (id to_animal_id now : string) (self : StateManager)
  : option ImageRecord * StateManager :=
  let images := st_images (_state self) in
  match Dict.get images id with
  | None => (None, self)
  | Some record_dict =>
      let record_dict :=
        {| image_id := image_id record_dict;
           animal_id := to_animal_id;
           original_filename := original_filename record_dict;
           stored_path := stored_path record_dict;
           size := size record_dict;
           uploaded_at :=
             if bool_decide (uploaded_at record_dict = EmptyString) then now
             else uploaded_at record_dict |} in
      (Some record_dict,
       _save (set_images self (Dict.setitem images id record_dict)))
  end.

(** Lines 120-125. *)
Definition get_images_for_animal (animal : string) (self : StateManager)
  : list ImageRecord :=
  let images := st_images (_state self) in
  let relevant :=
    filter (fun record => animal_id record = animal) (Dict.values images) in
  sort_by uploaded_at relevant.

(** Lines 127-135. *)
Definition record_analysis (result : AnalysisResult) (self : StateManager)
  : StateManager :=
  let results := st_results (_state self) in
  _save (set_results self
           (Dict.setitem results (res_animal_id result)
              (JDict [("animal_id", JStr (res_animal_id result));
                      ("generated_at", JStr (res_generated_at result));
                      ("images", JList (asdict_image <$> res_images result))]))).

(** [x if x is not None else None], with a conversion of [x]. *)
Definition unless_none {A} (convert : Json -> Eval A) (x : Json) : Eval (option A) :=
  match x with
  | JNull => Value None
  | _ => y ← convert x; Value (Some y)
  end.

(** Lines 137-154. *)
Definition _coerce_line (data : Json) (default_number : Z) : Eval LineResult :=
  h ← Builtins.get data "horizontal_length_um" (JFloat 0);
  horizontal_length ← Builtins.float (Builtins.or_ h (JFloat 0));
  v ← Builtins.get data "vertical_length_um" (JFloat 0);
  vertical_length ← Builtins.float (Builtins.or_ v (JFloat 0));
  total_length ← Builtins.get data "total_line_length_um" JNull;
  total_length_um ←
    match total_length with
    | JNull => Value (horizontal_length + vertical_length)%float
    | _ => Builtins.float total_length
    end;
  line_number ← Builtins.get data "line_number" (JInt default_number)
                ≫= Builtins.int;
  horizontal_intercepts ← Builtins.get data "horizontal_intercepts" (JInt 0)
                          ≫= Builtins.int;
  vertical_intercepts ← Builtins.get data "vertical_intercepts" (JInt 0)
                        ≫= Builtins.int;
  mean ← Builtins.get data "mean_linear_intercept_um" JNull
         ≫= unless_none Builtins.float;
  Value {| lr_line_number := line_number;
           lr_horizontal_intercepts := horizontal_intercepts;
           lr_vertical_intercepts := vertical_intercepts;
           lr_horizontal_length_um := horizontal_length;
           lr_vertical_length_um := vertical_length;
           lr_total_line_length_um := total_length_um;
           lr_mean_linear_intercept_um := mean |}.

(** Lines 156-159. *)
Definition clear_results (self : StateManager) : StateManager :=
  _save (set_results self []).

(** Lines 161-192.  The default of a missing [generated_at] is evaluated
    for every record, present or not, so the clock is read once per record:
    [clock position] is the reading taken for the record at [position]
    (from 0). *)
Definition get_results (clock : Z -> string) (self : StateManager)
  : Eval (list StoredResult) :=
  let results := st_results (_state self) in
  collect
    (fun position record =>
       animal_id ← Builtins.getitem record "animal_id";
       generated_at ←
         Builtins.get record "generated_at" (JStr (clock position));
       images ← Builtins.get record "images" (JList []) ≫= Builtins.iter;
       images ←
         collect
           (fun index image =>
              image_id ← Builtins.get image "image_id" (JStr EmptyString);
              image_number ← Builtins.get image "image_number" (JInt (index + 1))
                             ≫= Builtins.int;
              name ← Builtins.get image "name" (JStr EmptyString);
              average_mli_um ← Builtins.get image "average_mli_um" JNull
                               ≫= unless_none Builtins.float;
              processed_image_base64 ←
                Builtins.get image "processed_image_base64" (JStr EmptyString);
              threshold ← Builtins.get image "threshold_image_base64" JNull;
              fallback ←
                Builtins.get image "processed_image_base64" (JStr EmptyString);
              lines ← Builtins.get image "lines" (JList []) ≫= Builtins.iter;
              lines ←
                collect (fun line_index line => _coerce_line line (line_index + 1))
                        0 lines;
              Value {| sir_image_id := image_id;
                       sir_image_number := image_number;
                       sir_name := name;
                       sir_average_mli_um := average_mli_um;
                       sir_processed_image_base64 := processed_image_base64;
                       sir_threshold_image_base64 := Builtins.or_ threshold fallback;
                       sir_lines := lines |})
           0 images;
       Value {| sr_animal_id := animal_id;
                sr_generated_at := generated_at;
                sr_images := images |})
    0 (Dict.values results).

(** Lines 194-222; [now] is the one clock reading of the call, the default
    of a missing [generated_at]. *)
Definition get_result_for_animal (animal_id now : string) (self : StateManager)
  : Eval (option StoredResult) :=
  let results := st_results (_state self) in
  match Dict.get results animal_id with
  | None => Value None
  | Some record =>
      if negb (Builtins.truthy record) then Value None
      else
        animal_id ← Builtins.getitem record "animal_id";
        generated_at ← Builtins.get record "generated_at" (JStr now);
        images ← Builtins.get record "images" (JList []) ≫= Builtins.iter;
        images ←
          collect
            (fun index image =>
               image_id ← Builtins.get image "image_id" (JStr EmptyString);
               image_number ← Builtins.get image "image_number" (JInt (index + 1))
                              ≫= Builtins.int;
               name ← Builtins.get image "name" (JStr EmptyString);
               average_mli_um ← Builtins.get image "average_mli_um" JNull
                                ≫= unless_none Builtins.float;
               processed_image_base64 ←
                 Builtins.get image "processed_image_base64" (JStr EmptyString);
               threshold ← Builtins.get image "threshold_image_base64" JNull;
               fallback ←
                 Builtins.get image "processed_image_base64" (JStr EmptyString);
               lines ← Builtins.get image "lines" (JList []) ≫= Builtins.iter;
               lines ←
                 collect (fun line_index line => _coerce_line line (line_index + 1))
                         0 lines;
               Value {| sir_image_id := image_id;
                        sir_image_number := image_number;
                        sir_name := name;
                        sir_average_mli_um := average_mli_um;
                        sir_processed_image_base64 := processed_image_base64;
                        sir_threshold_image_base64 := Builtins.or_ threshold fallback;
                        sir_lines := lines |})
            0 images;
        Value (Some {| sr_animal_id := animal_id;
                       sr_generated_at := generated_at;
                       sr_images := images |})
  end.

End Storage.
End Storage.

(** Every image is filed under its own identifier and every animal under
    its own, and no key occurs twice. *)
Definition well_formed (s : State) : Prop :=
  NoDup (Dict.keys (st_images s))
  ∧ Forall (fun entry => image_id entry.2 = entry.1) (st_images s)
  ∧ NoDup (Dict.keys (st_animals s))
  ∧ Forall (fun entry => an_animal_id entry.2 = entry.1) (st_animals s)
  ∧ NoDup (Dict.keys (st_results s)).

(** What a restarted server would load is what the running one holds. *)
Definition synced (self : StateManager) : Prop :=
  Storage._load (state_file self) = _state self.

(** Ascending order of the sort key. *)
Definition key_le {A} (key : A -> string) (x y : A) : Prop :=
  String.leb (key x) (key y) = true.

(** What reading back does to a stored length: [x or 0.0] turns a
    negative zero into 0.0 and keeps every other value. *)
Definition unsigned_zero (x : float) : float :=
  if (x =? 0)%float then 0%float else x.

(** A line as it is read back after [record_analysis]. *)
Definition reread_line (line : LineResult) : LineResult :=
  {| lr_line_number := lr_line_number line;
     lr_horizontal_intercepts := lr_horizontal_intercepts line;
     lr_vertical_intercepts := lr_vertical_intercepts line;
     lr_horizontal_length_um := unsigned_zero (lr_horizontal_length_um line);
     lr_vertical_length_um := unsigned_zero (lr_vertical_length_um line);
     lr_total_line_length_um := lr_total_line_length_um line;
     lr_mean_linear_intercept_um := lr_mean_linear_intercept_um line |}.

(** An image result as it is read back: an empty threshold overlay is
    replaced by the processed overlay. *)
Definition reread_image (image : AnalysisImageResult) : StoredImageResult :=
  {| sir_image_id := JStr (air_image_id image);
     sir_image_number := air_image_number image;
     sir_name := JStr (air_name image);
     sir_average_mli_um := air_average_mli_um image;
     sir_processed_image_base64 := JStr (air_processed_image_base64 image);
     sir_threshold_image_base64 :=
       JStr (if bool_decide (air_threshold_image_base64 image = EmptyString)
             then air_processed_image_base64 image
             else air_threshold_image_base64 image);
     sir_lines := reread_line <$> air_lines image |}.

Definition reread_result (result : AnalysisResult) : StoredResult :=
  {| sr_animal_id := JStr (res_animal_id result);
     sr_generated_at := JStr (res_generated_at result);
     sr_images := reread_image <$> res_images result |}.

(** ** The spreadsheet export ([backend/excel_export.py])

    The worksheet is modelled by what the export writes into it: cell
    values by (row, column), the cells given the bold header font and the
    centred alignment, the merged ranges and the column widths.
    [workbook.save] serialises this worksheet; the clock is an argument. *)

Inductive CellValue :=
| Text (s : string)
| Whole (n : Z)
| Real (x : float).

Record Worksheet := {
  title : string;
  cells : gmap (Z * Z) CellValue;
  bold : list (Z * Z);
  centred : list (Z * Z);
  merged : list (Z * Z * Z * Z);
  widths : list (string * Z);
}.

Module Excel.

(** A new workbook's active sheet. *)
Definition blank : Worksheet :=
  {| title := "Sheet"; cells := ∅; bold := []; centred := []; merged := [];
     widths := [] |}.

Definition set_title (ws : Worksheet) (name : string) : Worksheet :=
  {| title := name; cells := cells ws; bold := bold ws; centred := centred ws;
     merged := merged ws; widths := widths ws |}.

(** [worksheet.cell(row, column, value)]: [None] leaves the cell as it is. *)
Definition cell (ws : Worksheet) (row column : Z) (value : option CellValue)
  : Worksheet :=
  match value with
  | None => ws
  | Some v =>
      {| title := title ws; cells := <[(row, column) := v]> (cells ws);
         bold := bold ws; centred := centred ws; merged := merged ws;
         widths := widths ws |}
  end.

(** [worksheet.cell(row, column).font = header_font]. *)
Definition set_font (ws : Worksheet) (row column : Z) : Worksheet :=
  {| title := title ws; cells := cells ws; bold := bold ws ++ [(row, column)];
     centred := centred ws; merged := merged ws; widths := widths ws |}.

(** [worksheet.cell(row, column).alignment = center_alignment]. *)
Definition set_alignment (ws : Worksheet) (row column : Z) : Worksheet :=
  {| title := title ws; cells := cells ws; bold := bold ws;
     centred := centred ws ++ [(row, column)]; merged := merged ws;
     widths := widths ws |}.

(** [worksheet.merge_cells(start_row, start_column, end_row, end_column)];
    the cells joined to the first one hold no value when the export
    merges them. *)
Definition merge_cells (ws : Worksheet) (start_row start_column end_row end_column : Z)
  : Worksheet :=
  {| title := title ws; cells := cells ws; bold := bold ws; centred := centred ws;
     merged := merged ws ++ [(start_row, start_column, end_row, end_column)];
     widths := widths ws |}.

(** [worksheet.column_dimensions[letter].width = width]. *)
Definition set_width (ws : Worksheet) (letter : string) (width : Z) : Worksheet :=
  {| title := title ws; cells := cells ws; bold := bold ws; centred := centred ws;
     merged := merged ws; widths := Dict.setitem (widths ws) letter width |}.

(** [worksheet.append(values)] on a sheet without rows: the values go to
    row 1, from column 1 on. *)
Definition append_first (ws : Worksheet) (values : list string) : Worksheet :=
  fold_left (fun ws '(column, value) => cell ws 1 column (Some (Text value)))
            (imap (fun i value => (Z.of_nat i + 1, value)) values) ws.

Definition headers : list string :=
  ["Animal"; "Image #"; "Line #"; "Horizontal Intercepts"; "Vertical Intercepts";
   "MLI (µm)"].

(** [chr(ord('A') + column - 1)] for [column] in 1..26. *)
Definition column_letter (column : Z) : string :=
  String (ascii_of_nat (65 + Z.to_nat (column - 1))) EmptyString.

(** Lines 33-39: one row per line. *)
Definition write_line (animal_label : string) (image : StoredImageResult)
    (st : Worksheet * Z) (line : LineResult) : Worksheet * Z :=
  let '(worksheet, row_index) := st in
  let worksheet := cell worksheet row_index 1 (Some (Text animal_label)) in
  let worksheet := cell worksheet row_index 2 (Some (Whole (sir_image_number image))) in
  let worksheet := cell worksheet row_index 3 (Some (Whole (lr_line_number line))) in
  let worksheet :=
    cell worksheet row_index 4 (Some (Whole (lr_horizontal_intercepts line))) in
  let worksheet :=
    cell worksheet row_index 5 (Some (Whole (lr_vertical_intercepts line))) in
  let worksheet :=
    cell worksheet row_index 6 (Real <$> lr_mean_linear_intercept_um line) in
  (worksheet, row_index + 1).

(** Lines 31-45: the rows of one image, closed by its average. *)
Definition write_image (animal_label : string) (st : Worksheet * Z)
    (image : StoredImageResult) : Worksheet * Z :=
  let '(worksheet, row_index) :=
    fold_left (write_line animal_label image) (sir_lines image) st in
  let worksheet :=
    cell worksheet row_index 1
      (Some (Text (animal_label +:+ " - Image " +:+ pretty (sir_image_number image)
                   +:+ " average"))) in
  let worksheet := merge_cells worksheet row_index 1 row_index 3 in
  let worksheet := cell worksheet row_index 6 (Real <$> sir_average_mli_um image) in
  let worksheet := set_font worksheet row_index 6 in
  (worksheet, row_index + 1).

(** Lines 29-45: the images of one animal; [animal_index] counts from 1. *)
Definition write_result (st : Worksheet * Z) (entry : Z * StoredResult)
  : Worksheet * Z :=
  let '(animal_index, result) := entry in
  let animal_label := "Animal " +:+ pretty animal_index in
  fold_left (write_image animal_label) (sr_images result) st.

(** [export_results_to_excel]; the worksheet is what [workbook.save]
    writes to the returned stream. *)
Definition export_results_to_excel (results : list StoredResult) (now : string)
  : Worksheet :=
  let worksheet := set_title blank "MLI Summary" in
  let worksheet := append_first worksheet headers in
  let worksheet :=
    fold_left (fun ws column => set_alignment (set_font ws 1 column) 1 column)
              ((fun i => Z.of_nat i + 1) <$> seq 0 (length headers)) worksheet in
  let row_index := 2 in
  let '(worksheet, row_index) :=
    fold_left write_result
              (imap (fun i result => (Z.of_nat i + 1, result)) results)
              (worksheet, row_index) in
  let worksheet :=
    fold_left (fun ws column => set_width ws (column_letter column) 26)
              ((fun i => Z.of_nat i + 1) <$> seq 0 6) worksheet in
  cell worksheet (row_index + 1) 1 (Some (Text ("Generated: " +:+ now +:+ "Z"))).

End Excel.

(** The table the export lays out, row by row: for every image its lines,
    then the row of its average. *)
Definition line_cells (animal_label : string) (image : StoredImageResult)
    (line : LineResult) : list (option CellValue) :=
  [Some (Text animal_label);
   Some (Whole (sir_image_number image));
   Some (Whole (lr_line_number line));
   Some (Whole (lr_horizontal_intercepts line));
   Some (Whole (lr_vertical_intercepts line));
   Real <$> lr_mean_linear_intercept_um line].

Definition average_cells (animal_label : string) (image : StoredImageResult)
  : list (option CellValue) :=
  [Some (Text (animal_label +:+ " - Image " +:+ pretty (sir_image_number image)
               +:+ " average"));
   None; None; None; None;
   Real <$> sir_average_mli_um image].

Definition image_table (animal_label : string) (image : StoredImageResult)
  : list (list (option CellValue)) :=
  (line_cells animal_label image <$> sir_lines image)
  ++ [average_cells animal_label image].

Definition result_table (animal_index : Z) (result : StoredResult)
  : list (list (option CellValue)) :=
  concat (image_table ("Animal " +:+ pretty animal_index) <$> sr_images result).

Definition results_table (results : list StoredResult)
  : list (list (option CellValue)) :=
  concat (imap (fun i result => result_table (Z.of_nat i + 1) result) results).

(** The value at [column] (from 1) of table row [offset] (from 0). *)
Definition table_cell (table : list (list (option CellValue))) (offset column : Z)
  : option CellValue :=
  if (0 <=? offset) && (1 <=? column)
  then mjoin (table !! Z.to_nat offset ≫= (.!! Z.to_nat (column - 1)))
  else None.

(** [after] holds [table] from row [base] on, nothing else from there on,
    and above [base] what [before] held. *)
Definition lays_out (base : Z) (before after : Worksheet)
    (table : list (list (option CellValue))) : Prop :=
  (∀ r c, r < base -> cells after !! (r, c) = cells before !! (r, c))
  ∧ (∀ r c, base <= r -> cells after !! (r, c) = table_cell table (r - base) c).

(** ** The request handlers and the store ([main.py])

    The handlers below are those of [main.py] that work on the store; a
    handler takes the manager and returns it with its response (or the
    exception that ends the request). *)

(** [models.MoveImageResponseModel]. *)
Record MoveImageResponse := {
  mv_success : bool;
  mv_image_id : string;
  mv_animal_id : string;
}.

(** [models.DeleteImageResponseModel]. *)
Record DeleteImageResponse := {
  del_success : bool;
  del_image_id : string;
}.

Module Endpoints.
Section Endpoints.
Context `{backend : Backend}.
(** [BASE_DIR], the directory of [main.py]. *)
Variable BASE_DIR : string.

(** [analyze] (lines 121-173) with its reads and writes of the store:
    the images come from [get_images_for_animal], the loop is
    [analyze_loop], and a completed batch is recorded.  [now] is
    [datetime.utcnow().isoformat()]. *)
Definition analyze (animal_id : string) (config : AnalysisConfigData)
    (now : string) (state_manager : StateManager) (w : World)
  : Result AnalysisResult * StateManager :=
  let images := Storage.get_images_for_animal animal_id state_manager in
  match response (analyze BASE_DIR images config w) with
  | Raise error => (Raise error, state_manager)
  | Ok image_results =>
      let analysis_result :=
        {| res_animal_id := animal_id;
           res_generated_at := now +:+ "Z";
           res_images := image_results |} in
      (Ok analysis_result, Storage.record_analysis analysis_result state_manager)
  end.

(** Line 233: [{image.image_id: (index, image) for index, image in
    enumerate(images)}]. *)
Definition image_lookup (images : list ImageRecord)
  : list (string * (nat * ImageRecord)) :=
  fold_left (fun lookup '(index, image) =>
               Dict.setitem lookup (image_id image) (index, image))
            (imap pair images) [].

(** [analyze_preview] (lines 227-271). *)
Definition analyze_preview (animal_id image_id : string) (config : AnalysisConfigData)
    (state_manager : StateManager) (w : World) : Result AnalysisImageResult :=
  let images := Storage.get_images_for_animal animal_id state_manager in
  match images with
  | [] => Raise (HTTPException 404 "No images found for this animal")
  | _ :: _ =>
      match Dict.get (image_lookup images) image_id with
      | None => Raise (HTTPException 404 "Image not found for this animal")
      | Some (image_index, image_record) =>
          let image_path := resolve_path BASE_DIR (stored_path image_record) in
          if negb (path_exists w image_path) then
            Raise (HTTPException 404 ("Image not found on disk: " +:+ image_path))
          else
            match (run_mli_analysis image_path config w).1 with
            | Ok metrics => Ok (to_image_result image_index image_record metrics)
            | Raise (ImageProcessingError message) =>
                Raise (HTTPException 500 message)
            | Raise error => Raise error
            end
      end
  end.

(** [move_image] (lines 201-210); [created_at] and [moved_at] are the two
    readings of the clock, in [ensure_animal] and in the store's
    [move_image]. *)
Definition move_image (id from_animal_id to_animal_id : string)
    (created_at moved_at : string) (state_manager : StateManager)
  : Result MoveImageResponse * StateManager :=
  if bool_decide (from_animal_id = to_animal_id) then
    (Ok {| mv_success := true; mv_image_id := id;
           mv_animal_id := to_animal_id |},
     state_manager)
  else
    let state_manager :=
      (Storage.ensure_animal to_animal_id created_at state_manager).2 in
    match Storage.move_image id to_animal_id moved_at state_manager with
    | (None, state_manager) =>
        (Raise (HTTPException 404 "Image not found"), state_manager)
    | (Some record, state_manager) =>
        (Ok {| mv_success := true; mv_image_id := image_id record;
               mv_animal_id := animal_id record |},
         state_manager)
    end.

(** [delete_image] (lines 213-224); the third component is the path the
    handler unlinks, if it gets that far. *)
Definition delete_image (image_id : string) (state_manager : StateManager)
  : Result DeleteImageResponse * StateManager * option string :=
  match Storage.remove_image image_id state_manager with
  | (None, state_manager) =>
      (Raise (HTTPException 404 "Image not found"), state_manager, None)
  | (Some record, state_manager) =>
      (Ok {| del_success := true; del_image_id := image_id |},
       state_manager,
       Some (resolve_path BASE_DIR (stored_path record)))
  end.

End Endpoints.
End Endpoints.

(** ** Sample stores and results *)

Module Sample.

(** An interpreter that accepts no string as a number. *)
Definition literals : Literals :=
  {| float_of_str := fun _ => None; int_of_str := fun _ => None |}.

(** A fresh store after two uploads for one animal, the later upload
    stored first. *)
Definition store : StateManager :=
  (Storage.add_image "mouse-1" "first.png" "/data/block.png" 72
     "a1" "2024-02-01T08:00:00"
     (Storage.add_image "mouse-1" "second.png" "/data/block.png" 72
        "7f" "2024-02-01T09:00:00" (Storage.__init__ None)).2).2.

Definition line : LineResult :=
  {| lr_line_number := 1;
     lr_horizontal_intercepts := 2;
     lr_vertical_intercepts := 3;
     lr_horizontal_length_um := 100;
     lr_vertical_length_um := 50;
     lr_total_line_length_um := 150;
     lr_mean_linear_intercept_um := Some 30%float |}.

Definition result : AnalysisResult :=
  {| res_animal_id := "mouse-1";
     res_generated_at := "2024-02-02T10:00:00Z";
     res_images :=
       [{| air_image_id := "a1";
           air_image_number := 1;
           air_name := "first.png";
           air_average_mli_um := Some 30%float;
           air_processed_image_base64 := "cHJvY2Vzc2Vk";
           air_threshold_image_base64 := "dGhyZXNob2xk";
           air_lines := [line] |}] |}.

(** A process that holds the reference configuration and nothing else. *)
Definition process : @InPlace.Process (Reference.backend Reference.raw_codec) :=
  @InPlace.Build_Process (Reference.backend Reference.raw_codec)
    Reference.files [InPlace.Config Reference.config].

(** The sample store after a third upload, of a file that is no image. *)
Definition mixed : StateManager :=
  (Storage.add_image "mouse-1" "notes.txt" "/data/notes.txt" 5
     "c3" "2024-02-01T10:00:00" store).2.

(** The store after that analysis, with a second result that was stored
    without a time stamp. *)
Definition listed : StateManager :=
  Storage.set_results (Storage.record_analysis result (Storage.__init__ None))
    (st_results (_state (Storage.record_analysis result (Storage.__init__ None)))
     ++ [("mouse-2", JDict [("animal_id", JStr "mouse-2")])]).

End Sample.

(** * Properties *)

(** ** Python loops as list operations *)

Lemma fold_left_append {A B} (f : A -> B) (items : list A) (acc : list B) :
  fold_left (fun out x => out ++ [f x]) items acc = acc ++ (f <$> items).
Proof.
  revert acc. induction items as [|x items IH]; intros acc; simpl.
  - by rewrite app_nil_r.
  - rewrite IH. by rewrite <- app_assoc.
Qed.

Lemma guarded_lookup {A} (l : list A) (idx : nat) :
  (if (idx <? length l)%nat then l !! idx else None) = l !! idx.
Proof.
  destruct (idx <? length l)%nat eqn:E; [done|].
  apply Nat.ltb_ge in E. symmetry. by apply lookup_ge_None.
Qed.

Lemma imap_id {A} (l : list A) : imap (fun _ x => x) l = l.
Proof. induction l as [|x l IH]; [done|]. simpl. f_equal. apply IH. Qed.

Lemma Forall2_imap_same {A B C} (R : B -> C -> Prop)
    (f : nat -> A -> B) (g : nat -> A -> C) (l : list A) :
  (∀ i x, l !! i = Some x -> R (f i x) (g i x)) ->
  Forall2 R (imap f l) (imap g l).
Proof.
  revert f g. induction l as [|x l IH]; intros f g Hfg; [constructor|].
  simpl. constructor.
  - by apply (Hfg 0%nat).
  - apply IH. intros i y Hy. by apply (Hfg (S i)).
Qed.

Lemma filter_length_Forall2 {A} (P : A -> Prop) `{!∀ x, Decision (P x)}
    (l l' : list A) :
  Forall2 (fun x x' => P x -> P x') l l' ->
  (length (filter P l) <= length (filter P l'))%nat.
Proof.
  induction 1 as [|x x' l l' Hx _ IH]; [done|].
  rewrite !filter_cons.
  destruct (decide (P x)), (decide (P x')); simpl; try lia. tauto.
Qed.

(** ** The aggregator *)

Lemma build_lines_rows (horizontal_data vertical_data : list LineData) :
  build_lines horizontal_data vertical_data =
  line_row horizontal_data vertical_data
    <$> seq 0 (length horizontal_data `max` length vertical_data).
Proof. unfold build_lines. by rewrite fold_left_append. Qed.

Lemma line_row_total hd vd idx :
  total_line_length_um (line_row hd vd idx) =
  (horizontal_length_um (line_row hd vd idx)
   + vertical_length_um (line_row hd vd idx))%float.
Proof. reflexivity. Qed.

Lemma line_row_mli hd vd idx :
  mean_linear_intercept_um (line_row hd vd idx) =
  let row := line_row hd vd idx in
  if total_intercepts row =? 0 then None
  else Some (total_line_length_um row / Py.float_of_int (total_intercepts row))%float.
Proof. reflexivity. Qed.

Lemma line_row_paired hd vd idx :
  line_row hd vd idx =
  paired_row idx (default stand_in (hd !! idx)) (default stand_in (vd !! idx)).
Proof.
  unfold line_row. rewrite !guarded_lookup.
  by destruct (hd !! idx), (vd !! idx).
Qed.

Lemma build_lines_mli hd vd :
  Forall (fun row =>
      mean_linear_intercept_um row =
        if total_intercepts row =? 0 then None
        else Some (total_line_length_um row
                   / Py.float_of_int (total_intercepts row))%float)
    (build_lines hd vd).
Proof.
  rewrite build_lines_rows. apply Forall_fmap, Forall_forall.
  intros idx _. apply line_row_mli.
Qed.

Lemma valid_mli_rows (rows : list LineMetrics) :
  Forall (fun row =>
      mean_linear_intercept_um row =
        if total_intercepts row =? 0 then None
        else Some (total_line_length_um row
                   / Py.float_of_int (total_intercepts row))%float)
    rows ->
  valid_mli rows =
    (fun row => (total_line_length_um row
                 / Py.float_of_int (total_intercepts row))%float)
      <$> filter (fun row => total_intercepts row ≠ 0) rows.
Proof.
  unfold valid_mli. induction 1 as [|row rows Hrow _ IH]; [done|].
  csimpl. rewrite Hrow, IH. rewrite filter_cons.
  destruct (Z.eqb_spec (total_intercepts row) 0) as [E|E].
  - by rewrite decide_False by (intros ?; contradiction).
  - by rewrite decide_True.
Qed.

(** C1.  Every row the aggregator produces has total length = horizontal
    length + vertical length (binary64 addition; an absent side counts as
    length 0.0 and 0 intercepts), and, when the total intercept count
    (horizontal + vertical) is positive, a per-row MLI equal to the total
    length divided by that count.  Lengths 100.0 and 50.0 with 2 and 3
    intercepts give total length 150.0, 5 intercepts and MLI exactly 30.0. *)
Theorem C1_row_totals_and_mli (horizontal_data vertical_data : list LineData) :
  Forall (fun row =>
      total_line_length_um row =
        (horizontal_length_um row + vertical_length_um row)%float ∧
      (0 < total_intercepts row ->
       mean_linear_intercept_um row =
         Some (total_line_length_um row
               / Py.float_of_int (total_intercepts row))%float))
    (build_lines horizontal_data vertical_data)
  ∧ (∀ idx : nat,
      let row := line_row horizontal_data vertical_data idx in
      horizontal_length_um row = from_option length_um 0%float (horizontal_data !! idx) ∧
      vertical_length_um row = from_option length_um 0%float (vertical_data !! idx) ∧
      horizontal_intercepts row = from_option intercepts 0 (horizontal_data !! idx) ∧
      vertical_intercepts row = from_option intercepts 0 (vertical_data !! idx))
  ∧ build_lines [{| intercepts := 2; length_um := 100 |}]
                [{| intercepts := 3; length_um := 50 |}] =
    [{| line_number := 1;
        horizontal_intercepts := 2; vertical_intercepts := 3;
        horizontal_length_um := 100; vertical_length_um := 50;
        total_line_length_um := 150;
        mean_linear_intercept_um := Some 30%float |}].
Proof.
  split; [|split].
  - rewrite build_lines_rows. apply Forall_fmap, Forall_forall.
    intros idx _. unfold compose. split; [apply line_row_total|].
    intros Hpos. rewrite line_row_mli. cbv zeta.
    destruct (total_intercepts _ =? 0) eqn:E; [|done].
    apply Z.eqb_eq in E. lia.
  - intros idx. unfold line_row. simpl. by rewrite !guarded_lookup.
  - reflexivity.
Qed.

Lemma C1_row_totals_and_mli_witness :
  0 < total_intercepts
        (paired_row 0 {| intercepts := 2; length_um := 100 |}
                      {| intercepts := 3; length_um := 50 |})
  ∧ mean_linear_intercept_um
      (paired_row 0 {| intercepts := 2; length_um := 100 |}
                    {| intercepts := 3; length_um := 50 |})
    = Some (150 / Py.float_of_int 5)%float.
Proof.
  split; [reflexivity|].
  pose proof (C1_row_totals_and_mli
                [{| intercepts := 2; length_um := 100 |}]
                [{| intercepts := 3; length_um := 50 |}]) as [Hrows _].
  apply Forall_inv in Hrows as [_ Hmli]. apply Hmli. reflexivity.
Defined.

(** C2.  A row whose total intercept count is zero has no per-row MLI
    ([None], so neither 0 nor an infinity); the values averaged are exactly
    the MLI of the rows with a non-zero count, in row order; the image
    average is NumPy's mean of those values, and [None] when there is none,
    in particular when every row has zero intercepts. *)
Theorem C2_zero_intercepts_undefined (np_mean : list float -> float)
    (horizontal_data vertical_data : list LineData) :
  let rows := build_lines horizontal_data vertical_data in
  Forall (fun row => total_intercepts row = 0 -> mean_linear_intercept_um row = None) rows
  ∧ valid_mli rows =
      (fun row => (total_line_length_um row
                   / Py.float_of_int (total_intercepts row))%float)
        <$> filter (fun row => total_intercepts row ≠ 0) rows
  ∧ average_mli np_mean rows =
      (if decide (valid_mli rows = []) then None else Some (np_mean (valid_mli rows)))
  ∧ (Forall (fun row => total_intercepts row = 0) rows -> average_mli np_mean rows = None).
Proof.
  intros rows. pose proof (build_lines_mli horizontal_data vertical_data) as Hmli.
  fold rows in Hmli. split; [|split; [|split]].
  - eapply Forall_impl; [exact Hmli|]. intros row Hrow Hzero. simpl in Hrow.
    rewrite Hrow, Hzero. done.
  - by apply valid_mli_rows.
  - unfold average_mli. by destruct (valid_mli rows).
  - intros Hall. unfold average_mli. rewrite (valid_mli_rows _ Hmli).
    assert (filter (fun row => total_intercepts row ≠ 0) rows = []) as ->; [|done].
    clear Hmli. induction Hall as [|row rest Hrow _ IH]; [done|].
    rewrite filter_cons. rewrite decide_False by (intros ?; contradiction).
    apply IH.
Qed.

Lemma C2_zero_intercepts_undefined_witness :
  Forall (fun row => total_intercepts row = 0)
    (build_lines [{| intercepts := 0; length_um := 100 |}]
                 [{| intercepts := 0; length_um := 50 |}])
  ∧ average_mli Reference.mean
      (build_lines [{| intercepts := 0; length_um := 100 |}]
                   [{| intercepts := 0; length_um := 50 |}]) = None.
Proof.
  assert (Forall (fun row => total_intercepts row = 0)
            (build_lines [{| intercepts := 0; length_um := 100 |}]
                         [{| intercepts := 0; length_um := 50 |}])) as Hall.
  { repeat constructor. }
  split; [exact Hall|].
  apply (C2_zero_intercepts_undefined Reference.mean
           [{| intercepts := 0; length_um := 100 |}]
           [{| intercepts := 0; length_um := 50 |}]).
  exact Hall.
Defined.

(** C5.  The aggregator produces max(H, V) rows; row [idx] pairs horizontal
    line [idx] with vertical line [idx], an absent line being replaced by
    the zero-intercept, zero-length stand-in.  With 3 horizontal lines and
    1 vertical line there are 3 rows, and rows 1 and 2 have zero vertical
    intercepts and zero vertical length. *)
Theorem C5_row_pairing (horizontal_data vertical_data : list LineData) :
  length (build_lines horizontal_data vertical_data) =
    (length horizontal_data `max` length vertical_data)%nat
  ∧ build_lines horizontal_data vertical_data =
      (fun idx => paired_row idx (default stand_in (horizontal_data !! idx))
                                 (default stand_in (vertical_data !! idx)))
        <$> seq 0 (length horizontal_data `max` length vertical_data)
  ∧ ∀ h0 h1 h2 v0 : LineData,
      build_lines [h0; h1; h2] [v0] =
        [paired_row 0 h0 v0; paired_row 1 h1 stand_in; paired_row 2 h2 stand_in]
      ∧ (fun row => (vertical_intercepts row, vertical_length_um row,
                     total_intercepts row, total_line_length_um row))
          <$> drop 1 (build_lines [h0; h1; h2] [v0]) =
        [(0, 0%float, intercepts h1 + 0, (length_um h1 + 0)%float);
         (0, 0%float, intercepts h2 + 0, (length_um h2 + 0)%float)].
Proof.
  split; [|split].
  - rewrite build_lines_rows. by rewrite length_fmap, length_seq.
  - rewrite build_lines_rows. apply list_fmap_ext. intros _ idx _.
    apply line_row_paired.
  - intros h0 h1 h2 v0. split; reflexivity.
Qed.

(** ** The intercept counter *)

Lemma diff_step (x y : bool) :
  negb (Np.wrap_int8 ((if y then 1 else 0) - (if x then 1 else 0)) =? 0)
  = negb (Bool.eqb x y).
Proof. by destruct x, y. Qed.

Lemma where_diff_transitions (k : nat) (prev : bool) (rest : list bool) :
  (fun i => i + 1)%nat
    <$> Np.where_from k
          ((fun t => negb (t =? 0)) <$> Np.diff (Np.astype_int8 (prev :: rest)))
  = transitions_from (S k) prev rest.
Proof.
  revert k prev. induction rest as [|b rest IH]; intros k prev; [done|].
  change (Np.diff (Np.astype_int8 (prev :: b :: rest)))
    with (Np.wrap_int8 ((if b then 1 else 0) - (if prev then 1 else 0))
            :: Np.diff (Np.astype_int8 (b :: rest))).
  rewrite fmap_cons, diff_step. cbn [Np.where_from transitions_from].
  rewrite fmap_app, IH.
  f_equal. destruct (Bool.eqb prev b); simpl; [done|]. f_equal. lia.
Qed.

Lemma filter_intercepts_transitions (pre : list Z) (prev : Z) (rest : list Z) :
  filter (fun i => is_intercept (pre ++ prev :: rest) i = true)
         (seq (S (length pre)) (length rest))
  = transitions_from (S (length pre)) (is_tissue prev) (is_tissue <$> rest).
Proof.
  revert pre prev. induction rest as [|b rest IH]; intros pre prev; [done|].
  cbn [length seq]. rewrite filter_cons.
  assert (is_intercept (pre ++ prev :: b :: rest) (S (length pre))
          = negb (Bool.eqb (is_tissue prev) (is_tissue b))) as Hhere.
  { unfold is_intercept.
    replace (S (length pre) - 1)%nat with (length pre) by lia.
    rewrite (lookup_app_r pre) by lia.
    replace (S (length pre) - length pre)%nat with 1%nat by lia.
    rewrite list_lookup_middle by done. simpl.
    by destruct (is_tissue b), (is_tissue prev). }
  specialize (IH (pre ++ [prev]) b).
  rewrite <- app_assoc, length_app in IH. simpl in IH.
  replace (length pre + 1)%nat with (S (length pre)) in IH by lia.
  rewrite IH, Hhere. rewrite fmap_cons. cbn [transitions_from].
  destruct (Bool.eqb (is_tissue prev) (is_tissue b)).
  - by rewrite decide_False.
  - by rewrite decide_True.
Qed.

Lemma intercepts_spec_transitions (samples : list Z) :
  intercepts_spec samples =
  match samples with
  | [] => []
  | s :: rest => transitions_from 1 (is_tissue s) (is_tissue <$> rest)
  end.
Proof.
  destruct samples as [|s rest]; [done|].
  unfold intercepts_spec. cbn [length seq]. rewrite filter_cons.
  rewrite decide_False by (unfold is_intercept; simpl; done).
  apply (filter_intercepts_transitions [] s rest).
Qed.

(** C3.  The intercept counter returns, in increasing order, exactly the
    indices [i > 0] at which the tissue membership of sample [i] differs
    from that of sample [i - 1], together with their number; the empty
    input gives count 0 and no index; [tissue, tissue, background,
    background, tissue] gives count 2 at indices [2; 4]. *)
Theorem C3_intercepts_are_transitions :
  (∀ samples : list Z,
     _count_intercepts samples =
       (Z.of_nat (length (intercepts_spec samples)), intercepts_spec samples))
  ∧ (∀ (samples : list Z) (i : nat),
       i ∈ (_count_intercepts samples).2 ↔
       (0 < i < length samples)%nat ∧
       is_tissue <$> samples !! i ≠ is_tissue <$> samples !! (i - 1)%nat)
  ∧ _count_intercepts [] = (0, [])
  ∧ _count_intercepts [1; 1; 0; 0; 1] = (2, [2; 4]%nat).
Proof.
  assert (∀ samples : list Z,
     _count_intercepts samples =
       (Z.of_nat (length (intercepts_spec samples)), intercepts_spec samples)) as Heq.
  { intros samples. rewrite intercepts_spec_transitions.
    destruct samples as [|s rest]; [done|].
    unfold _count_intercepts. cbn [length Nat.eqb]. cbv zeta.
    unfold Np.where_. rewrite fmap_cons.
    change (fun s0 : Z => 0 <? s0) with is_tissue.
    by rewrite where_diff_transitions. }
  split; [exact Heq|]. split; [|split; reflexivity].
  intros samples i. rewrite Heq. simpl. unfold intercepts_spec.
  rewrite list_elem_of_filter, elem_of_seq. unfold is_intercept.
  rewrite andb_true_iff, Nat.ltb_lt.
  split.
  - intros [[Hi Hneq] Hrange]. split; [lia|].
    destruct (samples !! i), (samples !! (i - 1)%nat); simpl in *; try done.
    intros [= E]. rewrite E in Hneq. by rewrite Bool.eqb_reflx in Hneq.
  - intros [Hrange Hneq]. split; [|lia]. split; [lia|].
    destruct (lookup_lt_is_Some_2 samples i) as [s Hs]; [lia|].
    destruct (lookup_lt_is_Some_2 samples (i - 1)) as [s' Hs']; [lia|].
    rewrite Hs, Hs' in *. simpl in Hneq.
    destruct (is_tissue s), (is_tissue s'); simpl; congruence.
Qed.

(** ** Grid placement *)

(** C4, as stated, fails: for axis length 1 and one line the only position
    is 0, which is not strictly inside (0, 1); for axis length 2 and five
    lines the positions [0; 1; 1; 1; 2] repeat and touch both ends. *)
Lemma C4_counterexample :
  _auto_positions 1 1 = [0]
  ∧ ¬ strictly_inside 1 (_auto_positions 1 1)
  ∧ _auto_positions 2 5 = [0; 1; 1; 1; 2]
  ∧ ¬ strictly_increasing (_auto_positions 2 5).
Proof.
  assert (_auto_positions 1 1 = [0]) as H1 by (vm_compute; reflexivity).
  assert (_auto_positions 2 5 = [0; 1; 1; 1; 2]) as H2 by (vm_compute; reflexivity).
  rewrite H1, H2. repeat split.
  - intros Hin. apply Forall_cons in Hin as [? _]. lia.
  - intros Hinc. specialize (Hinc 1%nat 2%nat 1 1). simpl in Hinc.
    assert (1 < 1); [|lia]. by apply Hinc; [lia|..].
Qed.

(** ** Binary64 rounding

    [binary_round_aux] rounds to the nearest binary64 value: in the normal
    range its result is within a relative error of [2^-53] of the rounded
    real.  Integer division, integer conversion and the product inherit
    the bound, and [Py.round] adds at most one half. *)

Lemma pow2_pos e : (0 < pow2 e)%R.
Proof. apply powerRZ_lt. lra. Qed.

Lemma pow2_add a b : pow2 (a + b) = (pow2 a * pow2 b)%R.
Proof. apply powerRZ_add. lra. Qed.

Lemma pow2_0 : pow2 0 = 1%R.
Proof. reflexivity. Qed.

Lemma pow2_1 : pow2 1 = 2%R.
Proof. unfold pow2. simpl. lra. Qed.

Lemma pow2_opp e : pow2 (- e) = (/ pow2 e)%R.
Proof. unfold pow2. rewrite powerRZ_neg'. reflexivity. Qed.

Lemma pow2_IZR e : 0 <= e -> pow2 e = IZR (2 ^ e).
Proof.
  intros He. unfold pow2. destruct e as [|p|p]; [reflexivity| |lia].
  simpl powerRZ. rewrite pow_IZR. by rewrite positive_nat_Z.
Qed.

Lemma pow2_le a b : a <= b -> (pow2 a <= pow2 b)%R.
Proof.
  intros Hab. replace b with (a + (b - a)) by lia. rewrite pow2_add.
  assert (1 <= pow2 (b - a))%R.
  { rewrite pow2_IZR by lia. apply IZR_le.
    assert (0 < 2 ^ (b - a)) by (apply Z.pow_pos_nonneg; lia). lia. }
  pose proof (pow2_pos a). nra.
Qed.

Lemma pow2_lt a b : a < b -> (pow2 a < pow2 b)%R.
Proof.
  intros Hab. replace b with (a + 1 + (b - a - 1)) by lia.
  rewrite !pow2_add, pow2_1.
  assert (1 <= pow2 (b - a - 1))%R.
  { rewrite pow2_IZR by lia. apply IZR_le.
    assert (0 < 2 ^ (b - a - 1)) by (apply Z.pow_pos_nonneg; lia). lia. }
  pose proof (pow2_pos a). nra.
Qed.

Lemma pow2_lt_inv a b : (pow2 a < pow2 b)%R -> a < b.
Proof.
  intros H. destruct (Z.lt_ge_cases a b) as [|Hge]; [done|].
  apply pow2_le in Hge. lra.
Qed.

Lemma Rabs_le_inv (a b : R) : (Rabs a <= b)%R -> (- b <= a <= b)%R.
Proof. unfold Rabs. destruct (Rcase_abs a); lra. Qed.

Lemma digits2_pos_bounds (p : positive) :
  2 ^ (Zpos (digits2_pos p) - 1) <= Zpos p < 2 ^ Zpos (digits2_pos p).
Proof.
  induction p as [p IH|p IH|]; simpl digits2_pos; [| |simpl; lia].
  - rewrite Pos2Z.inj_succ.
    replace (Z.succ (Zpos (digits2_pos p)) - 1) with (Zpos (digits2_pos p) - 1 + 1) by lia.
    rewrite Z.pow_succ_r by lia.
    assert (0 <= Zpos (digits2_pos p) - 1) by lia.
    rewrite Z.pow_add_r by lia. lia.
  - rewrite Pos2Z.inj_succ.
    replace (Z.succ (Zpos (digits2_pos p)) - 1) with (Zpos (digits2_pos p) - 1 + 1) by lia.
    rewrite Z.pow_succ_r by lia.
    assert (0 <= Zpos (digits2_pos p) - 1) by lia.
    rewrite Z.pow_add_r by lia. lia.
Qed.

Lemma located_bounds x m l : located x m l -> (IZR m <= x < IZR m + 1)%R.
Proof. destruct l as [|[| |]]; simpl; lra. Qed.

Lemma shr_1_eq (m : Z) (r s : bool) :
  0 <= m ->
  shr_1 {| shr_m := m; shr_r := r; shr_s := s |} =
  {| shr_m := m / 2; shr_r := Z.odd m; shr_s := r || s |}.
Proof.
  intros Hm. destruct m as [|[p|p|]|p]; try lia; simpl; try reflexivity.
  - f_equal. change (Zpos p~1) with (2 * Zpos p + 1).
    apply Z.div_unique with 1; lia.
  - f_equal. change (Zpos p~0) with (2 * Zpos p).
    apply Z.div_unique with 0; lia.
Qed.

Lemma shr_1_describes (x : R) (mrs : shr_record) :
  describes x mrs -> describes (x / 2) (shr_1 mrs).
Proof.
  destruct mrs as [m r s]. intros [Hm Hx]. simpl in Hm, Hx.
  assert (m = 2 * (m / 2) \/ m = 2 * (m / 2) + 1) as Hpar.
  { pose proof (Z.div_mod m 2). pose proof (Z.mod_pos_bound m 2). lia. }
  rewrite shr_1_eq by done. unfold describes. simpl shr_m.
  set (h := m / 2) in *.
  split; [destruct Hpar; lia|].
  destruct Hpar as [Hpar|Hpar].
  - assert (Z.odd m = false) as ->.
    { rewrite Hpar. by rewrite Z.odd_mul, Z.odd_2. }
    assert (IZR m = 2 * IZR h)%R as Hm2 by (rewrite Hpar at 1; by rewrite mult_IZR).
    destruct r, s; simpl in Hx |- *; rewrite Hm2 in Hx; lra.
  - assert (Z.odd m = true) as ->.
    { rewrite Hpar. rewrite Z.odd_add, Z.odd_mul, Z.odd_2. reflexivity. }
    assert (IZR m = 2 * IZR h + 1)%R as Hm2
      by (rewrite Hpar at 1; by rewrite plus_IZR, mult_IZR).
    destruct r, s; simpl in Hx |- *; rewrite Hm2 in Hx; lra.
Qed.

Lemma pow2_xO (n : positive) : pow2 (Zpos n~0) = (pow2 (Zpos n) * pow2 (Zpos n))%R.
Proof. rewrite <- pow2_add. f_equal. lia. Qed.

Lemma pow2_xI (n : positive) :
  pow2 (Zpos n~1) = (2 * (pow2 (Zpos n) * pow2 (Zpos n)))%R.
Proof. rewrite <- pow2_add, <- pow2_1, <- pow2_add. f_equal. lia. Qed.

Lemma iter_shr_1_describes (n : positive) :
  forall (x : R) (mrs : shr_record),
  describes x mrs ->
  describes (x / pow2 (Zpos n)) (SpecFloat.iter_pos shr_1 n mrs).
Proof.
  induction n as [n IH|n IH|]; intros x mrs Hx; simpl SpecFloat.iter_pos.
  - apply shr_1_describes, IH, IH in Hx.
    replace (x / pow2 (Zpos n~1))%R with (x / 2 / pow2 (Zpos n) / pow2 (Zpos n))%R;
      [done|].
    rewrite pow2_xI. pose proof (pow2_pos (Zpos n)). field. lra.
  - apply IH, IH in Hx.
    replace (x / pow2 (Zpos n~0))%R with (x / pow2 (Zpos n) / pow2 (Zpos n))%R;
      [done|].
    rewrite pow2_xO. pose proof (pow2_pos (Zpos n)). field. lra.
  - apply shr_1_describes in Hx. by rewrite pow2_1.
Qed.

(** Rounding the described real to the nearest integer, ties to even. *)
Lemma round_nearest_even_near (x : R) (m : Z) (l : location) :
  located x m l ->
  (Rabs (x - IZR (round_nearest_even m l)) <= / 2)%R
  ∧ m <= round_nearest_even m l <= m + 1.
Proof.
  intros Hx. destruct l as [|[| |]]; simpl in *.
  - split; [|lia]. rewrite Hx. unfold Rminus. rewrite Rplus_opp_r, Rabs_R0. lra.
  - destruct (Z.even m).
    + split; [|lia]. rewrite Hx. apply Rabs_le. lra.
    + split; [|lia]. rewrite Hx, plus_IZR. apply Rabs_le. lra.
  - split; [|lia]. apply Rabs_le. lra.
  - split; [|lia]. rewrite plus_IZR. apply Rabs_le. lra.
Qed.

Lemma located_describes x m l :
  0 <= m -> located x m l -> describes x (shr_record_of_loc m l).
Proof. intros Hm Hx. split; destruct l as [|[| |]]; done. Qed.

Lemma shr_describes (x : R) (mrs : shr_record) (e n : Z) :
  0 <= n -> describes x mrs ->
  (shr mrs e n).2 = e + n ∧ describes (x / pow2 n) (shr mrs e n).1.
Proof.
  intros Hn Hx. destruct n as [|p|p]; [| |lia]; unfold shr; cbn [fst snd].
  - split; [lia|]. rewrite pow2_0. by replace (x / 1)%R with x by field.
  - split; [done|]. by apply iter_shr_1_describes.
Qed.

Lemma Zdigits2_bounds (m : Z) :
  0 < m -> 2 ^ (Zdigits2 m - 1) <= m < 2 ^ Zdigits2 m.
Proof. destruct m as [|p|p]; try lia. intros _. apply digits2_pos_bounds. Qed.

Lemma Zdigits2_unique (m k : Z) :
  2 ^ (k - 1) <= m < 2 ^ k -> 0 < k -> Zdigits2 m = k.
Proof.
  intros [Hlo Hhi] Hk.
  assert (0 < m) as Hm.
  { assert (0 < 2 ^ (k - 1)) by (apply Z.pow_pos_nonneg; lia). lia. }
  pose proof (Zdigits2_bounds m Hm) as [Hlo' Hhi'].
  assert (0 < Zdigits2 m) by (destruct m; simpl; lia).
  assert (Zdigits2 m - 1 < k).
  { apply (Z.pow_lt_mono_r_iff 2); lia. }
  assert (k - 1 < Zdigits2 m).
  { apply (Z.pow_lt_mono_r_iff 2); lia. }
  lia.
Qed.

Lemma fexp_normal (e : Z) :
  -1074 <= e - 53 -> fexp prec emax e = e - 53.
Proof. unfold fexp, SpecFloat.emin, FloatOps.prec, emax. lia. Qed.

(** A positive real within the reach of [mx * 2^ex] has the magnitude of
    [mx]. *)
Lemma located_magnitude (x : R) (mx ex : Z) (lx : location) :
  0 < mx -> located (x / pow2 ex) mx lx ->
  (pow2 (Zdigits2 mx - 1 + ex) <= x < pow2 (Zdigits2 mx + ex))%R.
Proof.
  intros Hmx Hx. apply located_bounds in Hx.
  pose proof (Zdigits2_bounds mx Hmx) as [Hlo Hhi].
  assert (0 < Zdigits2 mx) by (destruct mx; simpl; lia).
  apply IZR_le in Hlo. rewrite <- pow2_IZR in Hlo by lia.
  assert (mx + 1 <= 2 ^ Zdigits2 mx) as Hhi' by lia.
  apply IZR_le in Hhi'. rewrite plus_IZR, <- pow2_IZR in Hhi' by lia.
  rewrite !pow2_add. pose proof (pow2_pos ex).
  assert (x = x / pow2 ex * pow2 ex)%R as Hxe by (field; lra).
  split.
  - rewrite Hxe. apply Rmult_le_compat_r; lra.
  - rewrite Hxe. apply Rmult_lt_compat_r; lra.
Qed.

Lemma normal53_valid (s : bool) (m : positive) (e : Z) :
  normal53 m e -> valid_binary (S754_finite s m e) = true.
Proof.
  intros [Hm He]. unfold SpecFloat.valid_binary, SpecFloat.bounded, SpecFloat.canonical_mantissa.
  pose proof (Zdigits2_unique (Zpos m) 53 ltac:(lia) ltac:(lia)) as Hd.
  simpl in Hd. rewrite Hd.
  rewrite fexp_normal by lia.
  apply andb_true_intro. split; [apply Z.eqb_eq; lia|].
  apply Z.leb_le. unfold emax, FloatOps.prec. lia.
Qed.

Lemma binary_round_aux_spec (sx : bool) (mx ex : Z) (lx : location) (x : R) :
  0 < mx ->
  located (x / pow2 ex) mx lx ->
  53 <= Zdigits2 mx ->
  -1074 <= Zdigits2 mx + ex - 53 ->
  Zdigits2 mx + ex <= 1023 ->
  exists (m : positive) (e : Z),
    binary_round_aux prec emax sx mx ex lx = S754_finite sx m e
    ∧ normal53 m e
    ∧ (Rabs (IZR (Zpos m) * pow2 e - x) <= pow2 (-53) * x)%R.
Proof.
  intros Hmx Hx Hd Hlo Hhi.
  set (d := Zdigits2 mx) in *. set (c := d + ex - 53).
  pose proof (located_magnitude x mx ex lx Hmx Hx) as Hmag. fold d in Hmag.
  unfold binary_round_aux, shr_fexp. fold d.
  rewrite (fexp_normal (d + ex)) by lia.
  replace (d + ex - 53 - ex) with (d - 53) by lia.
  assert (0 <= d - 53) as Hshift by lia.
  assert (0 <= mx) as Hmx0 by lia.
  pose proof (shr_describes (x / pow2 ex) (shr_record_of_loc mx lx) ex (d - 53)
                Hshift (located_describes _ _ _ Hmx0 Hx)) as [He' Hdesc].
  destruct (shr (shr_record_of_loc mx lx) ex (d - 53)) as [mrs' e'].
  simpl in He', Hdesc. replace (ex + (d - 53)) with c in He' by (unfold c; lia).
  subst e'.
  replace (x / pow2 ex / pow2 (d - 53))%R with (x / pow2 c)%R in Hdesc.
  2:{ unfold c. replace (d + ex - 53) with (ex + (d - 53)) by lia.
      rewrite pow2_add. pose proof (pow2_pos ex). pose proof (pow2_pos (d - 53)).
      field. lra. }
  destruct Hdesc as [Hm1 Hloc].
  set (y := (x / pow2 c)%R) in *.
  assert (pow2 52 <= y < pow2 53)%R as Hy.
  { unfold y. pose proof (pow2_pos c).
    replace (d - 1 + ex) with (52 + c) in Hmag by (unfold c; lia).
    replace (d + ex) with (53 + c) in Hmag by (unfold c; lia).
    rewrite !pow2_add in Hmag. split.
    - apply Rmult_le_reg_r with (pow2 c); [done|].
      replace (x / pow2 c * pow2 c)%R with x by (field; lra). lra.
    - apply Rmult_lt_reg_r with (pow2 c); [done|].
      replace (x / pow2 c * pow2 c)%R with x by (field; lra). lra. }
  pose proof (round_nearest_even_near y _ _ Hloc) as [Hnear Hz].
  set (z := round_nearest_even (shr_m mrs') (loc_of_shr_record mrs')) in *.
  assert (2 ^ 52 <= z <= 2 ^ 53) as Hzr.
  { pose proof (located_bounds _ _ _ Hloc) as [Hl Hu].
    rewrite !pow2_IZR in Hy by lia.
    assert (2 ^ 52 < shr_m mrs' + 1).
    { apply lt_IZR. rewrite plus_IZR. lra. }
    assert (shr_m mrs' < 2 ^ 53).
    { apply lt_IZR. lra. }
    lia. }
  assert (Rabs (IZR z * pow2 c - x) <= pow2 (-53) * x)%R as Herr.
  { pose proof (pow2_pos c) as Hc.
    replace (IZR z * pow2 c - x)%R with (- (y - IZR z) * pow2 c)%R
      by (unfold y; field; lra).
    rewrite Rabs_mult, Rabs_Ropp, (Rabs_pos_eq (pow2 c)) by lra.
    assert (pow2 (-53) * x = pow2 (-53) * y * pow2 c)%R as ->
      by (unfold y; field; lra).
    apply Rmult_le_compat_r; [lra|].
    assert (/ 2 <= pow2 (-53) * pow2 52)%R.
    { rewrite <- pow2_add. simpl Z.add. unfold pow2. simpl. lra. }
    pose proof (pow2_pos (-53)). nra. }
  destruct (Z.eq_dec z (2 ^ 53)) as [Hcarry|Hnocarry].
  - (* the mantissa overflowed to 2^53: one more shift, exact *)
    rewrite (Zdigits2_unique z 54) by lia.
    rewrite (fexp_normal (54 + c)) by (unfold c; lia).
    replace (54 + c - 53 - c) with 1 by lia.
    unfold shr. cbn [shr_record_of_loc SpecFloat.iter_pos fst snd].
    rewrite shr_1_eq by lia. cbn [shr_m].
    assert (z / 2 = Zpos 4503599627370496) as -> by (rewrite Hcarry; reflexivity).
    assert ((c + 1 <=? emax - prec) = true) as ->.
    { apply Z.leb_le. unfold c, emax, FloatOps.prec. lia. }
    eexists _, _. split; [reflexivity|]. split.
    + split; [lia|unfold c; lia].
    + replace (IZR (Zpos 4503599627370496) * pow2 (c + 1))%R
        with (IZR z * pow2 c)%R; [done|].
      rewrite pow2_add, pow2_1, Hcarry.
      change (2 ^ 53) with (4503599627370496 * 2). rewrite mult_IZR. lra.
  - rewrite (Zdigits2_unique z 53) by lia.
    rewrite (fexp_normal (53 + c)) by (unfold c; lia).
    replace (53 + c - 53 - c) with 0 by lia.
    unfold shr. simpl shr_record_of_loc. cbn [shr_m].
    destruct z as [|zp|zp]; try lia.
    assert ((c <=? emax - prec) = true) as ->.
    { apply Z.leb_le. unfold c, emax, FloatOps.prec. lia. }
    exists zp, c. split; [reflexivity|]. split; [|done].
    split; [lia|unfold c; lia].
Qed.

Lemma F2R_bounds (m : positive) (e : Z) :
  normal53 m e -> (pow2 (52 + e) <= F2R m e < pow2 (53 + e))%R.
Proof.
  intros [[Hlo Hhi] _]. unfold F2R. rewrite !pow2_add. pose proof (pow2_pos e).
  apply IZR_le in Hlo. apply IZR_lt in Hhi.
  rewrite <- !pow2_IZR in * by lia. nra.
Qed.

Lemma Zdigits2_lower (m k : Z) : 0 < m -> 2 ^ k <= m -> 0 <= k -> k + 1 <= Zdigits2 m.
Proof.
  intros Hm Hk Hk0. pose proof (Zdigits2_bounds m Hm) as [_ Hhi].
  assert (k < Zdigits2 m); [|lia].
  assert (0 < Zdigits2 m) by (destruct m; simpl; lia).
  apply (Z.pow_lt_mono_r_iff 2); lia.
Qed.

Lemma Zdigits2_upper (m k : Z) : 0 < m -> m < 2 ^ k -> 0 <= k -> Zdigits2 m <= k.
Proof.
  intros Hm Hk Hk0. pose proof (Zdigits2_bounds m Hm) as [Hlo _].
  assert (0 < Zdigits2 m) by (destruct m; simpl; lia).
  assert (Zdigits2 m - 1 < k); [|lia].
  apply (Z.pow_lt_mono_r_iff 2); lia.
Qed.

(** [float(k)] for a positive [int] below the overflow threshold. *)
Lemma binary_round_int_spec (k : positive) :
  Zpos k < 2 ^ 1023 ->
  exists (m : positive) (e : Z),
    binary_round prec emax false k 0 = S754_finite false m e
    ∧ normal53 m e
    ∧ (Rabs (F2R m e - IZR (Zpos k)) <= pow2 (-53) * IZR (Zpos k))%R.
Proof.
  intros Hk. unfold binary_round.
  change (Zpos (digits2_pos k)) with (Zdigits2 (Zpos k)).
  set (d := Zdigits2 (Zpos k)).
  assert (1 <= d <= 1023) as Hd.
  { split; [unfold d; simpl; lia|]. apply Zdigits2_upper; lia. }
  pose proof (Zdigits2_bounds (Zpos k) ltac:(lia)) as Hkb. fold d in Hkb.
  rewrite Z.add_0_r, fexp_normal by lia.
  unfold shl_align. rewrite Z.sub_0_r.
  destruct (d - 53) as [|t|t] eqn:Ht.
  - apply binary_round_aux_spec; try (fold d; lia).
    unfold located. rewrite pow2_0. field.
  - apply binary_round_aux_spec; try (fold d; lia).
    unfold located. rewrite pow2_0. field.
  - change (Pos.iter xO k t) with (shift_pos t k).
    assert (Zpos (shift_pos t k) = 2 ^ (53 - d) * Zpos k) as Hmz.
    { rewrite shift_pos_correct, Zpower_pos_nat, Zpower_nat_Z, positive_nat_Z.
      do 2 f_equal. lia. }
    assert (2 ^ 52 <= Zpos (shift_pos t k) < 2 ^ 53) as Hrange.
    { rewrite Hmz.
      replace 52 with ((53 - d) + (d - 1)) by lia.
      replace 53 with ((53 - d) + d) at 4 by lia.
      rewrite !Z.pow_add_r by lia.
      assert (0 < 2 ^ (53 - d)) by (apply Z.pow_pos_nonneg; lia). nia. }
    pose proof (Zdigits2_unique _ 53 Hrange ltac:(lia)) as Hdig.
    apply binary_round_aux_spec; try (rewrite Hdig; lia); [lia|].
    unfold located. rewrite Hmz, mult_IZR, <- pow2_IZR by lia.
    replace (Zneg t) with (- (53 - d)) by lia. rewrite pow2_opp.
    pose proof (pow2_pos (53 - d)). field. lra.
Qed.

Lemma SFmul_spec (m1 m2 : positive) (e1 e2 : Z) :
  normal53 m1 e1 -> normal53 m2 e2 -> -1126 <= e1 + e2 <= 917 ->
  exists (m : positive) (e : Z),
    SFmul prec emax (S754_finite false m1 e1) (S754_finite false m2 e2)
      = S754_finite false m e
    ∧ normal53 m e
    ∧ (Rabs (F2R m e - F2R m1 e1 * F2R m2 e2)
       <= pow2 (-53) * (F2R m1 e1 * F2R m2 e2))%R.
Proof.
  intros [H1 _] [H2 _] He. unfold SFmul. cbn [xorb].
  assert (2 ^ 104 <= Zpos (m1 * m2) < 2 ^ 106) as Hprod.
  { rewrite Pos2Z.inj_mul.
    change (2 ^ 104) with (2 ^ 52 * 2 ^ 52). change (2 ^ 106) with (2 ^ 53 * 2 ^ 53).
    nia. }
  assert (105 <= Zdigits2 (Zpos (m1 * m2)) <= 106) as Hd.
  { split; [apply (Zdigits2_lower _ 104)|apply Zdigits2_upper]; lia. }
  apply binary_round_aux_spec; try lia.
  unfold located, F2R. rewrite Pos2Z.inj_mul, mult_IZR, pow2_add.
  pose proof (pow2_pos e1). pose proof (pow2_pos e2). field. lra.
Qed.

Lemma new_location_located (b r q : Z) :
  0 < b -> 0 <= r < b ->
  located (IZR q + IZR r / IZR b) q (new_location b r).
Proof.
  intros Hb Hr.
  assert (0 < IZR b)%R as Hb' by (by apply IZR_lt).
  assert (0 <= IZR r < IZR b)%R as Hr' by (split; [apply IZR_le|apply IZR_lt]; lia).
  set (f := (IZR r / IZR b)%R).
  assert (IZR r = f * IZR b)%R as Hf by (unfold f; field; lra).
  assert (0 <= f < 1)%R as Hf01.
  { split.
    - apply Rmult_le_reg_r with (IZR b); [done|]. lra.
    - apply Rmult_lt_reg_r with (IZR b); [done|]. lra. }
  assert (r = 0 -> f = 0%R) as Hzero.
  { intros ->. unfold f. field. lra. }
  assert (r <> 0 -> (0 < f)%R) as Hpos.
  { intros Hne. assert (0 < IZR r)%R by (apply IZR_lt; lia).
    apply Rmult_lt_reg_r with (IZR b); [done|]. lra. }
  assert (2 * r < b -> (f < / 2)%R) as Hlt.
  { intros H. apply IZR_lt in H. rewrite mult_IZR in H.
    apply Rmult_lt_reg_r with (IZR b); [done|]. lra. }
  assert (2 * r = b -> f = (/ 2)%R) as Heq.
  { intros H. apply (f_equal IZR) in H. rewrite mult_IZR in H.
    apply Rmult_eq_reg_r with (IZR b); [|lra]. lra. }
  assert (b < 2 * r -> (/ 2 < f)%R) as Hgt.
  { intros H. apply IZR_lt in H. rewrite mult_IZR in H.
    apply Rmult_lt_reg_r with (IZR b); [done|]. lra. }
  unfold new_location. destruct (Z.even b) eqn:Heven.
  - unfold new_location_even. destruct (Z.eqb_spec r 0) as [Hr0|Hr0].
    + simpl. rewrite (Hzero Hr0). lra.
    + specialize (Hpos Hr0).
      destruct (Z.compare_spec (2 * r) b) as [H|H|H]; simpl.
      * rewrite (Heq H). lra.
      * specialize (Hlt H). lra.
      * specialize (Hgt H). lra.
  - unfold new_location_odd. destruct (Z.eqb_spec r 0) as [Hr0|Hr0].
    + simpl. rewrite (Hzero Hr0). lra.
    + specialize (Hpos Hr0).
      assert (2 * r <> b) as Hodd.
      { intros <-. rewrite Z.even_mul in Heven. done. }
      destruct (Z.compare_spec (2 * r + 1) b) as [H|H|H]; simpl.
      * assert (f < / 2)%R by (apply Hlt; lia). lra.
      * assert (f < / 2)%R by (apply Hlt; lia). lra.
      * assert (/ 2 < f)%R by (apply Hgt; lia). lra.
Qed.

(** [a / b] on two positive [int]s below 2^53. *)
Lemma SFdiv_int_spec (a b : positive) :
  Zpos a < 2 ^ 53 -> Zpos b < 2 ^ 53 ->
  exists (m : positive) (e : Z),
    SFdiv prec emax (S754_finite false a 0) (S754_finite false b 0)
      = S754_finite false m e
    ∧ normal53 m e
    ∧ (Rabs (F2R m e - IZR (Zpos a) / IZR (Zpos b))
       <= pow2 (-53) * (IZR (Zpos a) / IZR (Zpos b)))%R.
Proof.
  intros Ha Hb. unfold SFdiv, SFdiv_core_binary. cbn [xorb].
  set (d1 := Zdigits2 (Zpos a)). set (d2 := Zdigits2 (Zpos b)).
  pose proof (Zdigits2_bounds (Zpos a) ltac:(lia)) as Ha2. fold d1 in Ha2.
  pose proof (Zdigits2_bounds (Zpos b) ltac:(lia)) as Hb2. fold d2 in Hb2.
  assert (1 <= d1 <= 53) as Hd1.
  { split; [unfold d1; simpl; lia|]. apply Zdigits2_upper; lia. }
  assert (1 <= d2 <= 53) as Hd2.
  { split; [unfold d2; simpl; lia|]. apply Zdigits2_upper; lia. }
  rewrite !Z.add_0_r, fexp_normal by lia.
  rewrite Z.sub_0_r, Z.min_l by lia.
  set (e' := d1 - d2 - 53).
  replace (0 - e') with (53 + d2 - d1) by (unfold e'; lia).
  assert (match 53 + d2 - d1 with
          | Zpos _ => IntDef.Z.shiftl (Zpos a) (53 + d2 - d1)
          | 0 => Zpos a
          | Zneg _ => 0
          end = Zpos a * 2 ^ (53 + d2 - d1)) as ->.
  { destruct (53 + d2 - d1) eqn:E; try lia. rewrite <- E.
    change IntDef.Z.shiftl with Z.shiftl. apply Z.shiftl_mul_pow2. lia. }
  change IntDef.Z.div_eucl with Z.div_eucl.
  assert (Zpos b > 0) as Hbpos by lia.
  pose proof (Z_div_mod (Zpos a * 2 ^ (53 + d2 - d1)) (Zpos b) Hbpos) as Hdiv.
  destruct (Z.div_eucl (Zpos a * 2 ^ (53 + d2 - d1)) (Zpos b)) as [q r].
  destruct Hdiv as [Hqr Hr].
  assert (0 < 2 ^ (53 + d2 - d1)) as Hpow by (apply Z.pow_pos_nonneg; lia).
  assert (0 < 2 ^ (d2 - 1)) as Hpow2 by (apply Z.pow_pos_nonneg; lia).
  assert (2 ^ (d1 - 1) * 2 ^ (53 + d2 - d1) = 2 ^ 53 * 2 ^ (d2 - 1)) as Hlow.
  { rewrite <- !Z.pow_add_r by lia. f_equal. lia. }
  assert (2 ^ d1 * 2 ^ (53 + d2 - d1) = 2 ^ 54 * 2 ^ (d2 - 1)) as Hhigh.
  { rewrite <- !Z.pow_add_r by lia. f_equal. lia. }
  assert (2 ^ d2 = 2 * 2 ^ (d2 - 1)) as Hd2'.
  { rewrite <- (Z.pow_succ_r 2 (d2 - 1)) by lia. f_equal. lia. }
  rewrite Hd2' in Hb2.
  set (P := 2 ^ (53 + d2 - d1)) in *. set (B := 2 ^ (d2 - 1)) in *.
  set (A := 2 ^ (d1 - 1)) in *. set (A' := 2 ^ d1) in *.
  assert (2 ^ 52 <= q < 2 ^ 54) as Hq.
  { assert (2 ^ 53 * B <= Zpos a * P) by (rewrite <- Hlow; nia).
    assert (Zpos a * P < 2 ^ 54 * B) by (rewrite <- Hhigh; nia).
    change (2 ^ 53) with (2 * 2 ^ 52) in *.
    split; nia. }
  subst P B A A'.
  assert (53 <= Zdigits2 q <= 54) as Hdq.
  { split; [apply (Zdigits2_lower _ 52)|apply Zdigits2_upper]; lia. }
  apply binary_round_aux_spec; try (unfold e'; lia).
  replace (IZR (Zpos a) / IZR (Zpos b) / pow2 e')%R
    with (IZR q + IZR r / IZR (Zpos b))%R; [apply new_location_located; lia|].
  assert (0 < IZR (Zpos b))%R as Hb' by (apply IZR_lt; lia).
  apply (f_equal IZR) in Hqr. rewrite plus_IZR, !mult_IZR, <- pow2_IZR in Hqr by lia.
  replace e' with (- (53 + d2 - d1)) by (unfold e'; lia). rewrite pow2_opp.
  pose proof (pow2_pos (53 + d2 - d1)).
  apply Rmult_eq_reg_r with (IZR (Zpos b)); [|lra].
  replace ((IZR q + IZR r / IZR (Zpos b)) * IZR (Zpos b))%R
    with (IZR (Zpos b) * IZR q + IZR r)%R by (field; lra).
  rewrite <- Hqr. field. lra.
Qed.

Lemma float_of_int_spec (k : Z) :
  0 < k < 2 ^ 1023 ->
  exists (m : positive) (e : Z),
    Prim2SF (Py.float_of_int k) = S754_finite false m e
    ∧ normal53 m e
    ∧ (Rabs (F2R m e - IZR k) <= pow2 (-53) * IZR k)%R.
Proof.
  intros Hk. destruct k as [|p|p]; try lia.
  destruct (binary_round_int_spec p ltac:(lia)) as (m & e & Heq & Hn & Herr).
  exists m, e. split; [|done].
  unfold Py.float_of_int, binary_normalize. rewrite Heq.
  apply Prim2SF_SF2Prim. by apply normal53_valid.
Qed.

Lemma int_truediv_spec (a b : Z) :
  0 < a < 2 ^ 53 -> 0 < b < 2 ^ 53 ->
  exists (m : positive) (e : Z),
    Prim2SF (Py.int_truediv a b) = S754_finite false m e
    ∧ normal53 m e
    ∧ (Rabs (F2R m e - IZR a / IZR b) <= pow2 (-53) * (IZR a / IZR b))%R.
Proof.
  intros Ha Hb. destruct a as [|pa|pa]; try lia. destruct b as [|pb|pb]; try lia.
  destruct (SFdiv_int_spec pa pb ltac:(lia) ltac:(lia)) as (m & e & Heq & Hn & Herr).
  exists m, e. split; [|done].
  unfold Py.int_truediv, Py.int_as_SF. rewrite Heq.
  apply Prim2SF_SF2Prim. by apply normal53_valid.
Qed.

Lemma round_half_even_dyadic_near (m : positive) (e : Z) :
  (Rabs (F2R m e - IZR (Py.round_half_even_dyadic m e)) <= / 2)%R.
Proof.
  unfold Py.round_half_even_dyadic, F2R. destruct e as [|p|p].
  - rewrite Z.pow_0_r, Z.mul_1_r, pow2_0, Rmult_1_r.
    unfold Rminus. rewrite Rplus_opp_r, Rabs_R0. lra.
  - rewrite mult_IZR, <- pow2_IZR by lia.
    unfold Rminus. rewrite Rplus_opp_r, Rabs_R0. lra.
  - set (d := 2 ^ Zpos p).
    assert (0 < d) as Hd by (apply Z.pow_pos_nonneg; lia).
    pose proof (Z.div_mod (Zpos m) d ltac:(lia)) as Hqr.
    pose proof (Z.mod_pos_bound (Zpos m) d Hd) as Hr.
    set (q := Zpos m / d) in *. set (r := Zpos m mod d) in *.
    assert (0 < IZR d)%R as Hd' by (by apply IZR_lt).
    assert (IZR (Zpos m) * pow2 (Zneg p) = IZR q + IZR r / IZR d)%R as ->.
    { change (Zneg p) with (- Zpos p). rewrite pow2_opp, pow2_IZR by lia.
      fold d. rewrite Hqr at 1. rewrite plus_IZR, mult_IZR. field. lra. }
    set (f := (IZR r / IZR d)%R).
    assert (IZR r = f * IZR d)%R as Hf by (unfold f; field; lra).
    destruct (Z.compare_spec (2 * r) d) as [H|H|H].
    + assert (f = / 2)%R as Hhalf.
      { apply (f_equal IZR) in H. rewrite mult_IZR in H.
        apply Rmult_eq_reg_r with (IZR d); lra. }
      destruct (Z.even q).
      * apply Rabs_le. lra.
      * rewrite plus_IZR. apply Rabs_le. lra.
    + assert (0 <= f < / 2)%R.
      { apply IZR_lt in H. rewrite mult_IZR in H.
        assert (0 <= IZR r)%R by (apply IZR_le; lia).
        split; apply Rmult_le_reg_r with (IZR d) || apply Rmult_lt_reg_r with (IZR d);
          lra. }
      apply Rabs_le. lra.
    + assert (/ 2 < f < 1)%R.
      { apply IZR_lt in H. rewrite mult_IZR in H.
        assert (IZR r < IZR d)%R by (apply IZR_lt; lia).
        split; apply Rmult_lt_reg_r with (IZR d); lra. }
      rewrite plus_IZR. apply Rabs_le. lra.
Qed.

Lemma relative_error_bounds (x X : R) :
  (0 < X)%R -> (Rabs (x - X) <= pow2 (-53) * X)%R ->
  (X * (1 - pow2 (-53)) <= x <= X * (1 + pow2 (-53)))%R.
Proof.
  intros HX Herr. apply Rabs_le_inv in Herr. lra.
Qed.

Lemma pow2_m53_small : (0 < pow2 (-53) <= / 8)%R.
Proof.
  split; [apply pow2_pos|].
  change (-53) with (- (53)). rewrite pow2_opp, pow2_IZR by lia.
  apply Rinv_le_contravar; [lra|]. apply IZR_le. lia.
Qed.

(** Three roundings in a row stay within four units of relative error. *)
Lemma three_roundings (u s k Fs Fk Fp : R) :
  (0 < u <= / 8)%R -> (0 < s)%R -> (0 < k)%R ->
  (s * (1 - u) <= Fs <= s * (1 + u))%R ->
  (k * (1 - u) <= Fk <= k * (1 + u))%R ->
  (Fs * Fk * (1 - u) <= Fp <= Fs * Fk * (1 + u))%R ->
  (Rabs (Fp - s * k) <= 4 * u * (s * k))%R.
Proof.
  intros Hu Hs Hk HFs HFk HFp.
  assert (0 < Fs)%R by nra. assert (0 < Fk)%R by nra.
  assert (s * k * ((1 - u) * (1 - u)) <= Fs * Fk)%R as Hlo.
  { replace (s * k * ((1 - u) * (1 - u)))%R with ((s * (1 - u)) * (k * (1 - u)))%R by ring.
    apply Rmult_le_compat; nra. }
  assert (Fs * Fk <= s * k * ((1 + u) * (1 + u)))%R as Hhi.
  { replace (s * k * ((1 + u) * (1 + u)))%R with ((s * (1 + u)) * (k * (1 + u)))%R by ring.
    apply Rmult_le_compat; nra. }
  assert (0 < s * k)%R as Hsk by nra.
  set (X := (s * k)%R) in *. set (T := (Fs * Fk)%R) in *.
  assert ((1 + u) * (1 + u) * (1 + u) <= 1 + 4 * u)%R as Hup by nra.
  assert (1 - 4 * u <= (1 - u) * (1 - u) * (1 - u))%R as Hdown by nra.
  assert (Fp <= X * ((1 + u) * (1 + u) * (1 + u)))%R.
  { apply Rle_trans with (T * (1 + u))%R; [lra|].
    replace (X * ((1 + u) * (1 + u) * (1 + u)))%R
      with (X * ((1 + u) * (1 + u)) * (1 + u))%R by ring.
    apply Rmult_le_compat_r; lra. }
  assert (X * ((1 - u) * (1 - u) * (1 - u)) <= Fp)%R.
  { apply Rle_trans with (T * (1 - u))%R; [|lra].
    replace (X * ((1 - u) * (1 - u) * (1 - u)))%R
      with (X * ((1 - u) * (1 - u)) * (1 - u))%R by ring.
    apply Rmult_le_compat_r; lra. }
  apply Rabs_le. split; nra.
Qed.

Lemma normal53_exponent (m : positive) (e lo hi : Z) :
  normal53 m e -> (pow2 lo <= F2R m e < pow2 hi)%R -> lo - 53 < e < hi - 52.
Proof.
  intros Hn [Hlo Hhi]. pose proof (F2R_bounds m e Hn) as [Hl Hu].
  assert (lo < 53 + e) by (apply pow2_lt_inv; lra).
  assert (52 + e < hi) by (apply pow2_lt_inv; lra).
  lia.
Qed.

(** The position computed for the line number [k] (counted from 1) is
    within one half of the exact quotient [L * k / (N + 1)]. *)
Lemma position_near_exact (L N k : Z) :
  0 < L -> 0 < N -> L * (N + 1) < 2 ^ 50 -> 1 <= k <= N ->
  let p := Py.round (Py.int_truediv L (N + 1) * Py.float_of_int k)%float in
  Z.abs (2 * L * k - 2 * p * (N + 1)) <= N + 1.
Proof.
  intros HL HN Hsmall Hk p.
  assert (L < 2 ^ 50 ∧ N + 1 < 2 ^ 50) as [HL50 HN50] by (split; nia).
  destruct (int_truediv_spec L (N + 1) ltac:(lia) ltac:(lia))
    as (ms & es & Hs & Hsn & Hserr).
  destruct (float_of_int_spec k ltac:(lia)) as (mk & ek & Hfk & Hkn & Hkerr).
  assert (0 < IZR L)%R as HLr by (apply IZR_lt; lia).
  assert (0 < IZR (N + 1))%R as HNr by (apply IZR_lt; lia).
  assert (0 < IZR k)%R as Hkr by (apply IZR_lt; lia).
  assert (IZR k <= IZR N)%R as HkN by (apply IZR_le; lia).
  assert (IZR (N + 1) = IZR N + 1)%R as HN1 by (by rewrite plus_IZR).
  set (s := (IZR L / IZR (N + 1))%R) in *.
  assert (0 < s)%R as Hspos by (unfold s; apply Rdiv_lt_0_compat; lra).
  assert (s * IZR (N + 1) = IZR L)%R as Hsdef by (unfold s; field; lra).
  pose proof pow2_m53_small as Hu. set (u := pow2 (-53)) in *.
  pose proof (relative_error_bounds _ _ Hspos Hserr) as HFs.
  pose proof (relative_error_bounds _ _ Hkr Hkerr) as HFk.
  fold u in HFs, HFk.
  (* magnitudes, for the exponents of the product *)
  assert (IZR L < pow2 50)%R as HL2 by (rewrite pow2_IZR by lia; apply IZR_lt; lia).
  assert (IZR (N + 1) < pow2 50)%R as HN2
    by (rewrite pow2_IZR by lia; apply IZR_lt; lia).
  assert (pow2 (-50) < s <= IZR L)%R as Hsr.
  { split.
    - apply Rmult_lt_reg_r with (IZR (N + 1)); [done|]. rewrite Hsdef.
      assert (pow2 (-50) * pow2 50 = 1)%R by (rewrite <- pow2_add; apply pow2_0).
      assert (1 <= IZR L)%R by (apply IZR_le; lia).
      pose proof (pow2_pos (-50)). nra.
    - assert (1 <= IZR (N + 1))%R by (apply IZR_le; lia). nra. }
  assert (pow2 (-51) <= F2R ms es < pow2 51)%R as HFsr.
  { assert (pow2 (-50) = 2 * pow2 (-51))%R
      by (rewrite <- pow2_1, <- pow2_add; f_equal).
    assert (pow2 51 = 2 * pow2 50)%R by (rewrite <- pow2_1, <- pow2_add; f_equal).
    assert (0 <= s * u <= s / 8)%R by nra.
    pose proof (pow2_pos (-51)). split; lra. }
  assert (pow2 (-1) <= F2R mk ek < pow2 51)%R as HFkr.
  { assert (pow2 (-1) = / 2)%R by (unfold pow2; simpl; lra).
    assert (pow2 51 = 2 * pow2 50)%R by (rewrite <- pow2_1, <- pow2_add; f_equal).
    assert (1 <= IZR k)%R by (apply IZR_le; lia).
    assert (0 <= IZR k * u <= IZR k / 8)%R by nra.
    split; lra. }
  pose proof (normal53_exponent _ _ _ _ Hsn HFsr) as Hes.
  pose proof (normal53_exponent _ _ _ _ Hkn HFkr) as Hek.
  destruct (SFmul_spec ms mk es ek Hsn Hkn ltac:(lia)) as (mp & ep & Hp & Hpn & Hperr).
  assert (p = Py.round_half_even_dyadic mp ep) as Hpdef.
  { unfold p, Py.round. rewrite mul_spec, Hs, Hfk.
    change SF64mul with (SFmul prec emax). by rewrite Hp. }
  pose proof (round_half_even_dyadic_near mp ep) as Hround. rewrite <- Hpdef in Hround.
  assert (0 < F2R ms es * F2R mk ek)%R as Hprod.
  { pose proof (pow2_pos (-51)). pose proof (pow2_pos (-1)).
    apply Rmult_lt_0_compat; lra. }
  pose proof (relative_error_bounds _ _ Hprod Hperr) as HFp. fold u in HFp.
  pose proof (three_roundings u s (IZR k) _ _ _ Hu Hspos Hkr HFs HFk HFp) as Hthree.
  (* to integers *)
  assert (s * IZR k <= IZR L)%R as HX.
  { apply Rmult_le_reg_r with (IZR (N + 1)); [done|].
    replace (s * IZR k * IZR (N + 1))%R with (IZR L * IZR k)%R by (rewrite <- Hsdef; ring).
    nra. }
  assert (Rabs (IZR p - s * IZR k) <= / 2 + 4 * u * IZR L)%R as Hdist.
  { apply Rabs_le_inv in Hround. apply Rabs_le_inv in Hthree.
    apply Rabs_le. nra. }
  assert (8 * u * (IZR L * IZR (N + 1)) < 1)%R as Htiny.
  { assert (IZR L * IZR (N + 1) < pow2 50)%R.
    { rewrite <- mult_IZR, pow2_IZR by lia. by apply IZR_lt. }
    assert (8 * u * pow2 50 = 1)%R.
    { unfold u. replace 8%R with (pow2 3) by (unfold pow2; simpl; lra).
      rewrite <- !pow2_add. apply pow2_0. }
    nra. }
  assert (Rabs (IZR (2 * L * k - 2 * p * (N + 1))) < IZR (N + 1) + 1)%R as Hint.
  { rewrite minus_IZR, !mult_IZR.
    replace (2 * IZR L * IZR k - 2 * IZR p * IZR (N + 1))%R
      with (- (2 * IZR (N + 1) * (IZR p - s * IZR k)))%R
      by (rewrite <- Hsdef; ring).
    rewrite Rabs_Ropp, Rabs_mult, (Rabs_pos_eq (2 * IZR (N + 1))) by lra.
    apply Rle_lt_trans with (2 * IZR (N + 1) * (/ 2 + 4 * u * IZR L))%R.
    - apply Rmult_le_compat_l; lra.
    - nra. }
  rewrite <- abs_IZR, <- plus_IZR in Hint. apply lt_IZR in Hint. lia.
Qed.

Lemma auto_positions_length (L N : Z) :
  length (_auto_positions L N) = Z.to_nat N.
Proof.
  unfold _auto_positions, Py.range. destruct (Z.leb_spec N 0).
  - simpl. lia.
  - by rewrite !length_fmap, length_seq.
Qed.

Lemma auto_positions_lookup (L N : Z) (i : nat) :
  Z.of_nat i < N -> _auto_positions L N !! i = Some (grid_position L N i).
Proof.
  intros Hi. unfold _auto_positions, Py.range.
  destruct (Z.leb_spec N 0); [lia|].
  rewrite !list_lookup_fmap. rewrite lookup_seq_lt by lia. reflexivity.
Qed.

Lemma auto_positions_lookup_inv (L N : Z) (i : nat) (p : Z) :
  _auto_positions L N !! i = Some p ->
  Z.of_nat i < N ∧ p = grid_position L N i.
Proof.
  intros Hp. pose proof (lookup_lt_Some _ _ _ Hp) as Hlt.
  rewrite auto_positions_length in Hlt.
  assert (Z.of_nat i < N) as Hi by lia. split; [done|].
  rewrite auto_positions_lookup in Hp by done. congruence.
Qed.

Lemma grid_position_near (L N : Z) (i : nat) :
  0 < L -> 0 < N -> L * (N + 1) < 2 ^ 50 -> Z.of_nat i < N ->
  Z.abs (2 * L * (Z.of_nat i + 1) - 2 * grid_position L N i * (N + 1)) <= N + 1.
Proof.
  intros HL HN Hsmall Hi. apply (position_near_exact L N (Z.of_nat i + 1)); lia.
Qed.

(** C4, amended.  Grid placement returns the empty list when [N <= 0], and
    otherwise exactly [N] integer positions, position [i] (0-indexed) being
    [round(L / (N + 1) * (i + 1))] in binary64 with ties to even.  For
    [L > 0] and [L * (N + 1) < 2^50] every position is within one half of
    the exact [L * (i + 1) / (N + 1)], the positions lie between 0 and [L]
    inclusive and never decrease; when moreover [N < L] they lie strictly
    between 0 and [L] and are strictly increasing. *)
Theorem C4_positions_rounded_and_ordered (L N : Z) :
  (N <= 0 -> _auto_positions L N = [])
  ∧ (0 < N -> length (_auto_positions L N) = Z.to_nat N)
  ∧ (∀ i : nat, Z.of_nat i < N ->
       _auto_positions L N !! i = Some (grid_position L N i))
  ∧ (0 < L -> 0 < N -> L * (N + 1) < 2 ^ 50 ->
       evenly_spaced L N (_auto_positions L N)
       ∧ Forall (fun p => 0 <= p <= L) (_auto_positions L N)
       ∧ non_decreasing (_auto_positions L N)
       ∧ (N < L ->
            strictly_inside L (_auto_positions L N)
            ∧ strictly_increasing (_auto_positions L N))).
Proof.
  split; [|split; [|split]].
  - intros HN. unfold _auto_positions. by destruct (Z.leb_spec N 0); [|lia].
  - intros _. apply auto_positions_length.
  - apply auto_positions_lookup.
  - intros HL HN Hsmall.
    assert (∀ (i : nat) (p : Z), _auto_positions L N !! i = Some p ->
              Z.of_nat i < N ∧
              Z.abs (2 * L * (Z.of_nat i + 1) - 2 * p * (N + 1)) <= N + 1) as Hnear.
    { intros i p Hp. apply auto_positions_lookup_inv in Hp as [Hi ->].
      split; [done|]. by apply grid_position_near. }
    split; [intros i p Hp; by apply Hnear in Hp as [_ Hp]|].
    split; [|split; [|intros HNL; split]].
    + apply Forall_lookup. intros i p Hp. apply Hnear in Hp as [Hi Hp].
      apply Z.abs_le in Hp.
      assert (0 <= L * Z.of_nat i <= L * (N - 1)) by nia.
      split.
      * destruct (Z.le_gt_cases 0 p); [done|].
        assert (p * (N + 1) <= - (N + 1)) by nia. lia.
      * destruct (Z.le_gt_cases p L); [done|].
        assert ((L + 1) * (N + 1) <= p * (N + 1)) by nia. lia.
    + intros i j p q Hij Hp Hq.
      apply Hnear in Hp as [Hi Hp]. apply Hnear in Hq as [Hj Hq].
      apply Z.abs_le in Hp. apply Z.abs_le in Hq.
      assert (L * Z.of_nat i + L <= L * Z.of_nat j) by nia.
      destruct (Z.le_gt_cases p q); [done|].
      assert (q * (N + 1) + (N + 1) <= p * (N + 1)) by nia. lia.
    + apply Forall_lookup. intros i p Hp. apply Hnear in Hp as [Hi Hp].
      apply Z.abs_le in Hp.
      assert (0 <= L * Z.of_nat i <= L * (N - 1)) by nia.
      split.
      * destruct (Z.lt_ge_cases 0 p); [done|].
        assert (p * (N + 1) <= 0) by nia. lia.
      * destruct (Z.lt_ge_cases p L); [done|].
        assert (L * (N + 1) <= p * (N + 1)) by nia. lia.
    + intros i j p q Hij Hp Hq.
      apply Hnear in Hp as [Hi Hp]. apply Hnear in Hq as [Hj Hq].
      apply Z.abs_le in Hp. apply Z.abs_le in Hq.
      assert (L * Z.of_nat i + L <= L * Z.of_nat j) by nia.
      destruct (Z.lt_ge_cases p q); [done|].
      assert (q * (N + 1) <= p * (N + 1)) by nia.
      assert (L = N + 1) as HLN by lia.
      (* the step is exactly one: both positions are the line numbers *)
      subst L.
      assert (p = Z.of_nat i + 1) by nia.
      assert (q = Z.of_nat j + 1) by nia. lia.
Qed.

Lemma C4_positions_rounded_and_ordered_witness :
  strictly_inside 480 (_auto_positions 480 7)
  ∧ strictly_increasing (_auto_positions 480 7).
Proof.
  apply (C4_positions_rounded_and_ordered 480 7); lia.
Defined.

(** ** Segmentation *)

Lemma mask_included_count (small large : list (list Z)) :
  mask_included small large -> (tissue_count small <= tissue_count large)%nat.
Proof.
  intros Hinc. unfold tissue_count. apply filter_length_Forall2.
  induction Hinc as [|row row' rest rest' Hrow _ IH]; [constructor|].
  simpl. by apply Forall2_app.
Qed.

Section Segmentation.
Context `{backend : Backend}.

Lemma removal_pixelwise (ar : list (list bool)) (area : Z) :
  (if 0 <? area then remove_small_objects ar area else ar) =
  imap (fun r row => imap (fun c v => kept ar area r c v) row) ar.
Proof.
  unfold kept, remove_small_objects. destruct (Z.ltb_spec 0 area) as [Hpos|Hle].
  - destruct (Z.eqb_spec area 0); [lia|done].
  - symmetry. etrans; [|apply imap_id].
    apply imap_ext. intros r row _. simpl. apply imap_id.
Qed.

Lemma kept_antitone ar (a b : Z) r c v :
  a <= b -> kept ar b r c v = true -> kept ar a r c v = true.
Proof.
  unfold kept. intros Hab.
  destruct (Z.ltb_spec 0 b), (Z.ltb_spec 0 a); try lia; try done.
  - destruct (Z.ltb_spec (Z.of_nat (bincount (ndi_label ar)
                (default 0%nat (ndi_label ar !! r ≫= (.!! c))))) b); [done|].
    intros ->.
    destruct (Z.ltb_spec (Z.of_nat (bincount (ndi_label ar)
                (default 0%nat (ndi_label ar !! r ≫= (.!! c))))) a); [lia|done].
  - by destruct (_ <? b).
Qed.

Lemma tissue_mask_shrinks image config (a b : Z) :
  a <= b ->
  mask_included
    (astype_uint8 (tissue_mask_of image (with_min_area config b)))
    (astype_uint8 (tissue_mask_of image (with_min_area config a))).
Proof.
  intros Hab. unfold tissue_mask_of. simpl.
  set (gray := if (0 <? sigma_denoise config)%float then _ else _).
  set (ar := below_threshold gray (threshold_otsu gray)).
  rewrite !removal_pixelwise. unfold astype_uint8, mask_included.
  apply Forall2_fmap. apply Forall2_imap_same. intros r row _.
  apply Forall2_fmap. apply Forall2_imap_same. intros c v _.
  pose proof (kept_antitone ar a b r c v Hab) as Hk.
  destruct (kept ar b r c v); [|done]. by rewrite Hk.
Qed.

(** C6.  With the image and every other setting fixed, a larger
    [min_area] gives a mask of the same shape whose tissue pixels are
    among those of the mask for the smaller [min_area], hence at most as
    many tissue pixels; an unreadable image fails alike for both. *)
Theorem C6_min_area_only_shrinks path config w (a b : Z) :
  a <= b ->
  match _load_image_and_mask path (with_min_area config a) w,
        _load_image_and_mask path (with_min_area config b) w with
  | (Ok (_, mask_a), _), (Ok (_, mask_b), _) =>
      mask_included mask_b mask_a ∧ (tissue_count mask_b <= tissue_count mask_a)%nat
  | (Raise error_a, _), (Raise error_b, _) => error_a = error_b
  | _, _ => False
  end.
Proof.
  intros Hab. unfold _load_image_and_mask.
  destruct (cv2_imread w path) as [image|]; [|done].
  pose proof (tissue_mask_shrinks image config a b Hab) as Hinc.
  split; [done|]. by apply mask_included_count.
Qed.

End Segmentation.

Lemma C6_min_area_only_shrinks_witness :
  3 <= 9 ∧
  match @_load_image_and_mask (Reference.backend Reference.raw_codec)
          "/data/block.png" (with_min_area Reference.config 3) Reference.files,
        @_load_image_and_mask (Reference.backend Reference.raw_codec)
          "/data/block.png" (with_min_area Reference.config 9) Reference.files with
  | (Ok (_, mask_a), _), (Ok (_, mask_b), _) =>
      mask_included mask_b mask_a ∧ (tissue_count mask_b <= tissue_count mask_a)%nat
  | (Raise error_a, _), (Raise error_b, _) => error_a = error_b
  | _, _ => False
  end.
Proof.
  split; [lia|].
  apply (@C6_min_area_only_shrinks (Reference.backend Reference.raw_codec)
           "/data/block.png" Reference.config Reference.files 3 9).
  lia.
Defined.

(** ** The orchestrator *)

Section Orchestrator.
Context `{backend : Backend}.

Lemma run_mli_analysis_world path config w :
  (run_mli_analysis path config w).2 = w.
Proof.
  unfold run_mli_analysis, _load_image_and_mask.
  by destruct (cv2_imread w path).
Qed.

Lemma run_mli_analysis_loaded path config w image :
  cv2_imread w path = Some image ->
  run_mli_analysis path config w =
    (analyse_mask image (astype_uint8 (tissue_mask_of image config)) config, w).
Proof.
  intros Hread. unfold run_mli_analysis, _load_image_and_mask. by rewrite Hread.
Qed.

Lemma run_mli_analysis_unreadable path config w :
  cv2_imread w path = None ->
  run_mli_analysis path config w =
    (Raise (ImageProcessingError ("Unable to read image at " +:+ path)), w).
Proof.
  intros Hread. unfold run_mli_analysis, _load_image_and_mask. by rewrite Hread.
Qed.

Lemma assemble_ok o t hd vd metrics :
  assemble o t hd vd = Ok metrics ->
  ∃ buffer_o buffer_t,
    cv2_imencode_png o = Some buffer_o ∧ cv2_imencode_png t = Some buffer_t ∧
    metrics = {| lines := build_lines hd vd;
                 average_mli_um := average_mli np_mean (build_lines hd vd);
                 processed_image_base64 := b64encode buffer_o;
                 threshold_image_base64 := b64encode buffer_t |}.
Proof.
  unfold assemble, _encode_image_to_base64.
  destruct (cv2_imencode_png o) as [bo|]; [|done].
  destruct (cv2_imencode_png t) as [bt|]; [|done].
  simpl. intros [= <-]. by exists bo, bt.
Qed.

Lemma assemble_encode_failure o t hd vd :
  cv2_imencode_png o = None ∨ cv2_imencode_png t = None ->
  assemble o t hd vd =
    Raise (ImageProcessingError "Unable to encode processed image to PNG").
Proof.
  unfold assemble, _encode_image_to_base64.
  intros [-> | Ht]; [done|]. rewrite Ht.
  by destruct (cv2_imencode_png o).
Qed.

(** C7.  When the source image cannot be read or decoded, and when either
    overlay cannot be encoded, the run ends in a single
    [ImageProcessingError] that carries a readable cause; a run that
    returns metrics has read the image and encoded both overlays, so no
    partial result is ever returned. *)
Theorem C7_read_and_encode_failures_abort path config w :
  (cv2_imread w path = None ->
   run_mli_analysis path config w =
     (Raise (ImageProcessingError ("Unable to read image at " +:+ path)), w))
  ∧ (∀ image o t hd vd,
       cv2_imread w path = Some image ->
       measure_grid image (astype_uint8 (tissue_mask_of image config)) config
         = Ok (o, t, hd, vd) ->
       cv2_imencode_png o = None ∨ cv2_imencode_png t = None ->
       run_mli_analysis path config w =
         (Raise (ImageProcessingError "Unable to encode processed image to PNG"), w))
  ∧ (∀ metrics,
       (run_mli_analysis path config w).1 = Ok metrics ->
       ∃ image o t hd vd buffer_o buffer_t,
         cv2_imread w path = Some image ∧
         measure_grid image (astype_uint8 (tissue_mask_of image config)) config
           = Ok (o, t, hd, vd) ∧
         cv2_imencode_png o = Some buffer_o ∧
         cv2_imencode_png t = Some buffer_t ∧
         metrics = {| lines := build_lines hd vd;
                      average_mli_um := average_mli np_mean (build_lines hd vd);
                      processed_image_base64 := b64encode buffer_o;
                      threshold_image_base64 := b64encode buffer_t |}).
Proof.
  split; [apply run_mli_analysis_unreadable|]. split.
  - intros image o t hd vd Hread Hgrid Henc.
    rewrite (run_mli_analysis_loaded _ _ _ _ Hread). f_equal.
    unfold analyse_mask. rewrite Hgrid. simpl.
    by apply assemble_encode_failure.
  - intros metrics Hrun.
    destruct (cv2_imread w path) as [image|] eqn:Hread.
    + rewrite (run_mli_analysis_loaded _ _ _ _ Hread) in Hrun. simpl in Hrun.
      unfold analyse_mask in Hrun.
      destruct (measure_grid _ _ _) as [[[[o t] hd] vd]|] eqn:Hgrid; [|done].
      simpl in Hrun. apply assemble_ok in Hrun as (bo & bt & Ho & Ht & ->).
      by exists image, o, t, hd, vd, bo, bt.
    + by rewrite (run_mli_analysis_unreadable _ _ _ Hread) in Hrun.
Qed.

(** C10.  Two configurations that differ only in [scale_um_per_pixel] and
    [magnification] give the same run: the same rows, the same average
    MLI and the same encoded overlays, or the same exception. *)
Theorem C10_scale_and_magnification_unused path (c1 c2 : AnalysisConfigData) w :
  agree_up_to_scale c1 c2 ->
  run_mli_analysis path c1 w = run_mli_analysis path c2 w.
Proof.
  destruct c1, c2. unfold agree_up_to_scale. simpl.
  intros (-> & -> & -> & -> & -> & ->). reflexivity.
Qed.

End Orchestrator.

Lemma C7_read_and_encode_failures_abort_witness :
  @cv2_imread (Reference.backend Reference.no_codec) Reference.files "/data/notes.txt"
    = None
  ∧ @run_mli_analysis (Reference.backend Reference.no_codec)
      "/data/notes.txt" Reference.config Reference.files
    = (Raise (ImageProcessingError "Unable to read image at /data/notes.txt"),
       Reference.files)
  ∧ @run_mli_analysis (Reference.backend Reference.no_codec)
      "/data/block.png" Reference.config Reference.files
    = (Raise (ImageProcessingError "Unable to encode processed image to PNG"),
       Reference.files).
Proof.
  split; [reflexivity|]. split.
  - apply (@C7_read_and_encode_failures_abort (Reference.backend Reference.no_codec)
             "/data/notes.txt" Reference.config Reference.files).
    reflexivity.
  - eapply (proj1 (proj2 (@C7_read_and_encode_failures_abort
                            (Reference.backend Reference.no_codec)
                            "/data/block.png" Reference.config Reference.files))).
    + reflexivity.
    + vm_compute. reflexivity.
    + left. reflexivity.
Defined.

Lemma C10_scale_and_magnification_unused_witness :
  agree_up_to_scale Reference.config
    {| scale_um_per_pixel := 0.25;
       line_length_um_horizontal := 100;
       line_length_um_vertical := 50;
       n_lines_horizontal := 3;
       n_lines_vertical := 1;
       sigma_denoise := 0;
       min_area := 0;
       magnification := "40x" |}
  ∧ @run_mli_analysis (Reference.backend Reference.raw_codec)
      "/data/block.png" Reference.config Reference.files
    = @run_mli_analysis (Reference.backend Reference.raw_codec)
        "/data/block.png"
        {| scale_um_per_pixel := 0.25;
           line_length_um_horizontal := 100;
           line_length_um_vertical := 50;
           n_lines_horizontal := 3;
           n_lines_vertical := 1;
           sigma_denoise := 0;
           min_area := 0;
           magnification := "40x" |}
        Reference.files.
Proof.
  assert (agree_up_to_scale Reference.config
    {| scale_um_per_pixel := 0.25;
       line_length_um_horizontal := 100;
       line_length_um_vertical := 50;
       n_lines_horizontal := 3;
       n_lines_vertical := 1;
       sigma_denoise := 0;
       min_area := 0;
       magnification := "40x" |}) as Hagree.
  { repeat split. }
  split; [exact Hagree|].
  apply (@C10_scale_and_magnification_unused (Reference.backend Reference.raw_codec)).
  exact Hagree.
Defined.

(** ** Runs in one process *)

Section Runs.
Context `{backend : Backend}.

Lemma bind_returns {A B} (m : InPlace.Proc A) (k : A -> InPlace.Proc B) p a p' :
  m p = Some (Ok a, p') -> (m ≫= k) p = k a p'.
Proof. intros Hm. unfold mbind, InPlace.Proc_bind. by rewrite Hm. Qed.

Lemma bind_raises {A B} (m : InPlace.Proc A) (k : A -> InPlace.Proc B) p e p' :
  m p = Some (Raise e, p') -> (m ≫= k) p = Some (Raise e, p').
Proof. intros Hm. unfold mbind, InPlace.Proc_bind. by rewrite Hm. Qed.

Section Running.
Variables (w : World) (before : list InPlace.Object) (image : Image).
Variables (mask mask_visual : Gray).
Variables (config : nat) (c : AnalysisConfigData).
Hypothesis Hconfig : before !! config = Some (InPlace.Config c).

Local Abbreviation state :=
  (InPlace.running w before image mask mask_visual) (only parsing).
Local Abbreviation here := (length before) (only parsing).

Lemma config_at_running o t :
  InPlace.config_at config (state o t) = Some (Ok c, state o t).
Proof.
  unfold InPlace.config_at, InPlace.running. simpl.
  by rewrite (lookup_app_l_Some _ _ _ _ Hconfig).
Qed.

Lemma grey_at_mask o t :
  InPlace.grey_at (here + 1) (state o t) = Some (Ok mask, state o t).
Proof.
  unfold InPlace.grey_at, InPlace.running. simpl.
  rewrite lookup_app_r by lia.
  by replace (length before + 1 - length before)%nat with 1%nat by lia.
Qed.

Lemma colour_at_original o t :
  InPlace.colour_at (here + 2) (state o t) = Some (Ok o, state o t).
Proof.
  unfold InPlace.colour_at, InPlace.running. simpl.
  rewrite lookup_app_r by lia.
  by replace (length before + 2 - length before)%nat with 2%nat by lia.
Qed.

Lemma colour_at_threshold o t :
  InPlace.colour_at (here + 4) (state o t) = Some (Ok t, state o t).
Proof.
  unfold InPlace.colour_at, InPlace.running. simpl.
  rewrite lookup_app_r by lia.
  by replace (length before + 4 - length before)%nat with 4%nat by lia.
Qed.

Lemma in_place_original draw o t :
  InPlace.in_place (here + 2) draw (state o t) = Some (Ok (), state (draw o) t).
Proof.
  unfold InPlace.in_place, InPlace.running. simpl.
  rewrite lookup_app_r by lia.
  replace (length before + 2 - length before)%nat with 2%nat by lia. simpl.
  rewrite insert_app_r_alt by lia.
  by replace (length before + 2 - length before)%nat with 2%nat by lia.
Qed.

Lemma in_place_threshold draw o t :
  InPlace.in_place (here + 4) draw (state o t) = Some (Ok (), state o (draw t)).
Proof.
  unfold InPlace.in_place, InPlace.running. simpl.
  rewrite lookup_app_r by lia.
  replace (length before + 4 - length before)%nat with 4%nat by lia. simpl.
  rewrite insert_app_r_alt by lia.
  by replace (length before + 4 - length before)%nat with 4%nat by lia.
Qed.

Lemma draw_marker_original point o t :
  InPlace._draw_intercept_marker (here + 2) point (state o t)
  = Some (Ok (), state (_draw_intercept_marker o point) t).
Proof.
  unfold InPlace._draw_intercept_marker.
  rewrite (bind_returns _ _ _ _ _ (in_place_original _ _ _)).
  rewrite (bind_returns _ _ _ _ _ (in_place_original _ _ _)).
  by rewrite in_place_original.
Qed.

Lemma draw_marker_threshold point o t :
  InPlace._draw_intercept_marker (here + 4) point (state o t)
  = Some (Ok (), state o (_draw_intercept_marker t point)).
Proof.
  unfold InPlace._draw_intercept_marker.
  rewrite (bind_returns _ _ _ _ _ (in_place_threshold _ _ _)).
  rewrite (bind_returns _ _ _ _ _ (in_place_threshold _ _ _)).
  by rewrite in_place_threshold.
Qed.

Lemma markers_drawn points : ∀ o t,
  InPlace.for_each
    (fun _ point =>
       InPlace._draw_intercept_marker (here + 2) point;;
       InPlace._draw_intercept_marker (here + 4) point)
    points () (state o t)
  = Some (Ok (),
          state (fold_left (fun '(o, t) point =>
                              (_draw_intercept_marker o point,
                               _draw_intercept_marker t point))
                           points (o, t)).1
                (fold_left (fun '(o, t) point =>
                              (_draw_intercept_marker o point,
                               _draw_intercept_marker t point))
                           points (o, t)).2).
Proof.
  induction points as [|point points IH]; intros o t; [done|].
  cbn [InPlace.for_each fold_left].
  erewrite bind_returns; [apply IH|].
  rewrite (bind_returns _ _ _ _ _ (draw_marker_original _ _ _)).
  apply draw_marker_threshold.
Qed.

Local Abbreviation simulates :=
  (InPlace.simulates w before image mask mask_visual) (only parsing).

Lemma measure_line_simulated rr cc pt1 pt2 color length_of data o t :
  simulates
    (measure_line mask rr cc pt1 pt2 color (length_of c) (o, t, data))
    (InPlace.measure_line (here + 1) (here + 2) (here + 4) config rr cc pt1 pt2
       color length_of data (state o t)).
Proof.
  unfold InPlace.simulates, measure_line, InPlace.measure_line.
  rewrite (bind_returns _ _ _ _ _ (grey_at_mask _ _)).
  destruct (sample_mask mask rr cc) as [samples|e] eqn:Hsamples.
  2:{ exists o, t. by apply bind_raises. }
  rewrite (bind_returns _ _ _ samples (state o t)) by done.
  cbn [mbind Result_bind].
  destruct (_count_intercepts samples) as [intercepts intercept_indices].
  rewrite (bind_returns _ _ _ _ _ (config_at_running _ _)).
  destruct (comprehension _ intercept_indices) as [points|e] eqn:Hpoints.
  2:{ exists o, t. by apply bind_raises. }
  rewrite (bind_returns _ _ _ points (state o t)) by done.
  cbn [mbind Result_bind].
  rewrite (bind_returns _ _ _ _ _ (in_place_original _ _ _)).
  rewrite (bind_returns _ _ _ _ _ (in_place_threshold _ _ _)).
  rewrite (bind_returns _ _ _ _ _ (markers_drawn _ _ _)).
  by destruct (fold_left _ points _) as [o' t'].
Qed.

Lemma for_each_simulated {A}
    (pure_body : Image * Image * list LineData -> A ->
                 Result (Image * Image * list LineData))
    (body : list LineData -> A -> InPlace.Proc (list LineData)) :
  (∀ o t data x,
     simulates (pure_body (o, t, data) x) (body data x (state o t))) ->
  ∀ items o t data,
    simulates (for_each pure_body items (o, t, data))
              (InPlace.for_each body items data (state o t)).
Proof.
  intros Hbody. induction items as [|x items IH]; intros o t data; [done|].
  cbn [for_each InPlace.for_each]. specialize (Hbody o t data x).
  unfold InPlace.simulates in *.
  destruct (pure_body (o, t, data) x) as [[[o' t'] data']|e]; cbn [mbind Result_bind].
  - rewrite (bind_returns _ _ _ _ _ Hbody). apply IH.
  - destruct Hbody as (o' & t' & Hbody). exists o', t'. by apply bind_raises.
Qed.

Lemma horizontal_body_simulated width o t data y :
  simulates
    (horizontal_body mask width c (o, t, data) y)
    (InPlace.horizontal_body (here + 1) (here + 2) (here + 4) config width
       data y (state o t)).
Proof.
  unfold horizontal_body, InPlace.horizontal_body.
  destruct (draw_line y 0 y (width - 1)) as [rr cc].
  apply measure_line_simulated.
Qed.

Lemma vertical_body_simulated height o t data x :
  simulates
    (vertical_body mask height c (o, t, data) x)
    (InPlace.vertical_body (here + 1) (here + 2) (here + 4) config height
       data x (state o t)).
Proof.
  unfold vertical_body, InPlace.vertical_body.
  destruct (draw_line 0 x (height - 1) x) as [rr cc].
  apply measure_line_simulated.
Qed.

Lemma encode_original o t :
  InPlace._encode_image_to_base64 (here + 2) (state o t)
  = Some (_encode_image_to_base64 o, state o t).
Proof.
  unfold InPlace._encode_image_to_base64, _encode_image_to_base64.
  rewrite (bind_returns _ _ _ _ _ (colour_at_original _ _)).
  by destruct (cv2_imencode_png o).
Qed.

Lemma encode_threshold o t :
  InPlace._encode_image_to_base64 (here + 4) (state o t)
  = Some (_encode_image_to_base64 t, state o t).
Proof.
  unfold InPlace._encode_image_to_base64, _encode_image_to_base64.
  rewrite (bind_returns _ _ _ _ _ (colour_at_threshold _ _)).
  by destruct (cv2_imencode_png t).
Qed.

(** Lines 116-184 on the overlays in place: both loops, the rows and the
    encoding return what they return on values. *)
Lemma loops_simulated height width o t :
  ∃ o' t',
    (horizontal_data ←
       InPlace.for_each
         (InPlace.horizontal_body (here + 1) (here + 2) (here + 4) config width)
         (_auto_positions height (n_lines_horizontal c)) [];
     vertical_data ←
       InPlace.for_each
         (InPlace.vertical_body (here + 1) (here + 2) (here + 4) config height)
         (_auto_positions width (n_lines_vertical c)) [];
     let lines := build_lines horizontal_data vertical_data in
     let average_mli := average_mli np_mean lines in
     processed_image_base64 ← InPlace._encode_image_to_base64 (here + 2);
     threshold_image_base64 ← InPlace._encode_image_to_base64 (here + 4);
     mret {| lines := lines;
             average_mli_um := average_mli;
             processed_image_base64 := processed_image_base64;
             threshold_image_base64 := threshold_image_base64 |}) (state o t)
    = Some ('(original_overlay, threshold_overlay, horizontal_data) ←
              for_each (horizontal_body mask width c)
                (_auto_positions height (n_lines_horizontal c)) (o, t, []);
            '(original_overlay, threshold_overlay, vertical_data) ←
              for_each (vertical_body mask height c)
                (_auto_positions width (n_lines_vertical c))
                (original_overlay, threshold_overlay, []);
            assemble original_overlay threshold_overlay horizontal_data
              vertical_data,
            state o' t').
Proof.
  pose proof (for_each_simulated _ _ (horizontal_body_simulated width)
                (_auto_positions height (n_lines_horizontal c)) o t [])
    as Hhorizontal.
  unfold InPlace.simulates in Hhorizontal.
  destruct (for_each (horizontal_body mask width c) _ _)
    as [[[o1 t1] horizontal_data]|e]; cbn [mbind Result_bind].
  2:{ destruct Hhorizontal as (o' & t' & Hrun). exists o', t'.
      by apply bind_raises. }
  rewrite (bind_returns _ _ _ _ _ Hhorizontal).
  pose proof (for_each_simulated _ _ (vertical_body_simulated height)
                (_auto_positions width (n_lines_vertical c)) o1 t1 [])
    as Hvertical.
  unfold InPlace.simulates in Hvertical.
  destruct (for_each (vertical_body mask height c) _ _)
    as [[[o2 t2] vertical_data]|e]; cbn [mbind Result_bind].
  2:{ destruct Hvertical as (o' & t' & Hrun). exists o', t'.
      by apply bind_raises. }
  rewrite (bind_returns _ _ _ _ _ Hvertical).
  exists o2, t2. unfold assemble. cbv zeta.
  destruct (_encode_image_to_base64 o2) as [processed|e] eqn:Hprocessed;
    cbn [mbind Result_bind].
  2:{ apply bind_raises. by rewrite encode_original, Hprocessed. }
  erewrite bind_returns; [|by rewrite encode_original, Hprocessed].
  destruct (_encode_image_to_base64 t2) as [threshold|e] eqn:Hthreshold;
    cbn [mbind Result_bind].
  2:{ apply bind_raises. by rewrite encode_threshold, Hthreshold. }
  erewrite bind_returns; [|by rewrite encode_threshold, Hthreshold].
  done.
Qed.

End Running.

Lemma colour_at_lookup r pixels w objects :
  objects !! r = Some (InPlace.Colour pixels) ->
  InPlace.colour_at r {| InPlace.files := w; InPlace.objects := objects |}
  = Some (Ok pixels, {| InPlace.files := w; InPlace.objects := objects |}).
Proof. intros Hr. unfold InPlace.colour_at. simpl. by rewrite Hr. Qed.

Lemma grey_at_lookup r pixels w objects :
  objects !! r = Some (InPlace.Grey pixels) ->
  InPlace.grey_at r {| InPlace.files := w; InPlace.objects := objects |}
  = Some (Ok pixels, {| InPlace.files := w; InPlace.objects := objects |}).
Proof. intros Hr. unfold InPlace.grey_at. simpl. by rewrite Hr. Qed.

Lemma config_at_lookup r c w objects :
  objects !! r = Some (InPlace.Config c) ->
  InPlace.config_at r {| InPlace.files := w; InPlace.objects := objects |}
  = Some (Ok c, {| InPlace.files := w; InPlace.objects := objects |}).
Proof. intros Hr. unfold InPlace.config_at. simpl. by rewrite Hr. Qed.

Lemma lookup_created {A} (before created : list A) (k : nat) :
  (before ++ created) !! (length before + k)%nat = created !! k.
Proof. rewrite lookup_app_r by lia. f_equal. lia. Qed.

Lemma load_simulated path config c w before image :
  cv2_imread w path = Some image ->
  before !! config = Some (InPlace.Config c) ->
  InPlace._load_image_and_mask path config
    {| InPlace.files := w; InPlace.objects := before |}
  = Some (Ok (length before, (length before + 1)%nat),
          {| InPlace.files := w;
             InPlace.objects :=
               before ++ [InPlace.Colour image;
                          InPlace.Grey (astype_uint8 (tissue_mask_of image c))] |}).
Proof.
  intros Hread Hconfig. unfold InPlace._load_image_and_mask.
  rewrite (bind_returns _ _ _ (Some (length before))
             {| InPlace.files := w;
                InPlace.objects := before ++ [InPlace.Colour image] |}).
  2:{ unfold InPlace.imread. simpl. by rewrite Hread. }
  erewrite bind_returns; cycle 1.
  { apply colour_at_lookup.
    by rewrite <- (Nat.add_0_r (length before)), lookup_created. }
  erewrite bind_returns; cycle 1.
  { apply config_at_lookup. by apply lookup_app_l_Some. }
  unfold mbind, InPlace.Proc_bind, InPlace.new. simpl.
  rewrite length_app, <- app_assoc. done.
Qed.

(** The analysis in place returns what the analysis on values returns.  It
    leaves the file system and every earlier object as they were, and
    leaves five new objects behind when the image could be read. *)
Lemma run_simulated path config c (p : InPlace.Process) :
  InPlace.objects p !! config = Some (InPlace.Config c) ->
  ∃ created,
    InPlace.run_mli_analysis path config p
    = Some ((run_mli_analysis path c (InPlace.files p)).1,
            {| InPlace.files := InPlace.files p;
               InPlace.objects := InPlace.objects p ++ created |})
    ∧ length created
      = match cv2_imread (InPlace.files p) path with
        | Some _ => 5%nat
        | None => 0%nat
        end.
Proof.
  destruct p as [w before]. cbn [InPlace.files InPlace.objects]. intros Hconfig.
  unfold InPlace.run_mli_analysis.
  destruct (cv2_imread w path) as [image|] eqn:Hread.
  2:{ exists []. rewrite app_nil_r. split; [|done].
      rewrite (run_mli_analysis_unreadable _ _ _ Hread). cbn [fst].
      apply bind_raises. unfold InPlace._load_image_and_mask.
      rewrite (bind_returns _ _ _ None {| InPlace.files := w;
                                          InPlace.objects := before |}); [done|].
      unfold InPlace.imread. simpl. by rewrite Hread. }
  rewrite (run_mli_analysis_loaded _ _ _ _ Hread). cbn [fst].
  set (mask := astype_uint8 (tissue_mask_of image c)).
  rewrite (bind_returns _ _ _ _ _ (load_simulated _ _ _ _ _ _ Hread Hconfig)).
  fold mask. cbv beta iota.
  set (mask_visual :=
         (fun row : list Z => (fun v => (v * 255) mod 256) <$> row) <$> mask).
  erewrite bind_returns; cycle 1.
  { apply grey_at_lookup. by rewrite lookup_created. }
  unfold analyse_mask, measure_grid.
  destruct (shape mask) as [height width].
  erewrite bind_returns; cycle 1.
  { apply config_at_lookup. by apply lookup_app_l_Some. }
  erewrite bind_returns; cycle 1.
  { apply config_at_lookup. by apply lookup_app_l_Some. }
  erewrite bind_returns; cycle 1.
  { apply colour_at_lookup.
    by rewrite <- (Nat.add_0_r (length before)), lookup_created. }
  erewrite bind_returns; [|reflexivity].
  cbn [InPlace.files InPlace.objects]. rewrite ?length_app, <- ?app_assoc.
  cbn [length app].
  erewrite bind_returns; cycle 1.
  { apply grey_at_lookup. by rewrite lookup_created. }
  erewrite bind_returns; [|reflexivity].
  cbn [InPlace.files InPlace.objects]. rewrite ?length_app, <- ?app_assoc.
  cbn [length app]. fold mask_visual.
  erewrite bind_returns; cycle 1.
  { apply grey_at_lookup. by rewrite lookup_created. }
  erewrite bind_returns; [|reflexivity].
  cbn [InPlace.files InPlace.objects]. rewrite ?length_app, <- ?app_assoc.
  cbn [length app].
  change {| InPlace.files := w;
            InPlace.objects :=
              before ++ [InPlace.Colour image; InPlace.Grey mask;
                         InPlace.Colour image; InPlace.Grey mask_visual;
                         InPlace.Colour (cv2_cvtColor_GRAY2BGR mask_visual)] |}
    with (InPlace.running w before image mask mask_visual image
            (cv2_cvtColor_GRAY2BGR mask_visual)).
  destruct (loops_simulated w before image mask mask_visual config c Hconfig
              height width image (cv2_cvtColor_GRAY2BGR mask_visual))
    as (o & t & Hloops).
  eexists. split.
  - etransitivity; [exact Hloops|]. f_equal. f_equal.
    destruct (for_each (horizontal_body mask width c) _ _)
      as [[[o1 t1] horizontal_data]|e]; cbn [mbind Result_bind]; [|done].
    by destruct (for_each (vertical_body mask height c) _ _)
      as [[[o2 t2] vertical_data]|e].
  - reflexivity.
Qed.

(** C9.  Two runs on the same path and configuration, one after the other
    in the same process, return the same result: the same rows, average
    and overlays, or the same exception.  The result is the one the
    analysis on values gives for the path, the configuration and the file
    system, whatever objects the process holds.  A run leaves the file
    system and every earlier object, the configuration among them, as
    they were; what the first run leaves behind (five arrays when the
    image could be read) is there when the second run starts and does
    not reach its result. *)
Theorem C9_runs_are_repeatable path (config : nat) (c : AnalysisConfigData)
    (p : InPlace.Process) :
  InPlace.objects p !! config = Some (InPlace.Config c) ->
  ∃ result first second,
    InPlace.run_mli_analysis path config p
    = Some (result,
            {| InPlace.files := InPlace.files p;
               InPlace.objects := InPlace.objects p ++ first |})
    ∧ InPlace.run_mli_analysis path config
        {| InPlace.files := InPlace.files p;
           InPlace.objects := InPlace.objects p ++ first |}
      = Some (result,
              {| InPlace.files := InPlace.files p;
                 InPlace.objects := (InPlace.objects p ++ first) ++ second |})
    ∧ result = (run_mli_analysis path c (InPlace.files p)).1
    ∧ (is_Some (cv2_imread (InPlace.files p) path) ->
       length first = 5%nat ∧ length second = 5%nat).
Proof.
  intros Hconfig.
  destruct (run_simulated path config c p Hconfig) as (first & Hfirst & Hlen1).
  destruct (run_simulated path config c
              {| InPlace.files := InPlace.files p;
                 InPlace.objects := InPlace.objects p ++ first |})
    as (second & Hsecond & Hlen2).
  { by apply lookup_app_l_Some. }
  cbn [InPlace.files InPlace.objects] in Hsecond, Hlen2.
  exists (run_mli_analysis path c (InPlace.files p)).1, first, second.
  split; [done|]. split; [done|]. split; [done|].
  intros [image Hread]. by rewrite Hread in Hlen1, Hlen2.
Qed.

End Runs.

Lemma C9_runs_are_repeatable_witness :
  ∃ result first second,
    InPlace.run_mli_analysis "/data/block.png" 0%nat Sample.process
    = Some (result,
            {| InPlace.files := InPlace.files Sample.process;
               InPlace.objects := InPlace.objects Sample.process ++ first |})
    ∧ InPlace.run_mli_analysis "/data/block.png" 0%nat
        {| InPlace.files := InPlace.files Sample.process;
           InPlace.objects := InPlace.objects Sample.process ++ first |}
      = Some (result,
              {| InPlace.files := InPlace.files Sample.process;
                 InPlace.objects :=
                   (InPlace.objects Sample.process ++ first) ++ second |})
    ∧ result
      = (run_mli_analysis "/data/block.png" Reference.config
           (InPlace.files Sample.process)).1
    ∧ (is_Some (cv2_imread (InPlace.files Sample.process) "/data/block.png") ->
       length first = 5%nat ∧ length second = 5%nat).
Proof.
  apply (C9_runs_are_repeatable "/data/block.png" 0%nat Reference.config
           Sample.process).
  reflexivity.
Defined.

(** ** The request handler *)

Section Batch.
Context `{backend : Backend}.
Variable BASE_DIR : string.

Lemma analyze_loop_prefix config w (pre rest : list ImageRecord) :
  Forall (image_succeeds BASE_DIR config w) pre ->
  ∀ index results calls,
  ∃ more,
    length more = length pre ∧
    analyze_loop BASE_DIR config index (pre ++ rest) results calls w =
    analyze_loop BASE_DIR config (index + length pre) rest
      (results ++ more) (calls ++ (image_id <$> pre)) w.
Proof.
  induction 1 as [|image pre [Hexists [metrics Hrun]] _ IH];
    intros index results calls.
  - exists []. simpl. split; [done|]. by rewrite Nat.add_0_r, !app_nil_r.
  - simpl. rewrite Hexists. simpl.
    pose proof (run_mli_analysis_world
                  (resolve_path BASE_DIR (stored_path image)) config w) as Hw.
    destruct (run_mli_analysis _ config w) as [r w'] eqn:Hr.
    simpl in Hrun, Hw. subst r w'.
    destruct (IH (S index) (results ++ [to_image_result index image metrics])
                 (calls ++ [image_id image])) as (more & Hlen & ->).
    exists (to_image_result index image metrics :: more).
    split; [simpl; lia|].
    rewrite <- !app_assoc. simpl.
    by replace (index + S (length pre))%nat with (S index + length pre)%nat by lia.
Qed.

Lemma analyze_loop_missing config w (bad : ImageRecord) (post : list ImageRecord)
    index results calls :
  path_exists w (resolve_path BASE_DIR (stored_path bad)) = false ->
  analyze_loop BASE_DIR config index (bad :: post) results calls w =
    {| response :=
         Raise (HTTPException 404
                  ("Image not found on disk: "
                   +:+ resolve_path BASE_DIR (stored_path bad)));
       attempted := calls; world_after := w |}.
Proof. intros Hmissing. simpl. by rewrite Hmissing. Qed.

Lemma analyze_loop_raises config w (bad : ImageRecord) (post : list ImageRecord)
    index results calls error :
  path_exists w (resolve_path BASE_DIR (stored_path bad)) = true ->
  (run_mli_analysis (resolve_path BASE_DIR (stored_path bad)) config w).1
    = Raise error ->
  analyze_loop BASE_DIR config index (bad :: post) results calls w =
    {| response :=
         Raise match error with
               | ImageProcessingError message => HTTPException 500 message
               | _ => error
               end;
       attempted := calls ++ [image_id bad]; world_after := w |}.
Proof.
  intros Hexists Hrun. simpl. rewrite Hexists. simpl.
  pose proof (run_mli_analysis_world
                (resolve_path BASE_DIR (stored_path bad)) config w) as Hw.
  destruct (run_mli_analysis _ config w) as [r w'].
  simpl in Hrun, Hw. subst r w'. by destruct error.
Qed.

(** C8, amended.  The handler attempts the images of a batch in order and
    stops at the first failure.  When every image succeeds, all are
    attempted and the response holds one result per image.  When the file
    of an image is missing, the request ends in HTTP 404 with only the
    earlier images attempted; when its analysis raises, the request ends in
    HTTP 500 (for an [ImageProcessingError], with its message) with the
    earlier images and the failing one attempted.  The images after the
    failing one are never attempted. *)
Theorem C8_first_failure_ends_the_batch config w (images : list ImageRecord) :
  (images ≠ [] -> Forall (image_succeeds BASE_DIR config w) images ->
     attempted (analyze BASE_DIR images config w) = image_id <$> images ∧
     ∃ results, response (analyze BASE_DIR images config w) = Ok results ∧
                length results = length images)
  ∧ (∀ pre bad post,
       images = pre ++ bad :: post ->
       Forall (image_succeeds BASE_DIR config w) pre ->
       (path_exists w (resolve_path BASE_DIR (stored_path bad)) = false ->
          attempted (analyze BASE_DIR images config w) = image_id <$> pre ∧
          response (analyze BASE_DIR images config w) =
            Raise (HTTPException 404
                     ("Image not found on disk: "
                      +:+ resolve_path BASE_DIR (stored_path bad))))
       ∧ (∀ error,
            path_exists w (resolve_path BASE_DIR (stored_path bad)) = true ->
            (run_mli_analysis (resolve_path BASE_DIR (stored_path bad)) config w).1
              = Raise error ->
            attempted (analyze BASE_DIR images config w)
              = (image_id <$> pre) ++ [image_id bad] ∧
            response (analyze BASE_DIR images config w) =
              Raise match error with
                    | ImageProcessingError message => HTTPException 500 message
                    | _ => error
                    end)).
Proof.
  assert (∀ l, l ≠ [] -> analyze BASE_DIR l config w =
                          analyze_loop BASE_DIR config 0 l [] [] w) as Hloop.
  { intros [|? ?]; done. }
  split.
  - intros Hne Hall. rewrite (Hloop _ Hne).
    destruct (analyze_loop_prefix config w images [] Hall 0%nat [] [])
      as (more & Hlen & Heq).
    rewrite app_nil_r in Heq. rewrite Heq. simpl. split; [done|]. by exists more.
  - intros pre bad post -> Hpre.
    rewrite Hloop by (by destruct pre).
    destruct (analyze_loop_prefix config w pre (bad :: post) Hpre 0%nat [] [])
      as (more & Hlen & ->).
    split.
    + intros Hmissing. by rewrite analyze_loop_missing.
    + intros error Hexists Hrun.
      by rewrite (analyze_loop_raises _ _ _ _ _ _ _ error).
Qed.

End Batch.

(** C8, as stated, fails: in a batch of two whose first file is no image,
    the analysis of the first raises, the request ends in HTTP 500, and the
    second image is never attempted. *)
Lemma C8_counterexample :
  attempted (@analyze (Reference.backend Reference.raw_codec) "/srv"
               Reference.batch Reference.config Reference.files) = ["a"]
  ∧ attempted (@analyze (Reference.backend Reference.raw_codec) "/srv"
                 Reference.batch Reference.config Reference.files)
    ≠ image_id <$> Reference.batch
  ∧ response (@analyze (Reference.backend Reference.raw_codec) "/srv"
                Reference.batch Reference.config Reference.files) =
      Raise (HTTPException 500 "Unable to read image at /data/notes.txt").
Proof. vm_compute. repeat split; congruence. Qed.

Lemma C8_first_failure_ends_the_batch_witness :
  attempted (@analyze (Reference.backend Reference.raw_codec) "/srv"
               Reference.late_failure Reference.config Reference.files)
    = ["a"; "b"]
  ∧ response (@analyze (Reference.backend Reference.raw_codec) "/srv"
                Reference.late_failure Reference.config Reference.files)
    = Raise (HTTPException 500 "Unable to read image at /data/notes.txt").
Proof.
  pose proof (@C8_first_failure_ends_the_batch
                (Reference.backend Reference.raw_codec) "/srv"
                Reference.config Reference.files Reference.late_failure)
    as [_ Hfailure].
  specialize (Hfailure [Reference.record "a" "/data/block.png"]
                (Reference.record "b" "/data/notes.txt")
                [Reference.record "c" "/data/block.png"] eq_refl).
  assert (Forall (@image_succeeds (Reference.backend Reference.raw_codec)
                    "/srv" Reference.config Reference.files)
            [Reference.record "a" "/data/block.png"]) as Hpre.
  { constructor; [|constructor]. split; [vm_compute; reflexivity|].
    eexists. vm_compute. reflexivity. }
  destruct (Hfailure Hpre) as [_ Hraises].
  apply (Hraises (ImageProcessingError "Unable to read image at /data/notes.txt"));
    vm_compute; reflexivity.
Defined.

(** * Further properties *)

(** ** More on the intercept counter *)

Lemma count_intercepts_transitions (s : Z) (rest : list Z) :
  _count_intercepts (s :: rest) =
    (Z.of_nat (length (transitions_from 1 (is_tissue s) (is_tissue <$> rest))),
     transitions_from 1 (is_tissue s) (is_tissue <$> rest)).
Proof.
  unfold _count_intercepts. cbn [length Nat.eqb]. cbv zeta.
  unfold Np.where_. rewrite fmap_cons.
  change (fun s0 : Z => 0 <? s0) with is_tissue.
  by rewrite where_diff_transitions.
Qed.

Lemma transitions_from_range k prev rest i :
  i ∈ transitions_from k prev rest -> (k <= i < k + length rest)%nat.
Proof.
  revert k prev. induction rest as [|b rest IH]; intros k prev; simpl.
  - by intros ?%elem_of_nil.
  - rewrite elem_of_app. intros [Hi|Hi].
    + destruct (Bool.eqb prev b); [by apply elem_of_nil in Hi|].
      apply list_elem_of_singleton in Hi. lia.
    + apply IH in Hi. lia.
Qed.

Lemma transitions_from_length k prev rest :
  (length (transitions_from k prev rest) <= length rest)%nat.
Proof.
  revert k prev. induction rest as [|b rest IH]; intros k prev; simpl; [lia|].
  rewrite length_app. specialize (IH (S k) b).
  destruct (Bool.eqb prev b); simpl; lia.
Qed.

Lemma transitions_from_sorted k prev rest :
  StronglySorted lt (transitions_from k prev rest).
Proof.
  revert k prev. induction rest as [|b rest IH]; intros k prev; simpl.
  - constructor.
  - destruct (Bool.eqb prev b); simpl; [apply IH|].
    constructor; [apply IH|].
    apply Forall_forall. intros i Hi%transitions_from_range. lia.
Qed.

Lemma transitions_from_nil k prev rest :
  transitions_from k prev rest = [] ↔ Forall (eq prev) rest.
Proof.
  revert k prev. induction rest as [|b rest IH]; intros k prev; simpl.
  - split; [constructor|done].
  - rewrite Forall_cons. destruct (Bool.eqb prev b) eqn:E; simpl.
    + apply Bool.eqb_prop in E as ->. rewrite IH. tauto.
    + split; [done|]. intros [-> _]. by rewrite Bool.eqb_reflx in E.
Qed.

Lemma transitions_from_shift k j prev rest :
  transitions_from (k + j) prev rest = (fun i => i + j)%nat <$> transitions_from k prev rest.
Proof.
  revert k prev. induction rest as [|b rest IH]; intros k prev; simpl; [done|].
  rewrite fmap_app. f_equal.
  - by destruct (Bool.eqb prev b).
  - apply (IH (S k)).
Qed.

Lemma last_cons {A} (b d : A) (l : list A) :
  List.last (b :: l) d = List.last l b.
Proof.
  revert b d. induction l as [|c l IH]; intros b d; [done|].
  change (List.last (b :: c :: l) d) with (List.last (c :: l) d).
  by rewrite !IH.
Qed.

Lemma transitions_from_app k prev l1 l2 :
  transitions_from k prev (l1 ++ l2) =
    transitions_from k prev l1
    ++ transitions_from (k + length l1) (List.last l1 prev) l2.
Proof.
  revert k prev. induction l1 as [|b l1 IH]; intros k prev.
  - simpl. by rewrite Nat.add_0_r.
  - cbn [app transitions_from length]. rewrite IH, <- app_assoc.
    replace (S k + length l1)%nat with (k + S (length l1))%nat by lia.
    by rewrite last_cons.
Qed.

Lemma transitions_from_parity k prev rest :
  Nat.even (length (transitions_from k prev rest))
  = Bool.eqb prev (List.last rest prev).
Proof.
  revert k prev. induction rest as [|b rest IH]; intros k prev.
  - simpl. by destruct prev.
  - cbn [transitions_from]. rewrite length_app.
    rewrite last_cons.
    specialize (IH (S k) b).
    destruct (Bool.eqb prev b) eqn:E.
    + simpl. rewrite IH. apply Bool.eqb_prop in E. by subst.
    + rewrite Nat.even_add, IH. simpl.
      destruct prev, b, (List.last rest _); simpl in *; congruence.
Qed.

Lemma Z_even_of_nat (n : nat) : Z.even (Z.of_nat n) = Nat.even n.
Proof.
  induction n as [|n IH]; [done|].
  rewrite Nat2Z.inj_succ, Z.even_succ, Nat.even_succ.
  by rewrite <- Z.negb_even, <- Nat.negb_even, IH.
Qed.

Lemma last_List_last {A} (s : A) (rest : list A) :
  last (s :: rest) = Some (List.last rest s).
Proof.
  revert s. induction rest as [|b rest IH]; intros s; [done|].
  rewrite last_cons_cons, IH. by rewrite last_cons.
Qed.

Lemma List_last_fmap {A B} (f : A -> B) (l : list A) (d : A) :
  List.last (f <$> l) (f d) = f (List.last l d).
Proof.
  revert d. induction l as [|b l IH]; intros d; [done|].
  rewrite fmap_cons, !last_cons. apply IH.
Qed.

(** X1. The number of intercepts on a line never exceeds the number of gaps
    between neighbouring samples; the intercept indices are returned in
    strictly increasing order; and the count is zero exactly when all samples
    lie on the same side (all tissue or all airspace). *)
Theorem intercepts_bounded_sorted_and_zero_iff_uniform (samples : list Z) :
  (_count_intercepts samples).1 = Z.of_nat (length (_count_intercepts samples).2)
  ∧ 0 <= (_count_intercepts samples).1 <= Z.max 0 (Z.of_nat (length samples) - 1)
  ∧ StronglySorted lt (_count_intercepts samples).2
  ∧ ((_count_intercepts samples).1 = 0 ↔
     ∀ s s', s ∈ samples -> s' ∈ samples -> is_tissue s = is_tissue s').
Proof.
  destruct samples as [|s rest].
  { cbn. split; [done|]. split; [lia|]. split; [constructor|].
    split; [|done]. intros _ s s' Hs. by apply elem_of_nil in Hs. }
  rewrite count_intercepts_transitions. cbn [fst snd length].
  pose proof (transitions_from_length 1 (is_tissue s) (is_tissue <$> rest)) as Hlen.
  rewrite length_fmap in Hlen.
  split; [done|]. split; [lia|]. split; [apply transitions_from_sorted|].
  rewrite <- Nat2Z.inj_0, Nat2Z.inj_iff, length_zero_iff_nil, transitions_from_nil.
  rewrite Forall_fmap, Forall_forall. split.
  - intros Hsame a b Ha Hb.
    assert (∀ x, x ∈ s :: rest -> is_tissue x = is_tissue s) as Heq.
    { intros x [->|Hx]%elem_of_cons; [done|]. symmetry. by apply Hsame. }
    by rewrite (Heq a), (Heq b).
  - intros Hsame x Hx. simpl. apply Hsame; [left|by right].
Qed.

(** X2. On a non-empty line the number of intercepts is even exactly when the
    first and the last sample lie on the same side: a line that starts and
    ends in airspace crosses tissue boundaries an even number of times. *)
Theorem intercept_parity (samples : list Z) (first final : Z) :
  head samples = Some first ->
  last samples = Some final ->
  Z.even (_count_intercepts samples).1
    = Bool.eqb (is_tissue first) (is_tissue final).
Proof.
  destruct samples as [|s rest]; [done|].
  rewrite last_List_last. intros [= <-] [= <-].
  rewrite count_intercepts_transitions. cbn [fst].
  rewrite <- List_last_fmap, <- transitions_from_parity with (k := 1%nat).
  generalize (length (transitions_from 1 (is_tissue s) (is_tissue <$> rest))).
  intros n. apply Z_even_of_nat.
Qed.

Lemma intercept_parity_witness :
  Z.even (_count_intercepts [0; 1; 1; 0; 0; 1; 0]).1
    = Bool.eqb (is_tissue 0) (is_tissue 0).
Proof. apply (intercept_parity [0; 1; 1; 0; 0; 1; 0] 0 0); reflexivity. Defined.

(** X3. Counting along two runs of samples laid end to end: the intercepts of
    the first run, then one at the seam when the last sample of the first run
    and the first sample of the second lie on different sides, then the
    intercepts of the second run shifted by the length of the first. *)
Theorem intercepts_of_concatenation (a b : list Z) :
  (_count_intercepts (a ++ b)).2 =
    (_count_intercepts a).2 ++ seam a b
    ++ ((fun i => i + length a)%nat <$> (_count_intercepts b).2)
  ∧ (_count_intercepts (a ++ b)).1 =
      (_count_intercepts a).1 + Z.of_nat (length (seam a b))
      + (_count_intercepts b).1.
Proof.
  assert ((_count_intercepts (a ++ b)).2 =
    (_count_intercepts a).2 ++ seam a b
    ++ ((fun i => i + length a)%nat <$> (_count_intercepts b).2)) as Hidx.
  { destruct a as [|s ra].
    { simpl. unfold seam. simpl.
      rewrite <- (list_fmap_id (_count_intercepts b).2) at 1.
      apply list_fmap_ext. intros; simpl; lia. }
    destruct b as [|t rb].
    { rewrite app_nil_r. unfold seam. rewrite last_List_last. simpl.
      by rewrite app_nil_r. }
    change ((s :: ra) ++ t :: rb) with (s :: (ra ++ t :: rb)).
    rewrite !count_intercepts_transitions. cbn [snd].
    rewrite fmap_app, transitions_from_app, fmap_cons, length_fmap.
    cbn [transitions_from]. f_equal.
    rewrite List_last_fmap. unfold seam. rewrite last_List_last.
    cbn [head length]. f_equal.
    rewrite <- transitions_from_shift. by f_equal. }
  split; [exact Hidx|].
  assert (∀ l, (_count_intercepts l).1 = Z.of_nat (length (_count_intercepts l).2))
    as Hcount.
  { intros [|x l]; [done|]. by rewrite count_intercepts_transitions. }
  rewrite !Hcount, Hidx, !length_app, length_fmap. lia.
Qed.

(** ** The measuring loops *)

Lemma comprehension_error {A B} (f : A -> Result B) (items : list A) (P : PyError -> Prop) :
  (∀ x e, f x = Raise e -> P e) ->
  ∀ e, comprehension f items = Raise e -> P e.
Proof.
  intros Hf. induction items as [|x items IH]; intros e; simpl; [done|].
  destruct (f x) as [y|e'] eqn:Hx; simpl.
  - destruct (comprehension f items) as [ys|e''] eqn:Hrest; simpl; [done|].
    intros [= <-]. by apply IH.
  - intros [= <-]. by eapply Hf.
Qed.

Lemma comprehension_length {A B} (f : A -> Result B) (items : list A) (out : list B) :
  comprehension f items = Ok out -> length out = length items.
Proof.
  revert out. induction items as [|x items IH]; intros out; simpl.
  - by intros [= <-].
  - destruct (f x) as [y|]; [|done]. simpl.
    destruct (comprehension f items) as [ys|]; [|done]. simpl.
    intros [= <-]. simpl. f_equal. by apply IH.
Qed.

Lemma getitem_error (a : list Z) (i : Z) e : getitem a i = Raise e -> e = IndexError.
Proof. unfold getitem. destruct (_ ≫= _); [done|]. by intros [= <-]. Qed.

Lemma sample_mask_error (mask : list (list Z)) rr cc e :
  sample_mask mask rr cc = Raise e -> e = IndexError.
Proof.
  unfold sample_mask. destruct (negb _); [by intros [= <-]|].
  apply (comprehension_error _ _ (fun e => e = IndexError)).
  intros [r c] e'. destruct (_ ≫= _); [apply getitem_error|]. by intros [= <-].
Qed.

Lemma for_each_error {A S} (body : S -> A -> Result S) items (P : PyError -> Prop) :
  (∀ s x e, body s x = Raise e -> P e) ->
  ∀ s e, for_each body items s = Raise e -> P e.
Proof.
  intros Hbody. induction items as [|x items IH]; intros s e; simpl; [done|].
  destruct (body s x) as [s'|e'] eqn:Hx; simpl; [apply IH|].
  intros [= <-]. by eapply Hbody.
Qed.

(** A [raise] in the body at one item ends the loop in an exception,
    whatever the state in which that item is reached. *)
Lemma for_each_raises {A S} (body : S -> A -> Result S) items (bad : A) :
  bad ∈ items ->
  (∀ s, ∃ e, body s bad = Raise e) ->
  ∀ s, ∃ e, for_each body items s = Raise e.
Proof.
  intros Hin Hbad. induction items as [|x items IH]; intros s.
  - by apply elem_of_nil in Hin.
  - simpl. destruct (body s x) as [s'|e] eqn:Hx; simpl; [|by exists e].
    apply elem_of_cons in Hin as [->|Hin]; [|by apply IH].
    destruct (Hbad s) as [e He]. congruence.
Qed.

Section Measuring.
Context `{backend : Backend}.

Lemma measure_line_ok mask rr cc pt1 pt2 color len o t data st' :
  measure_line mask rr cc pt1 pt2 color len (o, t, data) = Ok st' ->
  ∃ o' t' samples,
    sample_mask mask rr cc = Ok samples ∧
    st' = (o', t',
           data ++ [{| intercepts := (_count_intercepts samples).1; length_um := len |}]).
Proof.
  unfold measure_line.
  destruct (sample_mask mask rr cc) as [samples|]; [|done]. simpl.
  destruct (_count_intercepts samples) as [n idx] eqn:Hcount. simpl.
  destruct (comprehension _ idx) as [points|]; [|done]. simpl.
  destruct (fold_left _ points _) as [o' t'].
  intros [= <-]. exists o', t', samples. by rewrite Hcount.
Qed.

Lemma measure_line_error mask rr cc pt1 pt2 color len st e :
  measure_line mask rr cc pt1 pt2 color len st = Raise e -> e = IndexError.
Proof.
  unfold measure_line. destruct st as [[o t] data].
  destruct (sample_mask mask rr cc) as [samples|e'] eqn:Hs; simpl.
  - destruct (_count_intercepts samples) as [n idx].
    destruct (comprehension _ idx) as [points|e''] eqn:Hp; simpl.
    + by destruct (fold_left _ points _).
    + intros [= <-]. revert Hp.
      apply (comprehension_error _ _ (fun e => e = IndexError)).
      intros i e3. destruct (getitem cc _) eqn:Hc; simpl.
      * destruct (getitem rr _) eqn:Hr; simpl; [done|].
        intros [= <-]. by apply getitem_error in Hr.
      * intros [= <-]. by apply getitem_error in Hc.
  - intros [= <-]. by apply sample_mask_error in Hs.
Qed.

Lemma measure_line_out_of_range mask rr cc pt1 pt2 color len st r rr' :
  rr = r :: rr' -> length rr = length cc ->
  Np.index (length mask) r = None ->
  measure_line mask rr cc pt1 pt2 color len st = Raise IndexError.
Proof.
  intros -> Hlen Hr. destruct cc as [|c cc]; [done|].
  unfold measure_line. destruct st as [[o t] data].
  unfold sample_mask. rewrite Hlen, Nat.eqb_refl. simpl.
  by rewrite Hr.
Qed.

(** The per-line data a loop appends: one entry per position, each with
    the configured length and a count between 0 and the number of gaps. *)
Lemma loop_data (body : Image * Image * list LineData -> Z -> Result (Image * Image * list LineData))
    (len : float) (positions : list Z) :
  (∀ o t data y st',
     body (o, t, data) y = Ok st' ->
     ∃ o' t' n, 0 <= n ∧ st' = (o', t', data ++ [{| intercepts := n; length_um := len |}])) ->
  ∀ o t data o' t' data',
    for_each body positions (o, t, data) = Ok (o', t', data') ->
    ∃ new, data' = data ++ new ∧ length new = length positions ∧
           Forall (fun d => 0 <= intercepts d ∧ length_um d = len) new.
Proof.
  intros Hbody. induction positions as [|y positions IH];
    intros o t data o' t' data'; simpl.
  - intros [= <- <- <-]. exists []. by rewrite app_nil_r.
  - destruct (body (o, t, data) y) as [st1|] eqn:Hy; [|done]. simpl.
    apply Hbody in Hy as (o1 & t1 & n & Hn & ->).
    intros (new & -> & Hlen & Hall)%IH.
    exists ({| intercepts := n; length_um := len |} :: new).
    rewrite <- app_assoc. split; [done|]. split; [simpl; lia|].
    by constructor.
Qed.

Lemma count_intercepts_nonneg samples : 0 <= (_count_intercepts samples).1.
Proof.
  destruct samples as [|s rest]; [done|].
  rewrite count_intercepts_transitions. simpl. lia.
Qed.

Lemma horizontal_body_ok mask width config o t data y st' :
  horizontal_body mask width config (o, t, data) y = Ok st' ->
  ∃ o' t' n, 0 <= n ∧
    st' = (o', t', data ++ [{| intercepts := n;
                               length_um := line_length_um_horizontal config |}]).
Proof.
  unfold horizontal_body. destruct (draw_line _ _ _ _) as [rr cc].
  intros (o' & t' & samples & _ & ->)%measure_line_ok.
  exists o', t', (_count_intercepts samples).1.
  split; [apply count_intercepts_nonneg|done].
Qed.

Lemma vertical_body_ok mask height config o t data x st' :
  vertical_body mask height config (o, t, data) x = Ok st' ->
  ∃ o' t' n, 0 <= n ∧
    st' = (o', t', data ++ [{| intercepts := n;
                               length_um := line_length_um_vertical config |}]).
Proof.
  unfold vertical_body. destruct (draw_line _ _ _ _) as [rr cc].
  intros (o' & t' & samples & _ & ->)%measure_line_ok.
  exists o', t', (_count_intercepts samples).1.
  split; [apply count_intercepts_nonneg|done].
Qed.

Lemma auto_positions_count (L N : Z) :
  length (_auto_positions L N) = Z.to_nat N.
Proof.
  unfold _auto_positions. destruct (N <=? 0) eqn:E.
  - apply Z.leb_le in E. simpl. lia.
  - unfold Py.range. by rewrite !length_fmap, length_seq.
Qed.

Lemma measure_grid_ok image mask config o t hd vd :
  measure_grid image mask config = Ok (o, t, hd, vd) ->
  length hd = Z.to_nat (n_lines_horizontal config)
  ∧ length vd = Z.to_nat (n_lines_vertical config)
  ∧ Forall (fun d => 0 <= intercepts d
                     ∧ length_um d = line_length_um_horizontal config) hd
  ∧ Forall (fun d => 0 <= intercepts d
                     ∧ length_um d = line_length_um_vertical config) vd.
Proof.
  unfold measure_grid. destruct (shape mask) as [height width].
  destruct (for_each (horizontal_body _ _ _) _ _) as [[[o1 t1] hd1]|] eqn:Hh;
    [|done]. simpl.
  destruct (for_each (vertical_body _ _ _) _ _) as [[[o2 t2] vd2]|] eqn:Hv;
    [|done]. simpl.
  intros [= <- <- <- <-].
  eapply loop_data in Hh as (newh & -> & Hlh & Hh);
    [|intros; by eapply horizontal_body_ok].
  eapply loop_data in Hv as (newv & -> & Hlv & Hv);
    [|intros; by eapply vertical_body_ok].
  rewrite auto_positions_count in Hlh, Hlv. simpl. done.
Qed.

Lemma measure_grid_error image mask config e :
  measure_grid image mask config = Raise e -> e = IndexError.
Proof.
  unfold measure_grid. destruct (shape mask) as [height width].
  destruct (for_each (horizontal_body _ _ _) _ _) as [[[o1 t1] hd1]|e1] eqn:Hh;
    simpl.
  - destruct (for_each (vertical_body _ _ _) _ _) as [[[o2 t2] vd2]|e2] eqn:Hv;
      simpl; [done|].
    intros [= <-]. revert Hv.
    apply (for_each_error _ _ (fun e => e = IndexError)).
    intros s x e'. unfold vertical_body. destruct (draw_line _ _ _ _).
    apply measure_line_error.
  - intros [= <-]. revert Hh.
    apply (for_each_error _ _ (fun e => e = IndexError)).
    intros s x e'. unfold horizontal_body. destruct (draw_line _ _ _ _).
    apply measure_line_error.
Qed.

End Measuring.

Section Rows.
Context `{backend : Backend}.
Variable BASE_DIR : string.

Lemma run_mli_analysis_ok path config w metrics :
  (run_mli_analysis path config w).1 = Ok metrics ->
  ∃ image o t hd vd,
    cv2_imread w path = Some image ∧
    measure_grid image (astype_uint8 (tissue_mask_of image config)) config
      = Ok (o, t, hd, vd) ∧
    lines metrics = build_lines hd vd.
Proof.
  intros Hrun. destruct (cv2_imread w path) as [image|] eqn:Hread.
  - rewrite (run_mli_analysis_loaded _ _ _ _ Hread) in Hrun. simpl in Hrun.
    unfold analyse_mask in Hrun.
    destruct (measure_grid _ _ _) as [[[[o t] hd] vd]|] eqn:Hgrid; [|done].
    simpl in Hrun. apply assemble_ok in Hrun as (bo & bt & _ & _ & ->).
    by exists image, o, t, hd, vd.
  - by rewrite (run_mli_analysis_unreadable _ _ _ Hread) in Hrun.
Qed.

(** X4. A run that returns has one row per line pair: as many rows as the
    larger of the two line counts (a count below zero counting as zero),
    numbered from 1 in order. A row within the horizontal count carries the
    configured horizontal length, a row beyond it 0.0, and likewise for the
    vertical side; no intercept count is negative. *)
Theorem analysis_returns_one_row_per_line_pair path config w metrics :
  (run_mli_analysis path config w).1 = Ok metrics ->
  length (lines metrics)
    = (Z.to_nat (n_lines_horizontal config)
         `max` Z.to_nat (n_lines_vertical config))%nat
  ∧ ∀ (idx : nat) (row : LineMetrics),
      lines metrics !! idx = Some row ->
      line_number row = Z.of_nat idx + 1
      ∧ 0 <= horizontal_intercepts row
      ∧ 0 <= vertical_intercepts row
      ∧ horizontal_length_um row =
          (if Z.of_nat idx <? n_lines_horizontal config
           then line_length_um_horizontal config else 0%float)
      ∧ vertical_length_um row =
          (if Z.of_nat idx <? n_lines_vertical config
           then line_length_um_vertical config else 0%float).
Proof.
  intros (image & o & t & hd & vd & _ & Hgrid & ->)%run_mli_analysis_ok.
  apply measure_grid_ok in Hgrid as (Hlh & Hlv & Hh & Hv).
  rewrite build_lines_rows. split.
  { by rewrite length_fmap, length_seq, Hlh, Hlv. }
  intros idx row. rewrite list_lookup_fmap.
  destruct (seq _ _ !! idx) as [idx'|] eqn:Hidx; [|done].
  apply lookup_seq in Hidx as [-> _]. simpl. intros [= <-].
  rewrite line_row_paired. simpl.
  rewrite Forall_lookup in Hh, Hv.
  split; [done|].
  assert (∀ (data : list LineData) (N : Z) (len : float),
            length data = Z.to_nat N ->
            (∀ i d, data !! i = Some d -> 0 <= intercepts d ∧ length_um d = len) ->
            0 <= intercepts (default stand_in (data !! idx))
            ∧ length_um (default stand_in (data !! idx))
              = if Z.of_nat idx <? N then len else 0%float) as Hside.
  { intros data N len Hlen Hall.
    destruct (data !! idx) as [d|] eqn:Hd; simpl.
    - apply lookup_lt_Some in Hd as Hlt. destruct (Hall _ _ Hd) as [? ->].
      split; [done|]. destruct (Z.ltb_spec (Z.of_nat idx) N); [done|lia].
    - apply lookup_ge_None in Hd. split; [done|].
      destruct (Z.ltb_spec (Z.of_nat idx) N); [lia|done]. }
  destruct (Hside hd _ _ Hlh Hh) as [? ?], (Hside vd _ _ Hlv Hv) as [? ?].
  done.
Qed.

(** X5. When the grid places a horizontal line on row [height], one past the
    last row of the mask (possible when the lines are numerous for the image
    height), sampling the mask raises [IndexError]: the run ends in that
    exception, not in an [ImageProcessingError], and the [/analyze] handler,
    which catches only [ImageProcessingError], lets it through instead of
    answering with an HTTP error of its own. *)
Theorem line_past_the_last_row_raises_IndexError path config w image
    (height width : Z) :
  cv2_imread w path = Some image ->
  shape (astype_uint8 (tissue_mask_of image config)) = (height, width) ->
  0 < width ->
  (draw_line height 0 height (width - 1)).1 = replicate (Z.to_nat width) height ->
  length (draw_line height 0 height (width - 1)).2 = Z.to_nat width ->
  height ∈ _auto_positions height (n_lines_horizontal config) ->
  run_mli_analysis path config w = (Raise IndexError, w)
  ∧ ∀ record : ImageRecord,
      resolve_path BASE_DIR (stored_path record) = path ->
      path_exists w path = true ->
      response (analyze BASE_DIR [record] config w) = Raise IndexError.
Proof.
  intros Hread Hshape Hwidth Hrr Hcc Hin.
  assert (run_mli_analysis path config w = (Raise IndexError, w)) as Hrun.
  { rewrite (run_mli_analysis_loaded _ _ _ _ Hread). f_equal.
    unfold analyse_mask.
    destruct (measure_grid _ _ _) as [ok|e] eqn:Hgrid;
      [|by apply measure_grid_error in Hgrid as ->].
    exfalso. revert Hgrid. unfold measure_grid. rewrite Hshape.
    set (mask := astype_uint8 (tissue_mask_of image config)) in *.
    destruct (for_each_raises (horizontal_body mask width config)
                (_auto_positions height (n_lines_horizontal config)) height Hin)
      with (s := (image,
                  cv2_cvtColor_GRAY2BGR
                    ((fun row : list Z => (fun v => (v * 255) mod 256) <$> row) <$> mask),
                  @nil LineData)) as [e He].
    - intros s. exists IndexError. unfold horizontal_body.
      destruct (draw_line height 0 height (width - 1)) as [rr cc]. simpl in *.
      destruct (Z.to_nat width) as [|n] eqn:Hn; [lia|].
      eapply measure_line_out_of_range; [by rewrite Hrr|..].
      + by rewrite Hrr, Hcc, length_replicate.
      + unfold shape in Hshape. injection Hshape as <- _.
        unfold Np.index.
        destruct (Z.ltb_spec (Z.of_nat (length mask)) (Z.of_nat (length mask)));
          [lia|].
        rewrite andb_false_r.
        destruct (Z.ltb_spec (Z.of_nat (length mask)) 0); [lia|].
        by rewrite andb_false_r.
    - by rewrite He. }
  split; [exact Hrun|].
  intros record Hpath Hexists.
  unfold analyze. rewrite analyze_loop_raises with (error := IndexError).
  - done.
  - by rewrite Hpath.
  - by rewrite Hpath, Hrun.
Qed.

End Rows.

Lemma analysis_returns_one_row_per_line_pair_witness :
  ∃ metrics,
    (@run_mli_analysis (Reference.backend Reference.raw_codec)
       "/data/block.png" Reference.config Reference.files).1 = Ok metrics
    ∧ length (lines metrics) = 3%nat.
Proof.
  eexists. split; [vm_compute; reflexivity|].
  apply (@analysis_returns_one_row_per_line_pair
           (Reference.backend Reference.raw_codec)
           "/data/block.png" Reference.config Reference.files).
  vm_compute. reflexivity.
Defined.

Lemma line_past_the_last_row_raises_IndexError_witness :
  @run_mli_analysis (Reference.backend Reference.raw_codec)
    "/data/block.png" Fixture.crowded Reference.files
  = (Raise IndexError, Reference.files).
Proof.
  apply (@line_past_the_last_row_raises_IndexError
           (Reference.backend Reference.raw_codec) "/srv"
           "/data/block.png" Fixture.crowded Reference.files
           Reference.block_image 4 6).
  - reflexivity.
  - vm_compute. reflexivity.
  - lia.
  - vm_compute. reflexivity.
  - vm_compute. reflexivity.
  - vm_compute. set_solver.
Defined.

(** ** Dictionaries *)

Section DictFacts.
Context {V : Type}.
Implicit Types (d : list (string * V)) (k : string) (v : V).

Lemma dict_get_setitem d k v : Dict.get (Dict.setitem d k v) k = Some v.
Proof.
  induction d as [|[k' v'] d IH]; simpl.
  - by rewrite decide_True.
  - destruct (decide (k' = k)) as [->|Hne]; simpl.
    + by rewrite decide_True.
    + by rewrite decide_False.
Qed.

Lemma dict_get_setitem_ne d k k' v :
  k' ≠ k -> Dict.get (Dict.setitem d k v) k' = Dict.get d k'.
Proof.
  intros Hne. induction d as [|[k0 v0] d IH]; simpl.
  - by rewrite decide_False.
  - destruct (decide (k0 = k)) as [->|Hk]; simpl.
    + by rewrite !decide_False by done.
    + by rewrite IH.
Qed.

Lemma dict_get_None d k : Dict.get d k = None ↔ k ∉ Dict.keys d.
Proof.
  unfold Dict.keys. induction d as [|[k' v'] d IH]; simpl.
  - split; [intros _; apply not_elem_of_nil|done].
  - rewrite not_elem_of_cons. destruct (decide (k' = k)) as [->|Hne].
    + split; [done|]. by intros [? _].
    + rewrite IH. split; [by intros ?|by intros [_ ?]].
Qed.

Lemma dict_get_Some d k v : Dict.get d k = Some v -> (k, v) ∈ d.
Proof.
  induction d as [|[k' v'] d IH]; simpl; [done|].
  destruct (decide (k' = k)) as [->|Hne].
  - intros [= ->]. left.
  - intros ?%IH. by right.
Qed.

Lemma dict_elem_of_get d k v :
  NoDup (Dict.keys d) -> (k, v) ∈ d -> Dict.get d k = Some v.
Proof.
  unfold Dict.keys. induction d as [|[k' v'] d IH]; simpl.
  - by intros _ ?%elem_of_nil.
  - intros [Hk Hd]%NoDup_cons [Heq|Hin]%elem_of_cons.
    + injection Heq as -> ->. by rewrite decide_True.
    + destruct (decide (k' = k)) as [->|Hne]; [|by apply IH].
      exfalso. apply Hk. apply list_elem_of_fmap. by exists (k, v).
Qed.

Lemma dict_setitem_new d k v :
  Dict.get d k = None -> Dict.setitem d k v = d ++ [(k, v)].
Proof.
  induction d as [|[k' v'] d IH]; simpl; [done|].
  destruct (decide (k' = k)); [done|]. intros ?%IH. by f_equal.
Qed.

Lemma dict_setitem_keys d k v v0 :
  Dict.get d k = Some v0 -> Dict.keys (Dict.setitem d k v) = Dict.keys d.
Proof.
  unfold Dict.keys. induction d as [|[k' v'] d IH]; simpl; [done|].
  destruct (decide (k' = k)); [done|]. intros ?%IH. simpl. by f_equal.
Qed.

Lemma dict_setitem_NoDup d k v :
  NoDup (Dict.keys d) -> NoDup (Dict.keys (Dict.setitem d k v)).
Proof.
  intros Hd. destruct (Dict.get d k) as [v0|] eqn:Hk.
  - by rewrite (dict_setitem_keys _ _ _ _ Hk).
  - rewrite (dict_setitem_new _ _ _ Hk). unfold Dict.keys in *.
    rewrite fmap_app. simpl. apply NoDup_app. split; [done|]. split.
    + intros x Hx ->%list_elem_of_singleton. by apply dict_get_None in Hk.
    + apply NoDup_singleton.
Qed.

Lemma dict_setitem_elem_of d k v k' v' :
  NoDup (Dict.keys d) ->
  (k', v') ∈ Dict.setitem d k v ↔ (k' = k ∧ v' = v) ∨ (k' ≠ k ∧ (k', v') ∈ d).
Proof.
  intros Hd. split.
  - intros Hin. apply dict_elem_of_get in Hin; [|by apply dict_setitem_NoDup].
    destruct (decide (k' = k)) as [->|Hne].
    + rewrite dict_get_setitem in Hin. left. by injection Hin as ->.
    + rewrite dict_get_setitem_ne in Hin by done. right.
      split; [done|]. by apply dict_get_Some.
  - intros [[-> ->]|[Hne Hin]]; apply dict_get_Some.
    + apply dict_get_setitem.
    + rewrite dict_get_setitem_ne by done. by apply dict_elem_of_get.
Qed.

Lemma dict_remove_elem_of d k k' v' :
  NoDup (Dict.keys d) ->
  (k', v') ∈ Dict.remove d k ↔ k' ≠ k ∧ (k', v') ∈ d.
Proof.
  unfold Dict.keys. induction d as [|[k0 v0] d IH]; simpl.
  - intros _. split; [by intros ?%elem_of_nil|by intros [_ ?%elem_of_nil]].
  - intros [Hk Hd]%NoDup_cons. destruct (decide (k0 = k)) as [->|Hne].
    + rewrite elem_of_cons. split.
      * intros Hin. split; [|by right]. intros ->. apply Hk.
        apply list_elem_of_fmap. by exists (k, v').
      * intros [Hne [Heq|Hin]]; [|done]. by injection Heq as -> ->.
    + rewrite !elem_of_cons, IH by done. split.
      * intros [Heq|[? ?]]; [|by auto]. injection Heq as -> ->. auto.
      * intros [? [?|?]]; auto.
Qed.

Lemma dict_remove_keys d k :
  Dict.keys (Dict.remove d k) ⊆ Dict.keys d.
Proof.
  unfold Dict.keys. induction d as [|[k0 v0] d IH]; simpl; [done|].
  destruct (decide (k0 = k)); simpl.
  - intros x Hx. by right.
  - intros x [->|Hx]%elem_of_cons; [left|right]. by apply IH.
Qed.

Lemma dict_remove_NoDup d k :
  NoDup (Dict.keys d) -> NoDup (Dict.keys (Dict.remove d k)).
Proof.
  unfold Dict.keys. induction d as [|[k0 v0] d IH]; simpl; [done|].
  intros [Hk Hd]%NoDup_cons. destruct (decide (k0 = k)); [done|].
  simpl. apply NoDup_cons. split; [|by apply IH].
  intros Hin. apply Hk. by apply (dict_remove_keys d k).
Qed.

Lemma dict_get_remove d k :
  NoDup (Dict.keys d) -> Dict.get (Dict.remove d k) k = None.
Proof.
  intros Hd. apply dict_get_None. intros Hin.
  apply list_elem_of_fmap in Hin as [[k' v'] [Heq Hin]]. simpl in Heq. subst k'.
  apply dict_remove_elem_of in Hin; [|done]. by destruct Hin.
Qed.

Lemma dict_get_remove_ne d k k' :
  k' ≠ k -> Dict.get (Dict.remove d k) k' = Dict.get d k'.
Proof.
  intros Hne. induction d as [|[k0 v0] d IH]; simpl; [done|].
  destruct (decide (k0 = k)) as [->|Hk]; simpl.
  - by rewrite decide_False.
  - by rewrite IH.
Qed.

End DictFacts.

(** ** Sorting by a string key *)

Section SortFacts.
Context {A : Type} (key : A -> string).

Lemma insert_by_Permutation x (l : list A) : insert_by key x l ≡ₚ x :: l.
Proof.
  induction l as [|y l IH]; simpl; [done|].
  destruct (String.leb (key x) (key y)); [done|].
  rewrite IH. apply Permutation_swap.
Qed.

Lemma sort_by_Permutation (l : list A) : sort_by key l ≡ₚ l.
Proof.
  induction l as [|x l IH]; simpl; [done|].
  unfold sort_by in *. simpl. by rewrite insert_by_Permutation, IH.
Qed.

Lemma insert_by_Sorted x (l : list A) :
  Sorted (key_le key) l -> Sorted (key_le key) (insert_by key x l).
Proof.
  induction 1 as [|y l Hl IH Hy]; simpl.
  - by repeat constructor.
  - destruct (String.leb (key x) (key y)) eqn:Hxy.
    + constructor; [by constructor|]. by constructor.
    + constructor; [done|].
      assert (key_le key y x) as Hyx.
      { destruct (String.leb_total (key x) (key y)); [congruence|done]. }
      destruct Hy as [|z l' Hz]; simpl.
      * by constructor.
      * destruct (String.leb (key x) (key z)); by constructor.
Qed.

Lemma sort_by_Sorted (l : list A) : Sorted (key_le key) (sort_by key l).
Proof.
  induction l as [|x l IH]; [constructor|]. by apply insert_by_Sorted.
Qed.

(** Stability: among the items that share a key the order is kept. *)
Lemma insert_by_filter (P : A -> Prop) `{!∀ x, Decision (P x)} x (l : list A) :
  (∀ y, y ∈ l -> P x -> P y -> String.leb (key x) (key y) = true) ->
  filter P (insert_by key x l) = filter P (x :: l).
Proof.
  induction l as [|y l IH]; simpl; [done|]. intros Hle.
  destruct (String.leb (key x) (key y)) eqn:Hxy; [done|].
  rewrite !filter_cons. rewrite filter_cons in IH.
  destruct (decide (P y)) as [Hy|Hy].
  - destruct (decide (P x)) as [Hx|Hx].
    + rewrite Hle in Hxy; [done|left|done|done].
    + rewrite IH; [done|]. intros; by apply Hle; [right|..].
  - rewrite IH; [done|]. intros; by apply Hle; [right|..].
Qed.

Lemma sort_by_stable (k : string) (l : list A) :
  filter (fun x => key x = k) (sort_by key l) = filter (fun x => key x = k) l.
Proof.
  induction l as [|x l IH]; [done|].
  change (sort_by key (x :: l)) with (insert_by key x (sort_by key l)).
  rewrite insert_by_filter.
  - by rewrite !filter_cons, IH.
  - intros y _ Hx Hy. rewrite Hx, Hy.
    by destruct (String.leb_total k k).
Qed.

End SortFacts.

(** ** The state store *)

Lemma elem_of_get_images (a : string) (self : StateManager) (r : ImageRecord) :
  r ∈ Storage.get_images_for_animal a self ↔
  animal_id r = a ∧ ∃ k, (k, r) ∈ st_images (_state self).
Proof.
  unfold Storage.get_images_for_animal. rewrite sort_by_Permutation.
  rewrite list_elem_of_filter. unfold Dict.values.
  rewrite list_elem_of_fmap. split.
  - intros [? [[k r'] [-> ?]]]. split; [done|]. by exists k.
  - intros [? [k ?]]. split; [done|]. by exists (k, r).
Qed.

Lemma well_formed_image (s : State) (k : string) (r : ImageRecord) :
  well_formed s -> (k, r) ∈ st_images s -> image_id r = k.
Proof.
  intros (_ & Hid & _) Hin. rewrite Forall_forall in Hid. by apply (Hid (k, r)).
Qed.

Lemma well_formed_ensure_animal animal now self :
  well_formed (_state self) -> well_formed (_state (Storage.ensure_animal animal now self).2).
Proof.
  intros (Hik & Hid & Hak & Haid & Hrk). unfold Storage.ensure_animal.
  destruct (Dict.get _ animal) as [record|] eqn:Hget; simpl; [done|].
  repeat split; simpl; try done.
  - by apply dict_setitem_NoDup.
  - rewrite (dict_setitem_new _ _ _ Hget). apply Forall_app. split; [done|].
    by constructor.
Qed.

Lemma well_formed_add_image animal filename path size fresh now self :
  well_formed (_state self) ->
  well_formed (_state (Storage.add_image animal filename path size fresh now self).2).
Proof.
  intros (Hik & Hid & Hak & Haid & Hrk). unfold Storage.add_image. simpl.
  repeat split; simpl; try done.
  - by apply dict_setitem_NoDup.
  - apply Forall_forall. intros [k r] Hin.
    apply dict_setitem_elem_of in Hin as [[-> ->]|[_ Hin]]; [done| |done].
    rewrite Forall_forall in Hid. by apply (Hid (k, r)).
Qed.

Lemma well_formed_remove_image id self :
  well_formed (_state self) -> well_formed (_state (Storage.remove_image id self).2).
Proof.
  intros (Hik & Hid & Hak & Haid & Hrk). unfold Storage.remove_image.
  destruct (Dict.get _ id) as [record|] eqn:Hget; simpl; [|done].
  repeat split; simpl; try done.
  - by apply dict_remove_NoDup.
  - apply Forall_forall. intros [k r] Hin.
    apply dict_remove_elem_of in Hin as [_ Hin]; [|done].
    rewrite Forall_forall in Hid. by apply (Hid (k, r)).
Qed.

Lemma well_formed_move_image id target now self :
  well_formed (_state self) -> well_formed (_state (Storage.move_image id target now self).2).
Proof.
  intros (Hik & Hid & Hak & Haid & Hrk). unfold Storage.move_image.
  destruct (Dict.get _ id) as [record|] eqn:Hget; simpl; [|done].
  repeat split; simpl; try done.
  - by apply dict_setitem_NoDup.
  - apply Forall_forall. intros [k r] Hin.
    apply dict_setitem_elem_of in Hin as [[-> ->]|[_ Hin]]; [| |done].
    + simpl. apply dict_get_Some in Hget.
      rewrite Forall_forall in Hid. by apply (Hid (id, record)).
    + rewrite Forall_forall in Hid. by apply (Hid (k, r)).
Qed.

Lemma well_formed_record_analysis result self :
  well_formed (_state self) -> well_formed (_state (Storage.record_analysis result self)).
Proof.
  intros (Hik & Hid & Hak & Haid & Hrk). unfold Storage.record_analysis.
  repeat split; simpl; try done. by apply dict_setitem_NoDup.
Qed.

(** X6. The store keeps its books in order: starting from a missing state
    file, and through every method that changes the state, each image stays
    filed under its own identifier, each animal under its own, and no
    identifier is filed twice. *)
Theorem store_stays_well_formed (self : StateManager) :
  well_formed (_state (Storage.__init__ None))
  ∧ (well_formed (_state self) ->
     (∀ animal now,
        well_formed (_state (Storage.ensure_animal animal now self).2))
     ∧ (∀ animal filename path size fresh_id now,
          well_formed
            (_state (Storage.add_image animal filename path size fresh_id now
                       self).2))
     ∧ (∀ image_id, well_formed (_state (Storage.remove_image image_id self).2))
     ∧ (∀ image_id to_animal_id now,
          well_formed (_state (Storage.move_image image_id to_animal_id now self).2))
     ∧ (∀ result, well_formed (_state (Storage.record_analysis result self)))
     ∧ well_formed (_state (Storage.clear_results self))).
Proof.
  split.
  { repeat split; simpl; constructor. }
  intros Hwf. split; [|split; [|split; [|split; [|split]]]].
  - intros. by apply well_formed_ensure_animal.
  - intros. by apply well_formed_add_image.
  - intros. by apply well_formed_remove_image.
  - intros. by apply well_formed_move_image.
  - intros. by apply well_formed_record_analysis.
  - destruct Hwf as (Hik & Hid & Hak & Haid & Hrk).
    unfold Storage.clear_results. repeat split; simpl; try done. constructor.
Qed.

Lemma store_stays_well_formed_witness :
  well_formed
    (_state (Storage.move_image "7f" "mouse-2" "2024-03-01T10:00:00"
               (Storage.add_image "mouse-1" "a.png" "/srv/uploads/mouse-1/a.png" 10
                  "7f" "2024-02-01T09:00:00" (Storage.__init__ None)).2).2).
Proof.
  destruct (store_stays_well_formed (Storage.__init__ None)) as [Hinit Hfirst].
  destruct (Hfirst Hinit) as (_ & Hadd & _).
  destruct (store_stays_well_formed
              (Storage.add_image "mouse-1" "a.png" "/srv/uploads/mouse-1/a.png" 10
                 "7f" "2024-02-01T09:00:00" (Storage.__init__ None)).2) as [_ Hnext].
  destruct (Hnext (Hadd _ _ _ _ _ _)) as (_ & _ & _ & Hmove & _).
  apply Hmove.
Defined.

(** X7. Nothing acknowledged is lost on restart: after construction and after
    every method, loading [state.json] afresh gives the state the manager
    holds in memory. Methods that change nothing (an animal already known, an
    image identifier not found) write nothing. *)
Theorem state_file_follows_memory (self : StateManager) :
  (∀ file, synced (Storage.__init__ file))
  ∧ (synced self ->
     (∀ animal_id now, synced (Storage.ensure_animal animal_id now self).2)
     ∧ (∀ animal filename path size fresh_id now,
          synced (Storage.add_image animal filename path size fresh_id now self).2)
     ∧ (∀ image_id, synced (Storage.remove_image image_id self).2)
     ∧ (∀ image_id to_animal_id now,
          synced (Storage.move_image image_id to_animal_id now self).2)
     ∧ (∀ result, synced (Storage.record_analysis result self))
     ∧ synced (Storage.clear_results self))
  ∧ (∀ animal_id now record,
       Dict.get (st_animals (_state self)) animal_id = Some record ->
       (Storage.ensure_animal animal_id now self).2 = self)
  ∧ (∀ image_id,
       Dict.get (st_images (_state self)) image_id = None ->
       (Storage.remove_image image_id self).2 = self
       ∧ ∀ to_animal_id now,
           (Storage.move_image image_id to_animal_id now self).2 = self).
Proof.
  split; [done|]. split; [|split].
  - intros Hsync. repeat split; try done.
    + intros a now. unfold Storage.ensure_animal. by destruct (Dict.get _ a).
    + intros id. unfold Storage.remove_image. by destruct (Dict.get _ id).
    + intros id to now. unfold Storage.move_image. by destruct (Dict.get _ id).
  - intros a now record Hget. unfold Storage.ensure_animal. by rewrite Hget.
  - intros id Hget. unfold Storage.remove_image, Storage.move_image. by rewrite Hget.
Qed.

Lemma state_file_follows_memory_witness :
  synced (Storage.remove_image "7f"
            (Storage.add_image "mouse-1" "a.png" "/srv/uploads/mouse-1/a.png" 10
               "7f" "2024-02-01T09:00:00" (Storage.__init__ None)).2).2.
Proof.
  destruct (state_file_follows_memory (Storage.__init__ None)) as (Hinit & Hfirst & _).
  destruct (Hfirst (Hinit None)) as (_ & Hadd & _).
  destruct (state_file_follows_memory
              (Storage.add_image "mouse-1" "a.png" "/srv/uploads/mouse-1/a.png" 10
                 "7f" "2024-02-01T09:00:00" (Storage.__init__ None)).2) as (_ & Hnext & _).
  destruct (Hnext (Hadd _ _ _ _ _ _)) as (_ & _ & Hremove & _).
  apply Hremove.
Defined.

Lemma get_images_get (animal : string) (self : StateManager) (r : ImageRecord) :
  well_formed (_state self) ->
  r ∈ Storage.get_images_for_animal animal self ↔
  animal_id r = animal ∧ Dict.get (st_images (_state self)) (image_id r) = Some r.
Proof.
  intros Hwf. pose proof Hwf as (Hkeys & _).
  rewrite elem_of_get_images. split.
  - intros [Ha [k Hin]]. split; [done|].
    rewrite (well_formed_image _ _ _ Hwf Hin). by apply dict_elem_of_get.
  - intros [Ha Hget]. split; [done|]. exists (image_id r).
    by apply dict_get_Some.
Qed.

Lemma get_images_NoDup (animal : string) (self : StateManager) :
  well_formed (_state self) ->
  NoDup (image_id <$> Storage.get_images_for_animal animal self).
Proof.
  intros (Hkeys & Hid & _).
  unfold Storage.get_images_for_animal. rewrite sort_by_Permutation.
  assert (image_id <$> Dict.values (st_images (_state self))
          = Dict.keys (st_images (_state self))) as Hids.
  { unfold Dict.values, Dict.keys. clear Hkeys.
    induction Hid as [|[k r] d Hk _ IH]; [done|]. csimpl in *. by f_equal. }
  rewrite <- Hids in Hkeys. revert Hkeys.
  generalize (Dict.values (st_images (_state self))). clear.
  induction l as [|r l IH]; [done|]. rewrite fmap_cons, NoDup_cons.
  intros [Hr Hl]. rewrite filter_cons. destruct (decide _); [|by apply IH].
  rewrite fmap_cons. apply NoDup_cons. split; [|by apply IH].
  intros Hin. apply Hr. apply list_elem_of_fmap in Hin as [r' [-> Hin]].
  apply list_elem_of_fmap. exists r'. split; [done|].
  by apply list_elem_of_filter in Hin as [_ ?].
Qed.

(** X8. [Storage.get_images_for_animal] lists exactly the stored images whose
    [animal_id] is the requested one, each once, in ascending order of
    [uploaded_at]; images uploaded at the same instant keep the order in which
    they were stored. *)
Theorem images_of_an_animal_are_listed_once_oldest_first
    (animal : string) (self : StateManager) :
  well_formed (_state self) ->
  (∀ r, r ∈ Storage.get_images_for_animal animal self ↔
        animal_id r = animal
        ∧ Dict.get (st_images (_state self)) (image_id r) = Some r)
  ∧ NoDup (image_id <$> Storage.get_images_for_animal animal self)
  ∧ Sorted (key_le uploaded_at) (Storage.get_images_for_animal animal self)
  ∧ ∀ instant,
      filter (fun r => uploaded_at r = instant)
             (Storage.get_images_for_animal animal self)
      = filter (fun r => uploaded_at r = instant)
          (filter (fun r => animal_id r = animal)
             (Dict.values (st_images (_state self)))).
Proof.
  intros Hwf. split; [|split; [|split]].
  - intros r. by apply get_images_get.
  - by apply get_images_NoDup.
  - apply sort_by_Sorted.
  - intros instant. apply sort_by_stable.
Qed.

Lemma images_of_an_animal_are_listed_once_oldest_first_witness :
  Sorted (key_le uploaded_at)
    (Storage.get_images_for_animal "mouse-1"
       (Storage.add_image "mouse-1" "b.png" "/srv/uploads/mouse-1/b.png" 12
          "a1" "2024-02-01T08:00:00"
          (Storage.add_image "mouse-1" "a.png" "/srv/uploads/mouse-1/a.png" 10
             "7f" "2024-02-01T09:00:00" (Storage.__init__ None)).2).2).
Proof.
  apply (images_of_an_animal_are_listed_once_oldest_first "mouse-1").
  repeat split; simpl; compute_done.
Defined.

(** X9. Storing an upload under a fresh identifier adds exactly that record to
    the listing of its animal and leaves every other listing as it was. *)
Theorem add_image_extends_one_listing
    (animal filename path : string) (size : Z) (fresh_id now : string)
    (self : StateManager) :
  Dict.get (st_images (_state self)) fresh_id = None ->
  let record := (Storage.add_image animal filename path size fresh_id now self).1 in
  let self' := (Storage.add_image animal filename path size fresh_id now self).2 in
  record = {| image_id := fresh_id; animal_id := animal;
              original_filename := filename; stored_path := path;
              size := size; uploaded_at := now |}
  ∧ Dict.get (st_images (_state self')) fresh_id = Some record
  ∧ (∀ r, r ∈ Storage.get_images_for_animal animal self' ↔
          r = record ∨ r ∈ Storage.get_images_for_animal animal self)
  ∧ (∀ other, other ≠ animal ->
       Storage.get_images_for_animal other self'
       = Storage.get_images_for_animal other self)
  ∧ st_animals (_state self') = st_animals (_state self)
  ∧ st_results (_state self') = st_results (_state self).
Proof.
  intros Hfresh record self'. subst record self'. unfold Storage.add_image. simpl.
  split; [done|]. split; [apply dict_get_setitem|].
  rewrite (dict_setitem_new _ _ _ Hfresh).
  split; [|split; [|done]].
  - intros r. rewrite !elem_of_get_images. simpl.
    setoid_rewrite elem_of_app. setoid_rewrite list_elem_of_singleton. split.
    + intros [Ha [k [Hin|Heq]]]; [right; split; [done|by exists k]|].
      left. by injection Heq as _ ->.
    + intros [->|[Ha [k Hin]]].
      * split; [done|]. exists fresh_id. by right.
      * split; [done|]. exists k. by left.
  - intros other Hother. unfold Storage.get_images_for_animal. simpl.
    unfold Dict.values. rewrite fmap_app, filter_app. simpl.
    rewrite filter_cons, decide_False by (simpl; congruence).
    by rewrite filter_nil, app_nil_r.
Qed.

Lemma add_image_extends_one_listing_witness :
  Storage.get_images_for_animal "mouse-2"
    (Storage.add_image "mouse-1" "a.png" "/srv/uploads/mouse-1/a.png" 10
       "7f" "2024-02-01T09:00:00" (Storage.__init__ None)).2
  = Storage.get_images_for_animal "mouse-2" (Storage.__init__ None).
Proof.
  apply (add_image_extends_one_listing "mouse-1" "a.png"
           "/srv/uploads/mouse-1/a.png" 10 "7f" "2024-02-01T09:00:00"
           (Storage.__init__ None)); [reflexivity|done].
Defined.

(** X10. Removing a stored image returns its record and takes exactly that
    record out of the listings; removing an unknown identifier returns [None]
    and changes nothing, in memory or on disk. *)
Theorem remove_image_drops_exactly_one (id : string) (self : StateManager) :
  well_formed (_state self) ->
  (Dict.get (st_images (_state self)) id = None ->
     Storage.remove_image id self = (None, self))
  ∧ (∀ record,
       Dict.get (st_images (_state self)) id = Some record ->
       (Storage.remove_image id self).1 = Some record
       ∧ Dict.get (st_images (_state (Storage.remove_image id self).2)) id = None
       ∧ (∀ other, other ≠ id ->
            Dict.get (st_images (_state (Storage.remove_image id self).2)) other
            = Dict.get (st_images (_state self)) other)
       ∧ (∀ a r,
            r ∈ Storage.get_images_for_animal a (Storage.remove_image id self).2 ↔
            r ≠ record ∧ r ∈ Storage.get_images_for_animal a self)
       ∧ st_animals (_state (Storage.remove_image id self).2)
         = st_animals (_state self)
       ∧ st_results (_state (Storage.remove_image id self).2)
         = st_results (_state self)).
Proof.
  intros Hwf. pose proof Hwf as (Hkeys & _).
  split; unfold Storage.remove_image.
  { by intros ->. }
  intros record Hget. rewrite Hget. simpl.
  split; [done|]. split; [by apply dict_get_remove|].
  split; [intros other Hne; by apply dict_get_remove_ne|].
  split; [|done].
  intros a r. rewrite !elem_of_get_images. simpl.
  apply dict_get_Some in Hget as Hin.
  pose proof (well_formed_image _ _ _ Hwf Hin) as Hrid. split.
  - intros [Ha [k Hk]]. apply dict_remove_elem_of in Hk as [Hne Hk]; [|done].
    split; [|split; [done|by exists k]].
    intros ->. apply Hne. by rewrite <- (well_formed_image _ _ _ Hwf Hk).
  - intros [Hne [Ha [k Hk]]]. split; [done|]. exists k.
    apply dict_remove_elem_of; [done|]. split; [|done].
    intros ->. apply Hne.
    apply dict_elem_of_get in Hk; [|done]. apply dict_elem_of_get in Hin; [|done].
    congruence.
Qed.

Lemma remove_image_drops_exactly_one_witness :
  let record :=
    {| image_id := "7f"; animal_id := "mouse-1"; original_filename := "second.png";
       stored_path := "/data/block.png"; size := 72;
       uploaded_at := "2024-02-01T09:00:00" |} in
  ((Storage.remove_image "7f" Sample.store).1 = Some record
   ∧ Dict.get (st_images (_state (Storage.remove_image "7f" Sample.store).2)) "7f"
     = None
   ∧ (∀ other, other ≠ "7f" ->
        Dict.get (st_images (_state (Storage.remove_image "7f" Sample.store).2)) other
        = Dict.get (st_images (_state Sample.store)) other)
   ∧ (∀ a r,
        r ∈ Storage.get_images_for_animal a (Storage.remove_image "7f" Sample.store).2 ↔
        r ≠ record ∧ r ∈ Storage.get_images_for_animal a Sample.store)
   ∧ st_animals (_state (Storage.remove_image "7f" Sample.store).2)
     = st_animals (_state Sample.store)
   ∧ st_results (_state (Storage.remove_image "7f" Sample.store).2)
     = st_results (_state Sample.store))
  ∧ Storage.remove_image "00" Sample.store = (None, Sample.store).
Proof.
  intros record. split.
  - refine (proj2 (remove_image_drops_exactly_one "7f" Sample.store _) record _).
    + repeat split; simpl; compute_done.
    + reflexivity.
  - apply (remove_image_drops_exactly_one "00" Sample.store).
    + repeat split; simpl; compute_done.
    + reflexivity.
Defined.

(** X11. Moving a stored image files it under the target animal and nowhere
    else: the returned record differs from the stored one only in [animal_id]
    (and in [uploaded_at] when that was empty), it appears in the target
    animal's listing, and every other listing loses it and is otherwise
    unchanged. An unknown identifier returns [None] and changes nothing. *)
Theorem move_image_refiles_one_image
    (id target now : string) (self : StateManager) :
  well_formed (_state self) ->
  (Dict.get (st_images (_state self)) id = None ->
     Storage.move_image id target now self = (None, self))
  ∧ (∀ record,
       Dict.get (st_images (_state self)) id = Some record ->
       let moved :=
         {| image_id := image_id record;
            animal_id := target;
            original_filename := original_filename record;
            stored_path := stored_path record;
            size := size record;
            uploaded_at := if bool_decide (uploaded_at record = EmptyString)
                           then now else uploaded_at record |} in
       (Storage.move_image id target now self).1 = Some moved
       ∧ Dict.get (st_images (_state (Storage.move_image id target now self).2)) id
         = Some moved
       ∧ (∀ r,
            r ∈ Storage.get_images_for_animal target
                  (Storage.move_image id target now self).2 ↔
            r = moved ∨ (r ≠ record ∧ r ∈ Storage.get_images_for_animal target self))
       ∧ (∀ a r, a ≠ target ->
            r ∈ Storage.get_images_for_animal a
                  (Storage.move_image id target now self).2 ↔
            r ≠ record ∧ r ∈ Storage.get_images_for_animal a self)).
Proof.
  intros Hwf. pose proof Hwf as (Hkeys & _).
  split; unfold Storage.move_image.
  { by intros ->. }
  intros record Hget. rewrite Hget. simpl.
  split; [done|]. split; [apply dict_get_setitem|].
  apply dict_get_Some in Hget as Hin.
  pose proof (well_formed_image _ _ _ Hwf Hin) as Hrid.
  assert (∀ k r, (k, r) ∈ st_images (_state self) -> r = record ↔ k = id) as Hsame.
  { intros k r Hk. split.
    - intros ->. by rewrite <- (well_formed_image _ _ _ Hwf Hk).
    - intros ->. apply dict_elem_of_get in Hk; [|done].
      apply dict_elem_of_get in Hin; [|done]. congruence. }
  split.
  - intros r. rewrite !elem_of_get_images. simpl. split.
    + intros [Ha [k Hk]].
      apply dict_setitem_elem_of in Hk as [[-> ->]|[Hne Hk]]; [by left| |done].
      right. split; [by rewrite (Hsame _ _ Hk)|]. split; [done|by exists k].
    + intros [->|[Hne [Ha [k Hk]]]].
      * split; [done|]. exists id. apply dict_setitem_elem_of; [done|]. by left.
      * split; [done|]. exists k. apply dict_setitem_elem_of; [done|]. right.
        split; [|done]. by rewrite <- (Hsame _ _ Hk).
  - intros a r Ha. rewrite !elem_of_get_images. simpl. split.
    + intros [Hra [k Hk]].
      apply dict_setitem_elem_of in Hk as [[-> ->]|[Hne Hk]]; [| |done].
      { simpl in Hra. congruence. }
      split; [by rewrite (Hsame _ _ Hk)|]. split; [done|by exists k].
    + intros [Hne [Hra [k Hk]]]. split; [done|]. exists k.
      apply dict_setitem_elem_of; [done|]. right.
      split; [|done]. by rewrite <- (Hsame _ _ Hk).
Qed.

Lemma move_image_refiles_one_image_witness :
  let record :=
    {| image_id := "7f"; animal_id := "mouse-1"; original_filename := "second.png";
       stored_path := "/data/block.png"; size := 72;
       uploaded_at := "2024-02-01T09:00:00" |} in
  let moved :=
    {| image_id := "7f"; animal_id := "mouse-2"; original_filename := "second.png";
       stored_path := "/data/block.png"; size := 72;
       uploaded_at := "2024-02-01T09:00:00" |} in
  let self' :=
    (Storage.move_image "7f" "mouse-2" "2024-03-01T10:00:00" Sample.store).2 in
  ((Storage.move_image "7f" "mouse-2" "2024-03-01T10:00:00" Sample.store).1
   = Some moved
   ∧ Dict.get (st_images (_state self')) "7f" = Some moved
   ∧ (∀ r,
        r ∈ Storage.get_images_for_animal "mouse-2" self' ↔
        r = moved
        ∨ (r ≠ record ∧ r ∈ Storage.get_images_for_animal "mouse-2" Sample.store))
   ∧ (∀ a r, a ≠ "mouse-2" ->
        r ∈ Storage.get_images_for_animal a self' ↔
        r ≠ record ∧ r ∈ Storage.get_images_for_animal a Sample.store))
  ∧ Storage.move_image "00" "mouse-2" "2024-03-01T10:00:00" Sample.store
    = (None, Sample.store).
Proof.
  intros record moved self'. split.
  - refine (proj2 (move_image_refiles_one_image "7f" "mouse-2"
                     "2024-03-01T10:00:00" Sample.store _) record _).
    + repeat split; simpl; compute_done.
    + reflexivity.
  - apply (move_image_refiles_one_image "00" "mouse-2" "2024-03-01T10:00:00"
             Sample.store).
    + repeat split; simpl; compute_done.
    + reflexivity.
Defined.

Lemma ensure_animal_images (animal now : string) (self : StateManager) :
  st_images (_state (Storage.ensure_animal animal now self).2) = st_images (_state self).
Proof. unfold Storage.ensure_animal. by destruct (Dict.get _ animal). Qed.

Lemma ensure_animal_registered (animal now : string) (self : StateManager) :
  Dict.get (st_animals (_state (Storage.ensure_animal animal now self).2)) animal
  = Some (Storage.ensure_animal animal now self).1.
Proof.
  unfold Storage.ensure_animal.
  destruct (Dict.get (st_animals (_state self)) animal) as [known|] eqn:Hget;
    simpl; [done|].
  apply dict_get_setitem.
Qed.

(** X12. Registering an animal is idempotent: the first call creates the
    record, every later call returns that same record, with the creation time
    of the first call, and changes nothing; no other animal, image or result
    is touched. *)
Theorem ensure_animal_is_idempotent (animal now later : string)
    (self : StateManager) :
  Storage.ensure_animal animal later (Storage.ensure_animal animal now self).2
    = Storage.ensure_animal animal now self
  ∧ Dict.get (st_animals (_state (Storage.ensure_animal animal now self).2)) animal
    = Some (Storage.ensure_animal animal now self).1
  ∧ (Storage.ensure_animal animal now self).1
    = match Dict.get (st_animals (_state self)) animal with
      | Some known => known
      | None => {| an_animal_id := animal; an_created_at := now |}
      end
  ∧ (∀ other, other ≠ animal ->
       Dict.get (st_animals (_state (Storage.ensure_animal animal now self).2)) other
       = Dict.get (st_animals (_state self)) other)
  ∧ st_images (_state (Storage.ensure_animal animal now self).2)
    = st_images (_state self)
  ∧ st_results (_state (Storage.ensure_animal animal now self).2)
    = st_results (_state self).
Proof.
  assert (∀ known, Dict.get (st_animals (_state self)) animal = Some known ->
            Storage.ensure_animal animal now self = (known, self)) as Hknown.
  { intros known Hget. unfold Storage.ensure_animal. by rewrite Hget. }
  destruct (Dict.get (st_animals (_state self)) animal) as [known|] eqn:Hget.
  - rewrite (Hknown known eq_refl). simpl.
    split; [unfold Storage.ensure_animal; by rewrite Hget|]. done.
  - assert (Storage.ensure_animal animal now self =
              ({| an_animal_id := animal; an_created_at := now |},
               Storage._save (Storage.set_animals self
                        (Dict.setitem (st_animals (_state self)) animal
                           {| an_animal_id := animal; an_created_at := now |}))))
      as ->.
    { unfold Storage.ensure_animal. by rewrite Hget. }
    simpl. split.
    { unfold Storage.ensure_animal. simpl. by rewrite dict_get_setitem. }
    split; [apply dict_get_setitem|]. split; [done|].
    split; [|done]. intros other Hne. by apply dict_get_setitem_ne.
Qed.

(** ** Stored results *)

(** Settles the key comparisons of a lookup in a literal dictionary. *)
Ltac decide_keys :=
  repeat first [rewrite decide_True by done | rewrite decide_False by done].

Section Results.
Context `{literals : Literals}.

Lemma collect_fmap {A B C} (f : Z -> B -> Eval C) (g : A -> B) (h : A -> C)
    (items : list A) (start : Z) :
  (∀ i x, f i (g x) = Value (h x)) ->
  collect f start (g <$> items) = Value (h <$> items).
Proof.
  intros Hf. revert start. induction items as [|x items IH]; intros start; [done|].
  csimpl. by rewrite Hf, IH.
Qed.

Lemma collect_lookup {A B} (f : Z -> A -> Eval B) (items : list A) (start : Z)
    (out : list B) :
  collect f start items = Value out ->
  length out = length items
  ∧ ∀ (i : nat) x y, items !! i = Some x -> out !! i = Some y ->
      f (start + Z.of_nat i) x = Value y.
Proof.
  revert start out. induction items as [|x items IH]; intros start out; simpl.
  - intros [= <-]. split; [done|]. by intros i x y ?.
  - destruct (f start x) as [y|] eqn:Hx; [|done]. simpl.
    destruct (collect f (start + 1) items) as [ys|] eqn:Hrest; [|done]. simpl.
    intros [= <-]. apply IH in Hrest as [Hlen Hrest].
    split; [simpl; by f_equal|].
    intros [|i] x' y'; simpl.
    + intros [= <-] [= <-]. by rewrite Z.add_0_r.
    + intros Hi Ho. rewrite <- (Hrest i x' y' Hi Ho). f_equal. lia.
Qed.

Lemma unsigned_zero_or (x : float) :
  Builtins.float (Builtins.or_ (JFloat x) (JFloat 0)) = Value (unsigned_zero x).
Proof.
  unfold Builtins.or_, unsigned_zero. simpl. by destruct (x =? 0)%float.
Qed.

Lemma coerce_asdict_line (line : LineResult) (default_number : Z) :
  Storage._coerce_line (asdict_line line) default_number = Value (reread_line line).
Proof.
  unfold Storage._coerce_line, asdict_line. cbn [Builtins.get Dict.get].
  decide_keys.
  cbn [default from_option Datatypes.id mbind Eval_bind]. rewrite !unsigned_zero_or.
  cbn [mbind Eval_bind Builtins.float Builtins.int].
  destruct line as [n hi vi hl vl total [mean|]]; reflexivity.
Qed.

Lemma read_asdict_image (image : AnalysisImageResult) (index : Z) :
  (image_id ← Builtins.get (asdict_image image) "image_id" (JStr EmptyString);
   image_number ← Builtins.get (asdict_image image) "image_number" (JInt (index + 1))
                  ≫= Builtins.int;
   name ← Builtins.get (asdict_image image) "name" (JStr EmptyString);
   average_mli_um ← Builtins.get (asdict_image image) "average_mli_um" JNull
                    ≫= Storage.unless_none Builtins.float;
   processed_image_base64 ←
     Builtins.get (asdict_image image) "processed_image_base64" (JStr EmptyString);
   threshold ← Builtins.get (asdict_image image) "threshold_image_base64" JNull;
   fallback ←
     Builtins.get (asdict_image image) "processed_image_base64" (JStr EmptyString);
   lines ← Builtins.get (asdict_image image) "lines" (JList []) ≫= Builtins.iter;
   lines ←
     collect (fun line_index line => Storage._coerce_line line (line_index + 1)) 0 lines;
   Value {| sir_image_id := image_id;
            sir_image_number := image_number;
            sir_name := name;
            sir_average_mli_um := average_mli_um;
            sir_processed_image_base64 := processed_image_base64;
            sir_threshold_image_base64 := Builtins.or_ threshold fallback;
            sir_lines := lines |})
  = Value (reread_image image).
Proof.
  unfold asdict_image. cbn [Builtins.get Dict.get].
  decide_keys.
  cbn [default from_option Datatypes.id mbind Eval_bind Builtins.int Builtins.iter].
  rewrite (collect_fmap _ asdict_line reread_line)
    by (intros; apply coerce_asdict_line).
  cbn [mbind Eval_bind]. unfold reread_image, Builtins.or_. cbn [Builtins.truthy].
  destruct image as [id n name [avg|] processed threshold lines]; simpl;
    by destruct (bool_decide (threshold = EmptyString)).
Qed.

Lemma record_then_read (result : AnalysisResult) (now : string)
    (self : StateManager) :
  Storage.get_result_for_animal (res_animal_id result) now
    (Storage.record_analysis result self)
  = Value (Some (reread_result result)).
Proof.
  unfold Storage.get_result_for_animal, Storage.record_analysis. simpl.
  rewrite dict_get_setitem. cbn [Builtins.truthy negb bool_decide].
  cbn [Builtins.getitem Builtins.get Dict.get].
  decide_keys.
  cbn [default from_option Datatypes.id mbind Eval_bind Builtins.iter].
  rewrite (collect_fmap _ asdict_image reread_image)
    by (intros; apply read_asdict_image).
  done.
Qed.

(** X13. Reading a recorded analysis back returns what was recorded, up to two
    adjustments the readers make: a line length of negative zero is read as
    0.0, and an empty threshold overlay is replaced by the processed overlay.
    The result of any other animal is read as before. *)
Theorem recorded_analysis_reads_back (result : AnalysisResult) (now : string)
    (self : StateManager) :
  Storage.get_result_for_animal (res_animal_id result) now
    (Storage.record_analysis result self)
  = Value (Some (reread_result result))
  ∧ (∀ other,
       other ≠ res_animal_id result ->
       Storage.get_result_for_animal other now (Storage.record_analysis result self)
       = Storage.get_result_for_animal other now self)
  ∧ st_images (_state (Storage.record_analysis result self)) = st_images (_state self)
  ∧ st_animals (_state (Storage.record_analysis result self))
    = st_animals (_state self).
Proof.
  split; [apply record_then_read|]. split; [|done].
  intros other Hne. unfold Storage.get_result_for_animal, Storage.record_analysis. simpl.
  by rewrite dict_get_setitem_ne.
Qed.

(** X14. The listing of all results and the look-up of one animal agree up
    to the time stamp they make up.  When [Storage.get_results] returns, it
    returns one result per stored entry, in the order of the entries, and
    [Storage.get_result_for_animal] on the key of an entry returns the
    animal and the images listed for that entry.  A stored [generated_at]
    is returned by both; where the record has none, each reader fills in
    its own clock reading, so the two results differ there whenever the
    clock has moved on. *)
Theorem listed_results_match_single_lookups (clock : Z -> string)
    (self : StateManager) (all : list StoredResult) :
  NoDup (Dict.keys (st_results (_state self))) ->
  Storage.get_results clock self = Value all ->
  length all = length (st_results (_state self))
  ∧ ∀ (i : nat) (key : string) (record : Json),
      st_results (_state self) !! i = Some (key, record) ->
      ∃ entries res,
        record = JDict entries
        ∧ all !! i = Some res
        ∧ sr_generated_at res
          = default (JStr (clock (Z.of_nat i))) (Dict.get entries "generated_at")
        ∧ ∀ now,
            Storage.get_result_for_animal key now self
            = Value (Some {| sr_animal_id := sr_animal_id res;
                             sr_generated_at :=
                               default (JStr now) (Dict.get entries "generated_at");
                             sr_images := sr_images res |}).
Proof.
  intros Hkeys Hall. unfold Storage.get_results in Hall.
  apply collect_lookup in Hall as [Hlen Hall].
  unfold Dict.values in Hlen, Hall. rewrite length_fmap in Hlen.
  split; [done|]. intros i key record Hi.
  destruct (lookup_lt_is_Some_2 all i) as [res Hres].
  { rewrite Hlen. by apply lookup_lt_Some in Hi. }
  specialize (Hall i record res). rewrite list_lookup_fmap, Hi in Hall.
  specialize (Hall eq_refl Hres). cbv beta in Hall. rewrite Z.add_0_l in Hall.
  destruct record as [| | | | | |entries]; try done.
  exists entries, res. split; [done|]. split; [done|].
  unfold Storage.get_result_for_animal.
  rewrite (dict_elem_of_get _ key _ Hkeys) by (by eapply list_elem_of_lookup_2).
  destruct entries as [|entry entries]; [done|].
  cbn [Builtins.truthy negb bool_decide decide_rel]. rewrite bool_decide_false by done.
  cbn [negb]. revert Hall.
  destruct (Builtins.getitem _ "animal_id") as [a|]; [|done].
  cbn [mbind Eval_bind].
  destruct (Builtins.get _ "images" _ ≫= Builtins.iter) as [images|];
    [|by cbn [mbind Eval_bind Builtins.get]].
  cbn [mbind Eval_bind].
  destruct (collect _ 0 images) as [read|];
    [|by cbn [mbind Eval_bind Builtins.get]].
  cbn [mbind Eval_bind Builtins.get]. by intros [= <-].
Qed.

(** X15. How [Storage._coerce_line] fills in what a stored line lacks: a
    missing line number becomes [default_number] (the readers pass the
    position of the line, from 1), a missing count 0, a length that is
    missing, null or zero 0.0, a missing or null total the sum of the two
    lengths as read, and a missing or null MLI [None]. Anything that is not
    a dictionary is refused with [AttributeError]. *)
Theorem coerce_line_fills_the_gaps (data : Json) (default_number : Z) :
  (∀ entries line,
     data = JDict entries ->
     Storage._coerce_line data default_number = Value line ->
     (Dict.get entries "line_number" = None -> lr_line_number line = default_number)
     ∧ (Dict.get entries "horizontal_intercepts" = None ->
          lr_horizontal_intercepts line = 0)
     ∧ (Dict.get entries "vertical_intercepts" = None ->
          lr_vertical_intercepts line = 0)
     ∧ (from_option Builtins.truthy false (Dict.get entries "horizontal_length_um")
          = false -> lr_horizontal_length_um line = 0%float)
     ∧ (from_option Builtins.truthy false (Dict.get entries "vertical_length_um")
          = false -> lr_vertical_length_um line = 0%float)
     ∧ (default JNull (Dict.get entries "total_line_length_um") = JNull ->
          lr_total_line_length_um line
          = (lr_horizontal_length_um line + lr_vertical_length_um line)%float)
     ∧ (default JNull (Dict.get entries "mean_linear_intercept_um") = JNull ->
          lr_mean_linear_intercept_um line = None))
  ∧ ((∀ entries, data ≠ JDict entries) ->
     Storage._coerce_line data default_number = Throw AttributeError).
Proof.
  split.
  - intros entries line -> Hline. unfold Storage._coerce_line in Hline.
    cbn [Builtins.get mbind Eval_bind] in Hline.
    destruct (Builtins.float (Builtins.or_ (default _ (Dict.get entries "horizontal_length_um")) _))
      as [h|] eqn:Hh; [|done].
    cbn [mbind Eval_bind] in Hline.
    destruct (Builtins.float (Builtins.or_ (default _ (Dict.get entries "vertical_length_um")) _))
      as [v|] eqn:Hv; [|done].
    cbn [mbind Eval_bind] in Hline.
    destruct (match default JNull (Dict.get entries "total_line_length_um") with
              | JNull => _ | _ => _ end) as [total|] eqn:Htotal; [|done].
    cbn [mbind Eval_bind] in Hline.
    destruct (Builtins.int (default _ (Dict.get entries "line_number")))
      as [n|] eqn:Hn; [|done].
    cbn [mbind Eval_bind] in Hline.
    destruct (Builtins.int (default _ (Dict.get entries "horizontal_intercepts")))
      as [hi|] eqn:Hhi; [|done].
    cbn [mbind Eval_bind] in Hline.
    destruct (Builtins.int (default _ (Dict.get entries "vertical_intercepts")))
      as [vi|] eqn:Hvi; [|done].
    cbn [mbind Eval_bind] in Hline.
    destruct (Storage.unless_none _ (default _ (Dict.get entries "mean_linear_intercept_um")))
      as [mean|] eqn:Hmean; [|done].
    cbn [mbind Eval_bind] in Hline. injection Hline as <-. simpl.
    repeat split.
    + intros Hnone. rewrite Hnone in Hn. simpl in Hn. congruence.
    + intros Hnone. rewrite Hnone in Hhi. simpl in Hhi. congruence.
    + intros Hnone. rewrite Hnone in Hvi. simpl in Hvi. congruence.
    + intros Hfalsy. unfold Builtins.or_ in Hh.
      destruct (Dict.get entries "horizontal_length_um") as [x|]; simpl in *.
      * rewrite Hfalsy in Hh. simpl in Hh. congruence.
      * vm_compute in Hh. congruence.
    + intros Hfalsy. unfold Builtins.or_ in Hv.
      destruct (Dict.get entries "vertical_length_um") as [x|]; simpl in *.
      * rewrite Hfalsy in Hv. simpl in Hv. congruence.
      * vm_compute in Hv. congruence.
    + intros Hnull. rewrite Hnull in Htotal. congruence.
    + intros Hnull. rewrite Hnull in Hmean. simpl in Hmean. congruence.
  - intros Hother. destruct data; try done. by destruct (Hother entries).
Qed.

End Results.

(** ** The spreadsheet export *)

Lemma cell_lookup (ws : Worksheet) (row column : Z) (value : option CellValue)
    (r c : Z) :
  cells (Excel.cell ws row column value) !! (r, c) =
    match value with
    | Some v => if decide ((row, column) = (r, c)) then Some v else cells ws !! (r, c)
    | None => cells ws !! (r, c)
    end.
Proof. destruct value; [apply lookup_insert|done]. Qed.

Lemma table_cell_outside (table : list (list (option CellValue))) (k c : Z) :
  k < 0 ∨ Z.of_nat (length table) <= k -> table_cell table k c = None.
Proof.
  intros Hk. unfold table_cell.
  destruct (Z.leb_spec 0 k); [|done]. destruct (1 <=? c); [|done]. simpl.
  rewrite (lookup_ge_None_2 table) by lia. done.
Qed.

Lemma table_cell_app_l (table more : list (list (option CellValue))) (k c : Z) :
  k < Z.of_nat (length table) ->
  table_cell (table ++ more) k c = table_cell table k c.
Proof.
  intros Hk. unfold table_cell.
  destruct (Z.leb_spec 0 k); [|done]. destruct (1 <=? c); [|done]. simpl.
  by rewrite lookup_app_l by lia.
Qed.

Lemma table_cell_app_r (table more : list (list (option CellValue))) (k c : Z) :
  Z.of_nat (length table) <= k ->
  table_cell (table ++ more) k c = table_cell more (k - Z.of_nat (length table)) c.
Proof.
  intros Hk. unfold table_cell.
  destruct (Z.leb_spec 0 k); [|lia].
  destruct (Z.leb_spec 0 (k - Z.of_nat (length table))); [|lia].
  destruct (1 <=? c); [|done]. simpl.
  rewrite lookup_app_r by lia. do 3 f_equal. lia.
Qed.

(** The cells of a single table row of six columns. *)
Lemma table_cell_row (v1 v2 v3 v4 v5 v6 : option CellValue) (c : Z) :
  table_cell [[v1; v2; v3; v4; v5; v6]] 0 c =
    if decide (c = 1) then v1 else if decide (c = 2) then v2
    else if decide (c = 3) then v3 else if decide (c = 4) then v4
    else if decide (c = 5) then v5 else if decide (c = 6) then v6
    else None.
Proof.
  unfold table_cell. simpl.
  repeat (case_decide; [subst c; reflexivity|]).
  destruct (Z.leb_spec 1 c); [|done].
  rewrite (lookup_ge_None_2 _ (Z.to_nat (c - 1))) by (simpl; lia). done.
Qed.

Lemma lays_out_start (base : Z) (ws : Worksheet) :
  (∀ r c, base <= r -> cells ws !! (r, c) = None) ->
  lays_out base ws ws [].
Proof.
  intros Hfree. split; [done|]. intros r c Hr.
  rewrite Hfree by done. by rewrite table_cell_outside by (simpl; lia).
Qed.

(** Writing one more row below the table laid out so far. *)
Lemma lays_out_row (base : Z) (before ws ws' : Worksheet)
    (table : list (list (option CellValue))) (v1 v2 v3 v4 v5 v6 : option CellValue) :
  lays_out base before ws table ->
  (∀ r c,
     cells ws' !! (r, c) =
       if decide (r = base + Z.of_nat (length table)) then
         match table_cell [[v1; v2; v3; v4; v5; v6]] 0 c with
         | Some v => Some v
         | None => cells ws !! (r, c)
         end
       else cells ws !! (r, c)) ->
  lays_out base before ws' (table ++ [[v1; v2; v3; v4; v5; v6]]).
Proof.
  intros [Hbelow Hrows] Hnew. split.
  - intros r c Hr. rewrite Hnew, decide_False by lia. by apply Hbelow.
  - intros r c Hr. rewrite Hnew. case_decide as Hrow.
    + rewrite table_cell_app_r by lia.
      replace (r - base - Z.of_nat (length table)) with 0 by lia.
      destruct (table_cell [[v1; v2; v3; v4; v5; v6]] 0 c) as [v|]; [done|].
      rewrite Hrows by done. apply table_cell_outside. lia.
    + rewrite Hrows by done.
      destruct (Z.lt_ge_cases (r - base) (Z.of_nat (length table))).
      * by rewrite table_cell_app_l.
      * rewrite !table_cell_outside; [done| |lia].
        rewrite length_app. simpl. lia.
Qed.

Lemma write_line_row (label : string) (image : StoredImageResult)
    (ws : Worksheet) (row : Z) (line : LineResult) :
  (Excel.write_line label image (ws, row) line).2 = row + 1
  ∧ ∀ r c,
      cells (Excel.write_line label image (ws, row) line).1 !! (r, c) =
        if decide (r = row) then
          match table_cell [line_cells label image line] 0 c with
          | Some v => Some v
          | None => cells ws !! (r, c)
          end
        else cells ws !! (r, c).
Proof.
  split; [done|]. intros r c. unfold Excel.write_line, line_cells.
  cbn [fst]. rewrite table_cell_row. rewrite !cell_lookup.
  destruct (lr_mean_linear_intercept_um line) as [mean|]; simpl;
    repeat case_decide; simplify_eq; try done; try lia.
Qed.

Lemma average_row (label : string) (image : StoredImageResult)
    (ws : Worksheet) (row : Z) (r c : Z) :
  cells (Excel.set_font
           (Excel.cell
              (Excel.merge_cells
                 (Excel.cell ws row 1
                    (Some (Text (label +:+ " - Image "
                                 +:+ pretty (sir_image_number image)
                                 +:+ " average"))))
                 row 1 row 3)
              row 6 (Real <$> sir_average_mli_um image))
           row 6) !! (r, c) =
    if decide (r = row) then
      match table_cell [average_cells label image] 0 c with
      | Some v => Some v
      | None => cells ws !! (r, c)
      end
    else cells ws !! (r, c).
Proof.
  unfold average_cells. rewrite table_cell_row.
  cbn [Excel.set_font cells]. rewrite cell_lookup.
  cbn [Excel.merge_cells cells]. rewrite cell_lookup.
  destruct (sir_average_mli_um image) as [average|]; simpl;
    repeat case_decide; simplify_eq; try done; try lia.
Qed.

Lemma write_lines_lay_out (base : Z) (before : Worksheet) (label : string)
    (image : StoredImageResult) (lines : list LineResult)
    (ws : Worksheet) (row : Z) (table : list (list (option CellValue))) :
  row = base + Z.of_nat (length table) ->
  lays_out base before ws table ->
  ∃ ws',
    fold_left (Excel.write_line label image) lines (ws, row)
      = (ws', row + Z.of_nat (length lines))
    ∧ lays_out base before ws' (table ++ (line_cells label image <$> lines)).
Proof.
  revert ws row table. induction lines as [|line lines IH]; intros ws row table Hrow Hlaid.
  - exists ws. simpl. rewrite Z.add_0_r, app_nil_r. done.
  - destruct (write_line_row label image ws row line) as [Hnext Hcells].
    destruct (Excel.write_line label image (ws, row) line) as [ws1 row1] eqn:Hstep.
    simpl in Hnext, Hcells. subst row1.
    destruct (IH ws1 (row + 1) (table ++ [line_cells label image line]))
      as (ws' & Hfold & Hlaid').
    + rewrite length_app. simpl. lia.
    + apply lays_out_row with (ws := ws); [done|]. by rewrite <- Hrow.
    + exists ws'. cbn [fold_left]. rewrite Hstep, Hfold.
      rewrite <- app_assoc in Hlaid'. split; [|done].
      f_equal. simpl length. lia.
Qed.

Lemma write_image_lays_out (base : Z) (before : Worksheet) (label : string)
    (image : StoredImageResult) (ws : Worksheet) (row : Z)
    (table : list (list (option CellValue))) :
  row = base + Z.of_nat (length table) ->
  lays_out base before ws table ->
  ∃ ws',
    Excel.write_image label (ws, row) image
      = (ws', row + Z.of_nat (length (image_table label image)))
    ∧ lays_out base before ws' (table ++ image_table label image).
Proof.
  intros Hrow Hlaid. unfold Excel.write_image.
  destruct (write_lines_lay_out base before label image (sir_lines image)
              ws row table Hrow Hlaid) as (ws1 & -> & Hlaid1).
  eexists. split.
  - f_equal. unfold image_table. rewrite length_app, length_fmap. simpl. lia.
  - unfold image_table. rewrite app_assoc.
    apply lays_out_row with (ws := ws1); [done|].
    intros r c. rewrite average_row. rewrite length_app, length_fmap.
    replace (base + Z.of_nat (length table + length (sir_lines image)))
      with (row + Z.of_nat (length (sir_lines image))) by lia.
    done.
Qed.

Lemma write_images_lay_out (base : Z) (before : Worksheet) (label : string)
    (images : list StoredImageResult) (ws : Worksheet) (row : Z)
    (table : list (list (option CellValue))) :
  row = base + Z.of_nat (length table) ->
  lays_out base before ws table ->
  ∃ ws',
    fold_left (Excel.write_image label) images (ws, row)
      = (ws', row + Z.of_nat (length (concat (image_table label <$> images))))
    ∧ lays_out base before ws' (table ++ concat (image_table label <$> images)).
Proof.
  revert ws row table. induction images as [|image images IH];
    intros ws row table Hrow Hlaid.
  - exists ws. simpl. rewrite Z.add_0_r, app_nil_r. done.
  - destruct (write_image_lays_out base before label image ws row table Hrow Hlaid)
      as (ws1 & Hstep & Hlaid1).
    destruct (IH ws1 (row + Z.of_nat (length (image_table label image)))
                (table ++ image_table label image))
      as (ws' & Hfold & Hlaid').
    + rewrite length_app. lia.
    + done.
    + exists ws'. cbn [fold_left]. rewrite Hstep, Hfold.
      rewrite fmap_cons. cbn [concat]. rewrite <- app_assoc in Hlaid'.
      split; [|done]. f_equal. rewrite length_app. lia.
Qed.

Lemma write_results_lay_out (base : Z) (before : Worksheet)
    (results : list StoredResult) (start : nat) (ws : Worksheet) (row : Z)
    (table : list (list (option CellValue))) :
  row = base + Z.of_nat (length table) ->
  lays_out base before ws table ->
  ∃ ws',
    fold_left Excel.write_result
      (imap (fun i result => (Z.of_nat (start + i) + 1, result)) results) (ws, row)
      = (ws',
         row + Z.of_nat
                 (length (concat (imap (fun i result =>
                                          result_table (Z.of_nat (start + i) + 1) result)
                                       results))))
    ∧ lays_out base before ws'
        (table ++ concat (imap (fun i result =>
                                  result_table (Z.of_nat (start + i) + 1) result)
                               results)).
Proof.
  revert start ws row table. induction results as [|result results IH];
    intros start ws row table Hrow Hlaid.
  - exists ws. simpl. rewrite Z.add_0_r, app_nil_r. done.
  - rewrite !imap_cons. cbn [fold_left concat].
    replace (start + 0)%nat with start by lia.
    unfold Excel.write_result at 2. unfold result_table at 1 3.
    destruct (write_images_lay_out base before
                ("Animal " +:+ pretty (Z.of_nat start + 1)) (sr_images result)
                ws row table Hrow Hlaid) as (ws1 & -> & Hlaid1).
    set (block := concat (image_table ("Animal " +:+ pretty (Z.of_nat start + 1))
                            <$> sr_images result)) in *.
    destruct (IH (S start) ws1 (row + Z.of_nat (length block)) (table ++ block))
      as (ws' & Hfold & Hlaid').
    + rewrite length_app. lia.
    + done.
    + exists ws'.
      assert (∀ {X} (f : Z -> StoredResult -> X),
                imap ((fun i result => f (Z.of_nat (start + i) + 1) result) ∘ S) results
                = imap (fun i result => f (Z.of_nat (S start + i) + 1) result) results)
        as Hshift.
      { intros X f. apply imap_ext. intros i x _. simpl. do 2 f_equal. lia. }
      rewrite (Hshift _ (fun k result => (k, result))).
      rewrite (Hshift _ result_table).
      rewrite Hfold. rewrite <- app_assoc in Hlaid'. split; [|done].
      f_equal. rewrite length_app. lia.
Qed.

Lemma style_keeps_cells (columns : list Z) (ws : Worksheet) :
  cells (fold_left (fun ws column =>
                      Excel.set_alignment (Excel.set_font ws 1 column) 1 column)
                   columns ws) = cells ws
  ∧ title (fold_left (fun ws column =>
                        Excel.set_alignment (Excel.set_font ws 1 column) 1 column)
                     columns ws) = title ws.
Proof.
  revert ws. induction columns as [|column columns IH]; intros ws; [done|].
  simpl. destruct (IH (Excel.set_alignment (Excel.set_font ws 1 column) 1 column))
    as [-> ->]. done.
Qed.

Lemma widths_keep_cells (columns : list Z) (ws : Worksheet) :
  cells (fold_left (fun ws column =>
                      Excel.set_width ws (Excel.column_letter column) 26)
                   columns ws) = cells ws
  ∧ title (fold_left (fun ws column =>
                        Excel.set_width ws (Excel.column_letter column) 26)
                     columns ws) = title ws.
Proof.
  revert ws. induction columns as [|column columns IH]; intros ws; [done|].
  simpl. destruct (IH (Excel.set_width ws (Excel.column_letter column) 26))
    as [-> ->]. done.
Qed.

Lemma header_cells (r c : Z) :
  cells (Excel.append_first (Excel.set_title Excel.blank "MLI Summary")
           Excel.headers) !! (r, c) =
    if decide (r = 1) then table_cell [Some ∘ Text <$> Excel.headers] 0 c else None.
Proof.
  unfold Excel.append_first, Excel.headers.
  cbn [imap fold_left fmap list_fmap compose]. rewrite table_cell_row.
  rewrite !cell_lookup. cbn [Excel.set_title Excel.blank cells].
  rewrite lookup_empty.
  repeat case_decide; simplify_eq; try done; try lia.
Qed.

Lemma write_keeps_title (entries : list (Z * StoredResult)) (ws : Worksheet) (row : Z) :
  title (fold_left Excel.write_result entries (ws, row)).1 = title ws.
Proof.
  revert ws row. induction entries as [|[k result] entries IH]; intros ws row; [done|].
  cbn [fold_left].
  destruct (Excel.write_result (ws, row) (k, result)) as [ws2 row2] eqn:Hstep.
  rewrite IH. revert Hstep. unfold Excel.write_result.
  generalize ("Animal " +:+ pretty k). intros label.
  revert ws row. induction (sr_images result) as [|image images IHi];
    intros ws row; simpl.
  - by intros [= <- _].
  - destruct (Excel.write_image label (ws, row) image) as [ws3 row3] eqn:Himage.
    intros ->%IHi. revert Himage. unfold Excel.write_image.
    assert (∀ rows w r,
              title (fold_left (Excel.write_line label image) rows (w, r)).1
              = title w) as Hlines.
    { intros rows. induction rows as [|line rows IHl]; intros w r; [done|].
      simpl. rewrite IHl. by destruct (lr_mean_linear_intercept_um line). }
    specialize (Hlines (sir_lines image) ws row).
    destruct (fold_left _ (sir_lines image) (ws, row)) as [ws4 row4].
    simpl in Hlines. intros [= <- _]. simpl.
    by destruct (sir_average_mli_um image).
Qed.

Lemma table_length (number : nat -> Z) (results : list StoredResult) :
  length (concat (imap (fun i result => result_table (number i) result) results))
  = sum_list_with
      (fun result =>
         sum_list_with (fun image => S (length (sir_lines image)))
                       (sr_images result))
      results.
Proof.
  revert number. induction results as [|result results IH]; intros number; [done|].
  rewrite imap_cons. cbn [concat sum_list_with].
  rewrite length_app. f_equal.
  - unfold result_table. generalize ("Animal " +:+ pretty (number 0%nat)).
    intros label. induction (sr_images result) as [|image images IHi]; [done|].
    rewrite !fmap_cons. cbn [concat sum_list_with]. rewrite length_app, IHi.
    f_equal. unfold image_table. rewrite length_app, length_fmap. simpl. lia.
  - apply (IH (number ∘ S)).
Qed.

(** X16. The exported sheet, cell by cell. Row 1 holds the six headers. From
    row 2 on come the rows of the table: for every animal, in the order of the
    results, and for every image, one row per line (the label [Animal k] with
    [k] the position of the animal in the list, the image number, the line
    number, the two intercept counts and the MLI, the cell left empty when the
    MLI is undefined), closed by the row of the image's average. One empty row
    follows, then the row with the generation time; every other cell is empty.
    The table has one row per line plus one per image. *)
Theorem export_lays_out_the_table (results : list StoredResult) (now : string) :
  let ws := Excel.export_results_to_excel results now in
  let table := results_table results in
  let rows := Z.of_nat (length table) in
  title ws = "MLI Summary"
  ∧ (∀ c, cells ws !! (1, c) = table_cell [Some ∘ Text <$> Excel.headers] 0 c)
  ∧ (∀ r c, 2 <= r < 2 + rows -> cells ws !! (r, c) = table_cell table (r - 2) c)
  ∧ (∀ c, cells ws !! (2 + rows, c) = None)
  ∧ (∀ c, cells ws !! (3 + rows, c) =
          if decide (c = 1) then Some (Text ("Generated: " +:+ now +:+ "Z"))
          else None)
  ∧ (∀ r c, r < 1 ∨ 3 + rows < r -> cells ws !! (r, c) = None)
  ∧ length table
    = sum_list_with
        (fun result =>
           sum_list_with (fun image => S (length (sir_lines image)))
                         (sr_images result))
        results.
Proof.
  intros ws table rows.
  set (sheet0 := fold_left
                   (fun ws column =>
                      Excel.set_alignment (Excel.set_font ws 1 column) 1 column)
                   ((fun i => Z.of_nat i + 1) <$> seq 0 (length Excel.headers))
                   (Excel.append_first (Excel.set_title Excel.blank "MLI Summary")
                      Excel.headers)).
  assert (∀ r c, cells sheet0 !! (r, c) =
                 if decide (r = 1)
                 then table_cell [Some ∘ Text <$> Excel.headers] 0 c else None)
    as Hhead.
  { intros r c. unfold sheet0.
    rewrite (proj1 (style_keeps_cells _ _)). apply header_cells. }
  assert (title sheet0 = "MLI Summary") as Htitle0.
  { unfold sheet0. by rewrite (proj2 (style_keeps_cells _ _)). }
  destruct (write_results_lay_out 2 sheet0 results 0 sheet0 2 []) as (ws1 & Hfold & Hlaid).
  { done. }
  { apply lays_out_start. intros r c Hr. rewrite Hhead. by rewrite decide_False by lia. }
  rewrite app_nil_l in Hlaid.
  change (concat (imap (fun i result => result_table (Z.of_nat (0 + i) + 1) result)
                    results)) with table in Hfold, Hlaid.
  change (imap (fun i result => (Z.of_nat (0 + i) + 1, result)) results)
    with (imap (fun i result => (Z.of_nat i + 1, result)) results) in Hfold.
  fold rows in Hfold.
  assert (title ws1 = "MLI Summary") as Htitle1.
  { pose proof (write_keeps_title
                  (imap (fun i result => (Z.of_nat i + 1, result)) results) sheet0 2)
      as Ht.
    rewrite Hfold in Ht. simpl in Ht. congruence. }
  assert (ws = Excel.cell
                 (fold_left (fun ws column =>
                               Excel.set_width ws (Excel.column_letter column) 26)
                            ((fun i => Z.of_nat i + 1) <$> seq 0 6) ws1)
                 (2 + rows + 1) 1
                 (Some (Text ("Generated: " +:+ now +:+ "Z")))) as Hws.
  { unfold ws, Excel.export_results_to_excel. fold sheet0. cbv zeta.
    rewrite Hfold. done. }
  destruct Hlaid as [Hbelow Hrows].
  assert (∀ r c, cells ws !! (r, c) =
                 if decide ((2 + rows + 1, 1) = (r, c))
                 then Some (Text ("Generated: " +:+ now +:+ "Z"))
                 else cells ws1 !! (r, c)) as Hcells.
  { intros r c. rewrite Hws, cell_lookup.
    by rewrite (proj1 (widths_keep_cells _ _)). }
  split; [|split; [|split; [|split; [|split; [|split]]]]].
  - rewrite Hws. cbn [Excel.cell title].
    by rewrite (proj2 (widths_keep_cells _ _)).
  - intros c. rewrite Hcells, decide_False by (intros [= ? ?]; lia).
    rewrite Hbelow by lia. rewrite Hhead. by rewrite decide_True.
  - intros r c Hr. rewrite Hcells, decide_False by (intros [= ? ?]; lia).
    apply Hrows. lia.
  - intros c. rewrite Hcells, decide_False by (intros [= ? ?]; lia).
    rewrite Hrows by lia. apply table_cell_outside. lia.
  - intros c. rewrite Hcells. case_decide as Hc.
    + injection Hc as _ <-. by rewrite decide_True.
    + rewrite decide_False by (intros ->; apply Hc; f_equal; lia).
      rewrite Hrows by lia. apply table_cell_outside. lia.
  - intros r c Hr. rewrite Hcells, decide_False by (intros [= ? ?]; lia).
    destruct Hr as [Hr|Hr].
    + rewrite Hbelow by lia. rewrite Hhead. by rewrite decide_False by lia.
    + rewrite Hrows by lia. apply table_cell_outside. lia.
  - apply (table_length (fun i => Z.of_nat i + 1)).
Qed.

(** ** The handlers and the store *)

Section Requests.
Context `{backend : Backend}.
Variable BASE_DIR : string.

(** A loop that completes has analysed every image, in order. *)
Lemma analyze_loop_ok config w (images : list ImageRecord) :
  ∀ index results calls out,
    response (analyze_loop BASE_DIR config index images results calls w) = Ok out ->
    ∃ more,
      out = results ++ more ∧ length more = length images
      ∧ ∀ (i : nat) image,
          images !! i = Some image ->
          path_exists w (resolve_path BASE_DIR (stored_path image)) = true
          ∧ ∃ metrics,
              (run_mli_analysis (resolve_path BASE_DIR (stored_path image)) config w).1
                = Ok metrics
              ∧ more !! i = Some (to_image_result (index + i) image metrics).
Proof.
  induction images as [|image images IH]; intros index results calls out; simpl.
  - intros [= <-]. exists []. rewrite app_nil_r. by repeat split.
  - destruct (path_exists w _) eqn:Hexists; simpl; [|done].
    pose proof (run_mli_analysis_world
                  (resolve_path BASE_DIR (stored_path image)) config w) as Hw.
    destruct (run_mli_analysis _ config w) as [[metrics|error] w'] eqn:Hrun;
      simpl in Hw; subst w'.
    + intros (more & -> & Hlen & Hmore)%IH.
      exists (to_image_result index image metrics :: more).
      rewrite <- app_assoc. split; [done|]. split; [simpl; lia|].
      intros [|i] image'; simpl.
      * intros [= <-]. split; [done|]. exists metrics.
        by rewrite Hrun, Nat.add_0_r.
      * intros Hi. destruct (Hmore i image' Hi) as (? & metrics' & ? & Hat).
        split; [done|]. exists metrics'. split; [done|].
        by replace (index + S i)%nat with (S index + i)%nat by lia.
    + by destruct error.
Qed.

(** X17. The [/analyze] handler records complete batches only. When the
    request ends in an exception (no image, a missing file, a failed analysis)
    the store is left exactly as it was, although earlier images of the batch
    were analysed. When it returns, the result holds one entry per stored
    image of the animal, in upload order and numbered from 1, and it is that
    result which the store then returns for the animal (as [reread_result]
    reads it); the stored images are not touched. *)
Theorem analyze_records_complete_batches_only `{literals : Literals}
    (animal : string) (config : AnalysisConfigData) (now later : string)
    (manager : StateManager) (w : World) :
  let images := Storage.get_images_for_animal animal manager in
  (∀ error,
     (Endpoints.analyze BASE_DIR animal config now manager w).1 = Raise error ->
     (Endpoints.analyze BASE_DIR animal config now manager w).2 = manager)
  ∧ (∀ result,
       (Endpoints.analyze BASE_DIR animal config now manager w).1 = Ok result ->
       res_animal_id result = animal
       ∧ res_generated_at result = now +:+ "Z"
       ∧ length (res_images result) = length images
       ∧ (∀ (i : nat) image entry,
            images !! i = Some image ->
            res_images result !! i = Some entry ->
            air_image_id entry = image_id image
            ∧ air_image_number entry = Z.of_nat i + 1
            ∧ air_name entry = original_filename image)
       ∧ Storage.get_result_for_animal animal later
           (Endpoints.analyze BASE_DIR animal config now manager w).2
         = Value (Some (reread_result result))
       ∧ st_images (_state (Endpoints.analyze BASE_DIR animal config now manager w).2)
         = st_images (_state manager)).
Proof.
  intros images. unfold Endpoints.analyze. fold images.
  destruct (response (analyze BASE_DIR images config w)) as [out|error] eqn:Hresponse;
    simpl; (split; [done|]); [|done].
  intros result [= <-]. simpl. split; [done|]. split; [done|].
  assert (∃ more, out = more ∧ length more = length images
            ∧ ∀ (i : nat) image, images !! i = Some image ->
                ∃ metrics, more !! i = Some (to_image_result i image metrics))
    as (more & -> & Hlen & Hmore).
  { unfold analyze in Hresponse. destruct images as [|first rest] eqn:Himages;
      [done|].
    apply analyze_loop_ok in Hresponse as (more & -> & Hlen & Hmore).
    exists more. split; [done|]. split; [done|].
    intros i image Hi. destruct (Hmore i image Hi) as (_ & metrics & _ & Hat).
    by exists metrics. }
  split; [done|]. split.
  - intros i image entry Hi Hentry.
    destruct (Hmore i image Hi) as [metrics Hat].
    rewrite Hat in Hentry. by injection Hentry as <-.
  - split; [|done].
    apply (record_then_read
             {| res_animal_id := animal; res_generated_at := now +:+ "Z";
                res_images := more |} later manager).
Qed.

Lemma lookup_fold_keep (entries : list (nat * ImageRecord))
    (d : list (string * (nat * ImageRecord))) (key : string) (v : nat * ImageRecord) :
  Dict.get d key = Some v ->
  key ∉ (fun entry => image_id entry.2) <$> entries ->
  Dict.get
    (fold_left (fun lookup '(index, image) =>
                  Dict.setitem lookup (image_id image) (index, image))
               entries d) key = Some v.
Proof.
  revert d. induction entries as [|[k x] entries IH]; intros d Hd Hnot; [done|].
  rewrite fmap_cons, not_elem_of_cons in Hnot. destruct Hnot as [Hx Hnot].
  cbn [fold_left]. apply IH; [|done]. by rewrite dict_get_setitem_ne.
Qed.

Lemma lookup_fold_get (entries : list (nat * ImageRecord))
    (d : list (string * (nat * ImageRecord))) (k : nat) (image : ImageRecord) :
  NoDup ((fun entry => image_id entry.2) <$> entries) ->
  (k, image) ∈ entries ->
  Dict.get
    (fold_left (fun lookup '(index, image) =>
                  Dict.setitem lookup (image_id image) (index, image))
               entries d) (image_id image) = Some (k, image).
Proof.
  revert d. induction entries as [|[k' x] entries IH]; intros d Hnodup Hin.
  - by apply elem_of_nil in Hin.
  - rewrite fmap_cons in Hnodup. apply NoDup_cons in Hnodup as [Hx Hnodup].
    cbn [fold_left]. apply elem_of_cons in Hin as [Heq|Hin].
    + injection Heq as -> ->. apply lookup_fold_keep; [|done].
      apply dict_get_setitem.
    + by apply IH.
Qed.

Lemma image_lookup_get (images : list ImageRecord) (i : nat) (image : ImageRecord) :
  NoDup (image_id <$> images) ->
  images !! i = Some image ->
  Dict.get (Endpoints.image_lookup images) (image_id image) = Some (i, image).
Proof.
  intros Hnodup Hi. unfold Endpoints.image_lookup. apply lookup_fold_get.
  - rewrite fmap_imap.
    assert (∀ h : nat -> nat,
              imap (fun n => (fun entry : nat * ImageRecord => image_id entry.2)
                               ∘ pair (h n)) images
              = image_id <$> images) as Hids.
    { clear. induction images as [|x images IH]; intros h; [done|].
      rewrite fmap_cons, imap_cons. f_equal. apply (IH (h ∘ S)). }
    by rewrite (Hids (fun n => n)).
  - apply list_elem_of_lookup. exists i. by rewrite list_lookup_imap, Hi.
Qed.

Lemma image_lookup_keys (images : list ImageRecord) (key : string)
    (found : nat * ImageRecord) :
  Dict.get (Endpoints.image_lookup images) key = Some found ->
  images !! found.1 = Some found.2 ∧ image_id found.2 = key.
Proof.
  unfold Endpoints.image_lookup.
  assert (∀ (entries : list (nat * ImageRecord)) d,
            (∀ k v, Dict.get d k = Some v -> images !! v.1 = Some v.2 ∧ image_id v.2 = k) ->
            (∀ entry, entry ∈ entries -> images !! entry.1 = Some entry.2) ->
            ∀ k v,
              Dict.get
                (fold_left (fun lookup '(index, image) =>
                              Dict.setitem lookup (image_id image) (index, image))
                           entries d) k = Some v ->
              images !! v.1 = Some v.2 ∧ image_id v.2 = k) as Hgen.
  { induction entries as [|[n x] entries IH]; intros d Hd Hentries k v; [apply Hd|].
    cbn [fold_left]. apply IH.
    - intros k' v'. destruct (decide (k' = image_id x)) as [->|Hne].
      + rewrite dict_get_setitem. intros [= <-]. split; [|done].
        apply (Hentries (n, x)). left.
      + rewrite dict_get_setitem_ne by done. apply Hd.
    - intros entry Hin. apply Hentries. by right. }
  apply Hgen; [done|].
  intros [n x] Hin. apply list_elem_of_lookup in Hin as [i Hi].
  rewrite list_lookup_imap in Hi.
  destruct (images !! i) as [y|] eqn:Hy; [|done]. simpl in Hi.
  by injection Hi as <- <-.
Qed.

(** X18. A preview is the batch entry of the same image. When the batch
    analysis of an animal completes, previewing any of its images returns
    exactly the entry that the batch result holds for that image. A preview of
    an animal without images, or of an image that is not among the animal's
    images, ends in HTTP 404. *)
Theorem preview_agrees_with_the_batch (animal : string)
    (config : AnalysisConfigData) (manager : StateManager) (w : World) :
  well_formed (_state manager) ->
  let images := Storage.get_images_for_animal animal manager in
  (∀ out (i : nat) image,
     response (analyze BASE_DIR images config w) = Ok out ->
     images !! i = Some image ->
     ∃ entry,
       out !! i = Some entry
       ∧ Endpoints.analyze_preview BASE_DIR animal (image_id image) config manager w
         = Ok entry)
  ∧ (images = [] ->
     ∀ id, Endpoints.analyze_preview BASE_DIR animal id config manager w
           = Raise (HTTPException 404 "No images found for this animal"))
  ∧ (∀ id, images ≠ [] -> id ∉ image_id <$> images ->
       Endpoints.analyze_preview BASE_DIR animal id config manager w
       = Raise (HTTPException 404 "Image not found for this animal")).
Proof.
  intros Hwf.
  pose proof (get_images_NoDup animal manager Hwf) as Hnodup.
  unfold Endpoints.analyze_preview.
  generalize dependent (Storage.get_images_for_animal animal manager).
  intros images Hnodup. cbv zeta. split; [|split].
  - intros out i image Hresponse Hi.
    destruct images as [|first rest]; [done|].
    unfold analyze in Hresponse.
    apply analyze_loop_ok in Hresponse as (more & -> & Hlen & Hmore).
    destruct (Hmore i image Hi) as (Hexists & metrics & Hrun & Hat).
    exists (to_image_result i image metrics). split; [done|].
    rewrite (image_lookup_get (first :: rest) i image Hnodup Hi).
    by rewrite Hexists, Hrun.
  - by intros ->.
  - intros id Hsome Hnot.
    destruct images as [|first rest]; [done|].
    destruct (Dict.get (Endpoints.image_lookup (first :: rest)) id)
      as [found|] eqn:Hget; [|done].
    exfalso. apply image_lookup_keys in Hget as [Hat <-].
    apply Hnot. apply list_elem_of_fmap. exists found.2. split; [done|].
    by eapply list_elem_of_lookup_2.
Qed.

(** X19. Moving an image through the handler. A move from an animal to itself
    answers with success without looking at the store, even for an image that
    does not exist. Otherwise the target animal is registered first: a move of
    an unknown image ends in HTTP 404 but leaves the target animal registered.
    The animal named as the source is never compared with the animal the image
    is filed under: a known image is moved whatever source the request names. *)
Theorem move_handler_edge_cases (id source target created_at moved_at : string)
    (manager : StateManager) :
  (source = target ->
     Endpoints.move_image id source target created_at moved_at manager
     = (Ok {| mv_success := true; mv_image_id := id; mv_animal_id := target |},
        manager))
  ∧ (source ≠ target ->
     Dict.get (st_images (_state manager)) id = None ->
     Endpoints.move_image id source target created_at moved_at manager
     = (Raise (HTTPException 404 "Image not found"),
        (Storage.ensure_animal target created_at manager).2)
     ∧ is_Some (Dict.get
                  (st_animals
                     (_state (Endpoints.move_image id source target
                                created_at moved_at manager).2)) target))
  ∧ (∀ record,
       source ≠ target ->
       Dict.get (st_images (_state manager)) id = Some record ->
       (Endpoints.move_image id source target created_at moved_at manager).1
       = Ok {| mv_success := true; mv_image_id := image_id record;
               mv_animal_id := target |}
       ∧ ∃ moved,
           Dict.get
             (st_images
                (_state (Endpoints.move_image id source target
                           created_at moved_at manager).2)) id = Some moved
           ∧ animal_id moved = target).
Proof.
  unfold Endpoints.move_image. split; [|split].
  - intros ->. by rewrite bool_decide_true.
  - intros Hne Hget. rewrite bool_decide_false by done.
    pose proof (ensure_animal_registered target created_at manager) as Hanimal.
    pose proof (ensure_animal_images target created_at manager) as Himages.
    assert (Storage.move_image id target moved_at
              (Storage.ensure_animal target created_at manager).2
            = (None, (Storage.ensure_animal target created_at manager).2)) as ->.
    { unfold Storage.move_image. by rewrite Himages, Hget. }
    split; [done|]. simpl. by rewrite Hanimal.
  - intros record Hne Hget. rewrite bool_decide_false by done.
    pose proof (ensure_animal_images target created_at manager) as Himages.
    unfold Storage.move_image. rewrite Himages, Hget. simpl.
    split; [done|]. eexists. split; [apply dict_get_setitem|done].
Qed.

End Requests.

(** ** The tissue mask *)

Section Mask.
Context `{backend : Backend}.

(** X20. A readable image always yields a mask, and the mask is binary: every
    entry is 0 or 1. With [min_area] at or below zero no component is removed:
    the mask has the shape of the (possibly blurred) grey image and marks
    exactly the pixels strictly darker than Otsu's threshold, a pixel equal to
    the threshold counting as airspace. *)
Theorem mask_is_binary_and_marks_darker_pixels path config w image :
  cv2_imread w path = Some image ->
  let gray :=
    if (0 <? sigma_denoise config)%float
    then cv2_GaussianBlur (cv2_cvtColor_BGR2GRAY image) (sigma_denoise config)
    else cv2_cvtColor_BGR2GRAY image in
  ∃ mask,
    _load_image_and_mask path config w = (Ok (image, mask), w)
    ∧ Forall (Forall (fun m => m = 0 ∨ m = 1)) mask
    ∧ (min_area config <= 0 ->
       mask = (fun row : list Z =>
                 (fun g => if g <? threshold_otsu gray then 1 else 0) <$> row)
                <$> gray).
Proof.
  intros Hread gray. unfold _load_image_and_mask. rewrite Hread.
  eexists. split; [done|]. split.
  - unfold astype_uint8. apply Forall_fmap, Forall_forall. intros row _.
    apply Forall_fmap, Forall_forall. intros [|] _; simpl; auto.
  - intros Harea. unfold tissue_mask_of. fold gray.
    destruct (Z.ltb_spec 0 (min_area config)); [lia|].
    unfold astype_uint8, below_threshold. rewrite <- list_fmap_compose.
    apply list_fmap_ext. intros _ row _. simpl. rewrite <- list_fmap_compose.
    by apply list_fmap_ext.
Qed.

End Mask.

Lemma mask_is_binary_and_marks_darker_pixels_witness :
  ∃ mask,
    @_load_image_and_mask (Reference.backend Reference.raw_codec)
      "/data/block.png" Reference.config Reference.files
    = (Ok (Reference.block_image, mask), Reference.files)
    ∧ Forall (Forall (fun m => m = 0 ∨ m = 1)) mask.
Proof.
  destruct (@mask_is_binary_and_marks_darker_pixels
              (Reference.backend Reference.raw_codec)
              "/data/block.png" Reference.config Reference.files
              Reference.block_image eq_refl) as (mask & Hload & Hbinary & _).
  by exists mask.
Defined.

(** ** Deleting through the handler *)

Section Deleting.
Context `{backend : Backend}.
Variable BASE_DIR : string.

Lemma preview_of_unlisted_image animal id config manager w :
  id ∉ image_id <$> Storage.get_images_for_animal animal manager ->
  ∃ detail,
    Endpoints.analyze_preview BASE_DIR animal id config manager w
    = Raise (HTTPException 404 detail).
Proof.
  intros Hnot. unfold Endpoints.analyze_preview.
  destruct (Storage.get_images_for_animal animal manager) as [|first rest] eqn:Himages.
  { by eexists. }
  destruct (Dict.get (Endpoints.image_lookup (first :: rest)) id)
    as [found|] eqn:Hget; [|by eexists].
  exfalso. apply (image_lookup_keys) in Hget as [Hat <-].
  apply Hnot. apply list_elem_of_fmap. exists found.2. split; [done|].
  by eapply list_elem_of_lookup_2.
Qed.

(** X21. Deleting an image through the handler removes its record and names
    for unlinking the very file an analysis of the image would read; from then
    on a preview of the image ends in HTTP 404 for every animal. Deleting an
    unknown image ends in HTTP 404, changes nothing and unlinks nothing. *)
Theorem deleted_image_is_gone (id : string) (manager : StateManager) :
  well_formed (_state manager) ->
  (Dict.get (st_images (_state manager)) id = None ->
     Endpoints.delete_image BASE_DIR id manager
     = (Raise (HTTPException 404 "Image not found"), manager, None))
  ∧ (∀ record,
       Dict.get (st_images (_state manager)) id = Some record ->
       ∃ manager',
         Endpoints.delete_image BASE_DIR id manager
         = (Ok {| del_success := true; del_image_id := id |}, manager',
            Some (resolve_path BASE_DIR (stored_path record)))
         ∧ Dict.get (st_images (_state manager')) id = None
         ∧ ∀ animal config w,
             ∃ detail,
               Endpoints.analyze_preview BASE_DIR animal id config manager' w
               = Raise (HTTPException 404 detail)).
Proof.
  intros Hwf. unfold Endpoints.delete_image, Storage.remove_image. split.
  - by intros ->.
  - intros record Hget. rewrite Hget. eexists. split; [done|].
    pose proof Hwf as (Hkeys & _).
    assert (Dict.get (Dict.remove (st_images (_state manager)) id) id = None)
      as Hgone by (by apply dict_get_remove).
    split; [done|].
    intros animal config w. apply preview_of_unlisted_image.
    intros Hin. apply list_elem_of_fmap in Hin as [r [Heq Hr]].
    apply get_images_get in Hr as [_ Hr].
    + simpl in Hr. rewrite <- Heq in Hr. congruence.
    + pose proof (well_formed_remove_image id manager Hwf) as Hwf'.
      unfold Storage.remove_image in Hwf'. by rewrite Hget in Hwf'.
Qed.

End Deleting.

(** ** Instances on the sample store *)

Lemma sample_store_well_formed : well_formed (_state Sample.store).
Proof. repeat split; simpl; compute_done. Qed.

Lemma listed_results_match_single_lookups_witness :
  ∃ entries res,
    JDict [("animal_id", JStr "mouse-2")] = JDict entries
    ∧ [reread_result Sample.result;
       {| sr_animal_id := JStr "mouse-2";
          sr_generated_at := JStr "2024-02-03T00:00:01";
          sr_images := [] |}] !! 1%nat = Some res
    ∧ sr_generated_at res
      = default (JStr "2024-02-03T00:00:01") (Dict.get entries "generated_at")
    ∧ ∀ now,
        @Storage.get_result_for_animal Sample.literals "mouse-2" now Sample.listed
        = Value (Some {| sr_animal_id := sr_animal_id res;
                         sr_generated_at :=
                           default (JStr now) (Dict.get entries "generated_at");
                         sr_images := sr_images res |}).
Proof.
  apply (@listed_results_match_single_lookups Sample.literals
           (fun position => if position =? 0 then "2024-02-03T00:00:00"
                            else "2024-02-03T00:00:01")
           Sample.listed
           [reread_result Sample.result;
            {| sr_animal_id := JStr "mouse-2";
               sr_generated_at := JStr "2024-02-03T00:00:01";
               sr_images := [] |}]).
  - simpl. compute_done.
  - vm_compute. reflexivity.
  - reflexivity.
Defined.

Lemma coerce_line_fills_the_gaps_witness :
  lr_line_number
    {| lr_line_number := 4; lr_horizontal_intercepts := 0;
       lr_vertical_intercepts := 0; lr_horizontal_length_um := 0;
       lr_vertical_length_um := 0; lr_total_line_length_um := 0;
       lr_mean_linear_intercept_um := None |} = 4.
Proof.
  apply (proj1 (@coerce_line_fills_the_gaps Sample.literals (JDict []) 4) []);
    [reflexivity|vm_compute; reflexivity|reflexivity].
Defined.

Lemma preview_agrees_with_the_batch_witness :
  ∃ entry,
    @Endpoints.analyze_preview (Reference.backend Reference.raw_codec) "/srv"
      "mouse-1" "7f" Reference.config Sample.store Reference.files = Ok entry.
Proof.
  destruct (@preview_agrees_with_the_batch (Reference.backend Reference.raw_codec)
              "/srv" "mouse-1" Reference.config Sample.store Reference.files
              sample_store_well_formed) as [Hbatch _].
  destruct (response
              (@analyze (Reference.backend Reference.raw_codec) "/srv"
                 (Storage.get_images_for_animal "mouse-1" Sample.store)
                 Reference.config Reference.files)) as [out|error] eqn:Hresponse;
    [|vm_compute in Hresponse; discriminate].
  destruct (Hbatch out 1%nat
              {| image_id := "7f"; animal_id := "mouse-1";
                 original_filename := "second.png";
                 stored_path := "/data/block.png"; size := 72;
                 uploaded_at := "2024-02-01T09:00:00" |} eq_refl eq_refl)
    as (entry & _ & Hpreview).
  by exists entry.
Defined.

Lemma analyze_records_complete_batches_only_witness :
  (∃ result,
     (@Endpoints.analyze (Reference.backend Reference.raw_codec) "/srv"
        "mouse-1" Reference.config "2024-02-02T10:00:00" Sample.store
        Reference.files).1 = Ok result
     ∧ length (res_images result) = 2%nat
     ∧ @Storage.get_result_for_animal Sample.literals "mouse-1" "2024-02-03T00:00:00"
         (@Endpoints.analyze (Reference.backend Reference.raw_codec) "/srv"
            "mouse-1" Reference.config "2024-02-02T10:00:00" Sample.store
            Reference.files).2
       = Value (Some (reread_result result)))
  ∧ attempted
      (@analyze (Reference.backend Reference.raw_codec) "/srv"
         (Storage.get_images_for_animal "mouse-1" Sample.mixed)
         Reference.config Reference.files)
    = ["a1"; "7f"; "c3"]
  ∧ (@Endpoints.analyze (Reference.backend Reference.raw_codec) "/srv"
       "mouse-1" Reference.config "2024-02-02T10:00:00" Sample.mixed
       Reference.files).2 = Sample.mixed
  ∧ (@Endpoints.analyze (Reference.backend Reference.raw_codec) "/srv"
       "mouse-2" Reference.config "2024-02-02T10:00:00" Sample.store
       Reference.files).2 = Sample.store.
Proof.
  split; [|split; [reflexivity|split]].
  - assert (∃ result,
              (@Endpoints.analyze (Reference.backend Reference.raw_codec) "/srv"
                 "mouse-1" Reference.config "2024-02-02T10:00:00" Sample.store
                 Reference.files).1 = Ok result) as [result Hresult].
    { vm_compute. eexists. reflexivity. }
    destruct (proj2 (@analyze_records_complete_batches_only
                       (Reference.backend Reference.raw_codec) "/srv" Sample.literals
                       "mouse-1" Reference.config "2024-02-02T10:00:00"
                       "2024-02-03T00:00:00" Sample.store Reference.files)
                    result Hresult) as (_ & _ & Hlength & _ & Hread & _).
    exists result. split; [exact Hresult|]. split; [exact Hlength|exact Hread].
  - apply (proj1 (@analyze_records_complete_batches_only
                    (Reference.backend Reference.raw_codec) "/srv" Sample.literals
                    "mouse-1" Reference.config "2024-02-02T10:00:00"
                    "2024-02-03T00:00:00" Sample.mixed Reference.files)
                 (HTTPException 500 "Unable to read image at /data/notes.txt")).
    vm_compute. reflexivity.
  - apply (proj1 (@analyze_records_complete_batches_only
                    (Reference.backend Reference.raw_codec) "/srv" Sample.literals
                    "mouse-2" Reference.config "2024-02-02T10:00:00"
                    "2024-02-03T00:00:00" Sample.store Reference.files)
                 (HTTPException 404 "No images found for this animal")).
    vm_compute. reflexivity.
Defined.

Lemma move_handler_edge_cases_witness :
  Endpoints.move_image "00" "mouse-1" "mouse-1"
    "2024-03-01T10:00:00" "2024-03-01T10:00:01" Sample.store
  = (Ok {| mv_success := true; mv_image_id := "00"; mv_animal_id := "mouse-1" |},
     Sample.store).
Proof.
  apply (move_handler_edge_cases "00" "mouse-1" "mouse-1"
           "2024-03-01T10:00:00" "2024-03-01T10:00:01" Sample.store).
  reflexivity.
Defined.

Lemma deleted_image_is_gone_witness :
  ∃ manager',
    @Endpoints.delete_image "/srv" "7f" Sample.store
    = (Ok {| del_success := true; del_image_id := "7f" |}, manager',
       Some "/data/block.png")
    ∧ Dict.get (st_images (_state manager')) "7f" = None.
Proof.
  destruct (@deleted_image_is_gone (Reference.backend Reference.raw_codec)
              "/srv" "7f" Sample.store sample_store_well_formed) as [_ Hknown].
  destruct (Hknown {| image_id := "7f"; animal_id := "mouse-1";
                      original_filename := "second.png";
                      stored_path := "/data/block.png"; size := 72;
                      uploaded_at := "2024-02-01T09:00:00" |} eq_refl)
    as (manager' & Hdelete & Hgone & _).
  by exists manager'.
Defined.

(** ** Marker placement *)

Lemma comprehension_ok {A B} (f : A -> Result B) (items : list A) :
  Forall (fun x => ∃ y, f x = Ok y) items ->
  ∃ out, comprehension f items = Ok out.
Proof.
  induction 1 as [|x items [y Hy] _ [out IH]]; [by exists []|].
  exists (y :: out). simpl. by rewrite Hy, IH.
Qed.

Lemma getitem_in_range (a : list Z) (i : nat) :
  (i < length a)%nat -> ∃ v, getitem a (Z.of_nat i) = Ok v.
Proof.
  intros Hi. unfold getitem, Np.index.
  destruct (Z.leb_spec 0 (Z.of_nat i)); [|lia].
  destruct (Z.ltb_spec (Z.of_nat i) (Z.of_nat (length a))); [|lia].
  simpl. rewrite Nat2Z.id.
  destruct (lookup_lt_is_Some_2 a i Hi) as [v ->]. by exists v.
Qed.

Lemma sample_mask_length (mask : list (list Z)) rr cc samples :
  sample_mask mask rr cc = Ok samples ->
  length rr = length cc ∧ length samples = length rr.
Proof.
  unfold sample_mask. destruct (Nat.eqb_spec (length rr) (length cc)) as [Heq|];
    [|done].
  simpl. intros Hlen%comprehension_length.
  rewrite length_zip in Hlen. lia.
Qed.

Lemma count_intercepts_range (samples : list Z) (i : nat) :
  i ∈ (_count_intercepts samples).2 -> (0 < i < length samples)%nat.
Proof.
  destruct samples as [|s rest]; [by intros ?%elem_of_nil|].
  rewrite count_intercepts_transitions. simpl.
  intros Hi%transitions_from_range. rewrite length_fmap in Hi. simpl. lia.
Qed.

Section Markers.
Context `{backend : Backend}.

(** X22. Measuring a line fails only while sampling the mask. Once the samples
    are read, every intercept index lies within the line, so looking up the
    marker coordinates never raises: the line is drawn on both overlays and
    its intercept count is recorded. Conversely an exception while sampling is
    the exception of the measurement. *)
Theorem marker_lookup_never_fails mask rr cc pt1 pt2 color len
    (original_overlay threshold_overlay : Image) (data : list LineData) :
  (∀ samples,
     sample_mask mask rr cc = Ok samples ->
     ∃ o t,
       measure_line mask rr cc pt1 pt2 color len
         (original_overlay, threshold_overlay, data)
       = Ok (o, t, data ++ [{| intercepts := (_count_intercepts samples).1;
                               length_um := len |}]))
  ∧ (∀ error,
       sample_mask mask rr cc = Raise error ->
       measure_line mask rr cc pt1 pt2 color len
         (original_overlay, threshold_overlay, data)
       = Raise error).
Proof.
  split.
  - intros samples Hsamples.
    destruct (sample_mask_length _ _ _ _ Hsamples) as [Hcc Hlen].
    unfold measure_line. rewrite Hsamples. simpl.
    pose proof (count_intercepts_range samples) as Hrange.
    destruct (_count_intercepts samples) as [n idx]. simpl in *.
    destruct (comprehension_ok
                (fun i : nat =>
                   x ← getitem cc (Z.of_nat i);
                   y ← getitem rr (Z.of_nat i);
                   Ok (x, y)) idx) as [points ->].
    { apply Forall_forall. intros i Hi%Hrange.
      destruct (getitem_in_range cc i) as [x ->]; [lia|].
      destruct (getitem_in_range rr i) as [y ->]; [lia|].
      by exists (x, y). }
    simpl. destruct (fold_left _ points _) as [o t]. by exists o, t.
  - intros error Hsamples. unfold measure_line. by rewrite Hsamples.
Qed.

End Markers.

Lemma marker_lookup_never_fails_witness :
  ∃ o t,
    @measure_line (Reference.backend Reference.raw_codec)
      [[0; 1; 1; 0]] [0; 0; 0; 0] [0; 1; 2; 3] (0, 0) (3, 0) (0, 176, 255) 100
      ([[Reference.light; Reference.light; Reference.light; Reference.light]],
       [[Reference.light; Reference.light; Reference.light; Reference.light]], [])
    = Ok (o, t, [] ++ [{| intercepts := (_count_intercepts [0; 1; 1; 0]).1;
                          length_um := 100 |}]).
Proof.
  apply (@marker_lookup_never_fails (Reference.backend Reference.raw_codec)).
  reflexivity.
Defined.

(** ** Unreadable stored results *)

Section Unreadable.
Context `{literals : Literals}.

Lemma collect_raises {A B} (f : Z -> A -> Eval B) (items : list A) (bad : A) :
  bad ∈ items ->
  (∀ index, ∃ e, f index bad = Throw e) ->
  ∀ start, ∃ e, collect f start items = Throw e.
Proof.
  intros Hin Hbad. induction items as [|x items IH]; intros start.
  - by apply elem_of_nil in Hin.
  - simpl. destruct (f start x) as [y|e] eqn:Hx; simpl; [|by exists e].
    apply elem_of_cons in Hin as [->|Hin].
    + destruct (Hbad start) as [e He]. congruence.
    + destruct (IH Hin (start + 1)) as [e ->]. by exists e.
Qed.

(** X23. The two readers disagree on an empty stored record.  A record that
    is null, empty or otherwise false reads as no result when its animal
    is looked up, but makes the listing of all results raise: one such
    record takes the results of every animal out of the listing. *)
Theorem empty_record_breaks_the_listing (now key : string) (clock : Z -> string)
    (record : Json) (self : StateManager) :
  NoDup (Dict.keys (st_results (_state self))) ->
  (key, record) ∈ st_results (_state self) ->
  Builtins.truthy record = false ->
  Storage.get_result_for_animal key now self = Value None
  ∧ ∃ error, Storage.get_results clock self = Throw error.
Proof.
  intros Hkeys Hin Hfalsy. split.
  - unfold Storage.get_result_for_animal.
    rewrite (dict_elem_of_get _ key record Hkeys Hin). by rewrite Hfalsy.
  - unfold Storage.get_results. apply collect_raises with (bad := record).
    + unfold Dict.values. apply list_elem_of_fmap. by exists (key, record).
    + intros position. destruct record as [| | | | | |entries]; try by eexists.
      destruct entries as [|entry entries]; [by eexists|].
      exfalso. revert Hfalsy. unfold Builtins.truthy.
      by rewrite bool_decide_false.
Qed.

End Unreadable.

Lemma empty_record_breaks_the_listing_witness :
  @Storage.get_result_for_animal Sample.literals "mouse-3" "2024-02-03T00:00:00"
    {| _state := {| st_animals := []; st_images := [];
                    st_results := [("mouse-3", JDict [])] |};
       state_file := None |}
  = Value None.
Proof.
  apply (@empty_record_breaks_the_listing Sample.literals
           "2024-02-03T00:00:00" "mouse-3" (fun _ => "2024-02-03T00:00:00")
           (JDict [])).
  - simpl. compute_done.
  - simpl. left.
  - reflexivity.
Defined.
